(** * pocket-ai-vercel: the PCM-to-WAV encoder and the two request handlers

    A shallow embedding of [api/todo-from-speech.js], [api/pocket-ai.js] and
    of the earlier revision of the spoken-reply handler, with the properties
    of the WAV container and of the handlers' error paths.

    Conventions of the embedding.
    - A [Buffer] is a [list byte]; [buf[i] = v] is stdpp's list insert (a
      typed array ignores a store outside its bounds, as the insert does).
    - JavaScript numbers that the program uses as sizes, offsets, sample
      rates and channel counts are integers, modelled in [Z].  Numbers that
      arrive inside JSON are IEEE doubles, modelled by the primitive [float].
    - A JavaScript string is its sequence of UTF-16 code units, [list N].
    - An exception is the [Throw] case of [result]; an [await] of a rejected
      promise is a [Throw] too. *)

From Stdlib Require Import ZArith NArith List Lia Bool.
From Stdlib Require Import Strings.Byte Strings.String Strings.Ascii.
From Stdlib Require Import DecimalString PrimFloat Uint63 FloatOps SpecFloat.
From stdpp Require Import base option list numbers.

Local Open Scope Z_scope.

(** ** JavaScript strings *)

Definition JSString : Type := list N.

(** Exceptions.  The built-in errors carry a message worded by the engine,
    which is not modelled; [Error] is [new Error(message)]. *)
Inductive JSError : Type :=
| RangeError
| TypeError
| SyntaxError
| URIError
| Error (message : JSString).

Inductive result (A : Type) : Type :=
| Ok (a : A)
| Throw (e : JSError).
Arguments Ok {A} a.
Arguments Throw {A} e.

#[global] Instance result_ret : MRet result := fun A => @Ok A.
#[global] Instance result_bind : MBind result := fun A B f m =>
  match m with
  | Ok a => f a
  | Throw e => Throw e
  end.

(** ** Node's [Buffer] *)

Module Buffer.

Abbreviation t := (list byte).

(** [ToUint8] of a stored number, and the number a stored byte reads as. *)
Definition byte_of_Z (v : Z) : byte :=
  default x00 (Byte.of_N (Z.to_N (v mod 256))).

Definition Z_of_byte (b : byte) : Z := Z.of_N (Byte.to_N b).

(** [buf[offset]], [undefined] outside the buffer. *)
Definition get (buf : t) (offset : Z) : option byte :=
  if offset <? 0 then None else buf !! Z.to_nat offset.

(** [buf[offset] = value]. *)
Definition set (buf : t) (offset value : Z) : t :=
  if offset <? 0 then buf else <[Z.to_nat offset := byte_of_Z value]> buf.

(** [Buffer.alloc(size)]: a zero-filled buffer; a size below zero or above
    the platform's [kMaxLength] is a [RangeError]. *)
Definition alloc (kMaxLength size : Z) : result t :=
  if (size <? 0) || (kMaxLength <? size) then Throw RangeError
  else Ok (replicate (Z.to_nat size) x00).

(** [checkBounds] and [checkInt] of lib/internal/buffer.js. *)
Definition checkBounds (buf : t) (offset byteLength : Z) : result unit :=
  match get buf offset, get buf (offset + byteLength) with
  | Some _, Some _ => Ok tt
  | _, _ => Throw RangeError
  end.

Definition checkInt (value min max : Z) (buf : t) (offset byteLength : Z)
  : result unit :=
  if (value >? max) || (value <? min) then Throw RangeError
  else checkBounds buf offset byteLength.

(** [value >>> 8] *)
Definition ushr8 (value : Z) : Z := Z.shiftr (value mod 2 ^ 32) 8.

(** [buf.writeUInt32LE(value, offset)] *)
Definition writeUInt32LE (buf : t) (value offset : Z) : result t :=
  _ ← checkInt value 0 4294967295 buf offset 3;
  let buf := set buf offset value in
  let value := ushr8 value in
  let buf := set buf (offset + 1) value in
  let value := ushr8 value in
  let buf := set buf (offset + 2) value in
  let value := ushr8 value in
  let buf := set buf (offset + 3) value in
  Ok buf.

(** [buf.writeUInt16LE(value, offset)] *)
Definition writeUInt16LE (buf : t) (value offset : Z) : result t :=
  _ ← checkInt value 0 65535 buf offset 1;
  let buf := set buf offset value in
  let buf := set buf (offset + 1) (ushr8 value) in
  Ok buf.

(** UTF-8 of a string, one chunk of bytes per character: a surrogate pair
    is one character of four bytes, a lone surrogate is written as
    U+FFFD. *)
Definition utf8_of_code_point (c : Z) : list byte :=
  if c <? 128 then [byte_of_Z c]
  else if c <? 2048 then
    [byte_of_Z (192 + Z.shiftr c 6); byte_of_Z (128 + Z.land c 63)]
  else if c <? 65536 then
    [byte_of_Z (224 + Z.shiftr c 12);
     byte_of_Z (128 + Z.land (Z.shiftr c 6) 63);
     byte_of_Z (128 + Z.land c 63)]
  else
    [byte_of_Z (240 + Z.shiftr c 18);
     byte_of_Z (128 + Z.land (Z.shiftr c 12) 63);
     byte_of_Z (128 + Z.land (Z.shiftr c 6) 63);
     byte_of_Z (128 + Z.land c 63)].

Definition is_high_surrogate (u : N) : bool :=
  ((55296 <=? u) && (u <=? 56319))%N.
Definition is_low_surrogate (u : N) : bool :=
  ((56320 <=? u) && (u <=? 57343))%N.

Fixpoint utf8_chunks (s : JSString) : list (list byte) :=
  match s with
  | [] => []
  | u :: rest =>
      if is_high_surrogate u then
        match rest with
        | v :: rest' =>
            if is_low_surrogate v then
              utf8_of_code_point
                (65536 + (Z.of_N u - 55296) * 1024 + (Z.of_N v - 56320))
              :: utf8_chunks rest'
            else utf8_of_code_point 65533 :: utf8_chunks rest
        | [] => [utf8_of_code_point 65533]
        end
      else if is_low_surrogate u then
        utf8_of_code_point 65533 :: utf8_chunks rest
      else utf8_of_code_point (Z.of_N u) :: utf8_chunks rest
  end.

(** The bytes [utf8Write] stores in [room] bytes: whole characters only. *)
Fixpoint fit_chunks (chunks : list (list byte)) (room : nat) : list byte :=
  match chunks with
  | [] => []
  | c :: rest =>
      if (length c <=? room)%nat
      then c ++ fit_chunks rest (room - length c)
      else []
  end.

(** Stores [bytes] from [offset] on, one element at a time. *)
Fixpoint set_bytes (buf : t) (offset : Z) (bytes : list byte) : t :=
  match bytes with
  | [] => buf
  | b :: rest => set_bytes (set buf offset (Z_of_byte b)) (offset + 1) rest
  end.

(** [buf.write(string, offset)], in UTF-8. *)
Definition write (buf : t) (string : JSString) (offset : Z) : result t :=
  if (offset <? 0) || (Z.of_nat (length buf) <? offset) then Throw RangeError
  else
    let remaining := (length buf - Z.to_nat offset)%nat in
    Ok (set_bytes buf offset (fit_chunks (utf8_chunks string) remaining)).

(** [source.copy(target, targetStart)]: the whole source, cut to the room
    left in the target. *)
Definition copy (source target : t) (targetStart : Z) : result t :=
  if targetStart <? 0 then Throw RangeError
  else if (Z.of_nat (length target) <=? targetStart)
          || (Z.of_nat (length source) <=? 0)
  then Ok target
  else
    let start := Z.to_nat targetStart in
    let nb := Nat.min (length source) (length target - start) in
    Ok (take start target ++ take nb source ++ drop (start + nb)%nat target).

(** Decoders of little-endian unsigned fields, to state what the header
    holds. *)
Definition le_uint (bytes : list byte) : Z :=
  foldr (fun b acc => Z_of_byte b + 256 * acc) 0 bytes.

Definition readUInt32LE (buf : t) (offset : nat) : Z :=
  le_uint (take 4 (drop offset buf)).

Definition readUInt16LE (buf : t) (offset : nat) : Z :=
  le_uint (take 2 (drop offset buf)).


End Buffer.

(** ASCII and UTF-8 literals as JavaScript strings: the code units of the
    text a Rocq string literal holds in UTF-8. *)
Module Lit.

Definition cont (b : byte) : Z := Z.land (Buffer.Z_of_byte b) 63.

Definition units_of_code_point (c : Z) : JSString :=
  if c <? 65536 then [Z.to_N c]
  else [Z.to_N (55296 + Z.shiftr (c - 65536) 10);
        Z.to_N (56320 + Z.land (c - 65536) 1023)].

Fixpoint decode (fuel : nat) (bs : list byte) : JSString :=
  match fuel with
  | O => []
  | S fuel =>
      match bs with
      | [] => []
      | b :: rest =>
          let v := Buffer.Z_of_byte b in
          if v <? 128 then Z.to_N v :: decode fuel rest
          else if v <? 224 then
            match rest with
            | b1 :: rest =>
                units_of_code_point (Z.land v 31 * 64 + cont b1)
                ++ decode fuel rest
            | _ => []
            end
          else if v <? 240 then
            match rest with
            | b1 :: b2 :: rest =>
                units_of_code_point
                  (Z.land v 15 * 4096 + cont b1 * 64 + cont b2)
                ++ decode fuel rest
            | _ => []
            end
          else
            match rest with
            | b1 :: b2 :: b3 :: rest =>
                units_of_code_point
                  (Z.land v 7 * 262144 + cont b1 * 4096
                   + cont b2 * 64 + cont b3)
                ++ decode fuel rest
            | _ => []
            end
      end
  end.

Definition js (s : string) : JSString :=
  let bs := list_byte_of_string s in decode (length bs) bs.

End Lit.
Import Lit.

(** ** The PCM-to-WAV encoder *)

(** The options object of [pcm16ToWavBuffer]; an absent property takes its
    default. *)
Record Options : Type := { sampleRate : option Z; numChannels : option Z }.

Section Encoder.

(** [buffer.constants.MAX_LENGTH] of the platform. *)
Variable kMaxLength : Z.

(** api/todo-from-speech.js and api/pocket-ai.js, lines 16-48 (the two
    files hold the same text). *)
Definition pcm16ToWavBuffer (pcmBuffer : Buffer.t) (options : Options)
  : result Buffer.t :=
  let sampleRate := default 16000 (sampleRate options) in
  let numChannels := default 1 (numChannels options) in
  let bitsPerSample := 16 in
  let byteRate := (sampleRate * numChannels * bitsPerSample) / 8 in
  let blockAlign := (numChannels * bitsPerSample) / 8 in
  let wavHeaderSize := 44 in
  let dataSize := Z.of_nat (length pcmBuffer) in
  buffer ← Buffer.alloc kMaxLength (wavHeaderSize + dataSize);
  buffer ← Buffer.write buffer (js "RIFF") 0;
  buffer ← Buffer.writeUInt32LE buffer (36 + dataSize) 4;
  buffer ← Buffer.write buffer (js "WAVE") 8;
  buffer ← Buffer.write buffer (js "fmt ") 12;
  buffer ← Buffer.writeUInt32LE buffer 16 16;
  buffer ← Buffer.writeUInt16LE buffer 1 20;
  buffer ← Buffer.writeUInt16LE buffer numChannels 22;
  buffer ← Buffer.writeUInt32LE buffer sampleRate 24;
  buffer ← Buffer.writeUInt32LE buffer byteRate 28;
  buffer ← Buffer.writeUInt16LE buffer blockAlign 32;
  buffer ← Buffer.writeUInt16LE buffer bitsPerSample 34;
  buffer ← Buffer.write buffer (js "data") 36;
  buffer ← Buffer.writeUInt32LE buffer dataSize 40;
  buffer ← Buffer.copy pcmBuffer buffer wavHeaderSize;
  Ok buffer.

(** The earlier revision of the handler (one channel, a running offset). *)
Definition pcm16ToWav (pcmBuffer : Buffer.t) (sampleRate : Z)
  : result Buffer.t :=
  let numChannels := 1 in
  let bitsPerSample := 16 in
  let byteRate := (sampleRate * numChannels * bitsPerSample) / 8 in
  let blockAlign := (numChannels * bitsPerSample) / 8 in
  let dataSize := Z.of_nat (length pcmBuffer) in
  buffer ← Buffer.alloc kMaxLength (44 + dataSize);
  let offset := 0 in
  buffer ← Buffer.write buffer (js "RIFF") offset; let offset := offset + 4 in
  buffer ← Buffer.writeUInt32LE buffer (36 + dataSize) offset; let offset := offset + 4 in
  buffer ← Buffer.write buffer (js "WAVE") offset; let offset := offset + 4 in
  buffer ← Buffer.write buffer (js "fmt ") offset; let offset := offset + 4 in
  buffer ← Buffer.writeUInt32LE buffer 16 offset; let offset := offset + 4 in
  buffer ← Buffer.writeUInt16LE buffer 1 offset; let offset := offset + 2 in
  buffer ← Buffer.writeUInt16LE buffer numChannels offset; let offset := offset + 2 in
  buffer ← Buffer.writeUInt32LE buffer sampleRate offset; let offset := offset + 4 in
  buffer ← Buffer.writeUInt32LE buffer byteRate offset; let offset := offset + 4 in
  buffer ← Buffer.writeUInt16LE buffer blockAlign offset; let offset := offset + 2 in
  buffer ← Buffer.writeUInt16LE buffer bitsPerSample offset; let offset := offset + 2 in
  buffer ← Buffer.write buffer (js "data") offset; let offset := offset + 4 in
  buffer ← Buffer.writeUInt32LE buffer dataSize offset; let offset := offset + 4 in
  buffer ← Buffer.copy pcmBuffer buffer offset;
  Ok buffer.

End Encoder.

(** The header as the table of the format lays it out, for a payload of
    [dataSize] bytes: the bytes [writeUInt32LE] and [writeUInt16LE] store,
    and the forty-four bytes in order. *)
Definition u32le (v : Z) : list byte :=
  [Buffer.byte_of_Z v;
   Buffer.byte_of_Z (Buffer.ushr8 v);
   Buffer.byte_of_Z (Buffer.ushr8 (Buffer.ushr8 v));
   Buffer.byte_of_Z (Buffer.ushr8 (Buffer.ushr8 (Buffer.ushr8 v)))].

Definition u16le (v : Z) : list byte :=
  [Buffer.byte_of_Z v; Buffer.byte_of_Z (Buffer.ushr8 v)].

Definition wavHeader (dataSize sampleRate numChannels : Z) : list byte :=
  list_byte_of_string "RIFF" ++ u32le (36 + dataSize)
  ++ list_byte_of_string "WAVE"
  ++ list_byte_of_string "fmt " ++ u32le 16 ++ u16le 1
  ++ u16le numChannels ++ u32le sampleRate
  ++ u32le (sampleRate * numChannels * 2) ++ u16le (numChannels * 2)
  ++ u16le 16
  ++ list_byte_of_string "data" ++ u32le dataSize.

(** The sizes, rate and channel count that the buffer and the fields of the
    header can hold. *)
Definition encodable (kMaxLength dataSize sampleRate numChannels : Z) : bool :=
  (44 + dataSize <=? kMaxLength) && (36 + dataSize <=? 4294967295)
  && (0 <=? numChannels) && (numChannels <=? 65535)
  && (0 <=? sampleRate) && (sampleRate <=? 4294967295)
  && (sampleRate * numChannels * 2 <=? 4294967295)
  && (numChannels * 2 <=? 65535).

(** ** JavaScript values of the JSON kind *)

Set Warnings "-register-all".

(** [JSObject] lists the own properties, each key once, in creation order. *)
Inductive JSValue : Type :=
| JSUndefined
| JSNull
| JSBool (b : bool)
| JSNumber (x : float)
| JSStr (s : JSString)
| JSArray (elems : list JSValue)
| JSObject (props : list (JSString * JSValue)).

Module JS.

(** [ToBoolean] *)
Definition truthy (v : JSValue) : bool :=
  match v with
  | JSUndefined | JSNull => false
  | JSBool b => b
  | JSNumber x => negb (PrimFloat.is_zero x || PrimFloat.is_nan x)
  | JSStr s => negb (bool_decide (s = []))
  | JSArray _ | JSObject _ => true
  end.

(** [v === undefined || v === null] *)
Definition nullish (v : JSValue) : bool :=
  match v with
  | JSUndefined | JSNull => true
  | _ => false
  end.

Fixpoint own (props : list (JSString * JSValue)) (key : JSString)
  : option JSValue :=
  match props with
  | [] => None
  | (k, v) :: rest => if bool_decide (k = key) then Some v else own rest key
  end.

(** [v.name] for the property names this program reads: [DisplayText],
    [Text], [choices], [message], [messages], [content], [is_todo],
    [title], [when], [notes], [mode], [audioBase64], [audio] and
    [sessionId].  No built-in prototype defines one of them, so a lookup
    that misses the own properties, or is made on a primitive or an array,
    is [undefined]; on [null] and [undefined] it is a [TypeError]. *)
Definition getProp (v : JSValue) (name : string) : result JSValue :=
  match v with
  | JSUndefined | JSNull => Throw TypeError
  | JSObject props => Ok (default JSUndefined (own props (js name)))
  | _ => Ok JSUndefined
  end.

(** [v[i]] for an index [i]. *)
Definition getIndex (v : JSValue) (i : nat) : result JSValue :=
  match v with
  | JSUndefined | JSNull => Throw TypeError
  | JSArray elems => Ok (default JSUndefined (elems !! i))
  | JSStr s => Ok (from_option (fun u => JSStr [u]) JSUndefined (s !! i))
  | JSObject props =>
      Ok (default JSUndefined
            (own props (js (NilZero.string_of_uint (Nat.to_uint i)))))
  | _ => Ok JSUndefined
  end.

(** [v?.name], [v?.[i]]: [undefined] on a nullish [v]. *)
Definition optProp (v : JSValue) (name : string) : result JSValue :=
  if nullish v then Ok JSUndefined else getProp v name.

Definition optIndex (v : JSValue) (i : nat) : result JSValue :=
  if nullish v then Ok JSUndefined else getIndex v i.

(** [a || b]: [b] is evaluated only when [a] is falsy. *)
Definition or (a b : result JSValue) : result JSValue :=
  x ← a; if truthy x then Ok x else b.

(** [a ?? b] *)
Definition coalesce (a b : result JSValue) : result JSValue :=
  x ← a; if nullish x then b else Ok x.

(** White space and line terminators, as [String.prototype.trim] strips
    them. *)
Definition is_space (u : N) : bool :=
  ((9 <=? u) && (u <=? 13) || (u =? 32) || (u =? 160) || (u =? 5760)
   || (8192 <=? u) && (u <=? 8202) || (u =? 8232) || (u =? 8233)
   || (u =? 8239) || (u =? 8287) || (u =? 12288) || (u =? 65279))%N.

Fixpoint trimStart (s : JSString) : JSString :=
  match s with
  | u :: rest => if is_space u then trimStart rest else s
  | [] => []
  end.

Definition trim (s : JSString) : JSString :=
  reverse (trimStart (reverse (trimStart s))).

(** [v.trim()]: only a string has the method. *)
Definition callTrim (v : JSValue) : result JSValue :=
  match v with
  | JSStr s => Ok (JSStr (trim s))
  | _ => Throw TypeError
  end.

(** [v?.trim()] *)
Definition optTrim (v : JSValue) : result JSValue :=
  if nullish v then Ok JSUndefined else callTrim v.

Fixpoint startsWith (s prefix : JSString) : bool :=
  match prefix, s with
  | [], _ => true
  | p :: prefix', u :: s' => (p =? u)%N && startsWith s' prefix'
  | _ :: _, [] => false
  end.

(** [s.indexOf(pattern)] and [s.lastIndexOf(pattern)], [-1] when absent. *)
Fixpoint indexOf_from (s pattern : JSString) (i : Z) : Z :=
  if startsWith s pattern then i
  else match s with
       | [] => -1
       | _ :: s' => indexOf_from s' pattern (i + 1)
       end.

Definition indexOf (s pattern : JSString) : Z := indexOf_from s pattern 0.

Fixpoint lastIndexOf_from (s pattern : JSString) (i last : Z) : Z :=
  let last := if startsWith s pattern then i else last in
  match s with
  | [] => last
  | _ :: s' => lastIndexOf_from s' pattern (i + 1) last
  end.

Definition lastIndexOf (s pattern : JSString) : Z :=
  lastIndexOf_from s pattern 0 (-1).

(** [s.substring(start, end)]: both clamped to the string, swapped when
    out of order. *)
Definition substring (s : JSString) (start end_ : Z) : JSString :=
  let len := Z.of_nat (length s) in
  let a := Z.min (Z.max start 0) len in
  let b := Z.min (Z.max end_ 0) len in
  let lo := Z.min a b in
  let hi := Z.max a b in
  take (Z.to_nat (hi - lo)) (drop (Z.to_nat lo) s).

(** [s.slice(0, n)] *)
Definition slice0 (s : JSString) (n : nat) : JSString := take n s.

(** [s.replace(/\/$/, '')]: one trailing slash removed. *)
Definition stripTrailingSlash (s : JSString) : JSString :=
  match reverse s with
  | 47%N :: rest => reverse rest
  | _ => s
  end.

(** [s.replace(/c/g, by)] for a single code unit [c]. *)
Definition replaceAll (s : JSString) (c : N) (by_ : JSString) : JSString :=
  flat_map (fun u => if (u =? c)%N then by_ else [u]) s.

(** Decimal text of an integer, as a template literal prints a status. *)
Definition decimal (z : Z) : JSString :=
  js (NilZero.string_of_int (Z.to_int z)).

End JS.

(** ** The platform and the outside world *)

(** Built-in functions of the runtime that the handlers call and that are
    taken as given: the size limit of a buffer, [Buffer.from(s, 'base64')],
    [JSON.parse], the text of a number, [encodeURIComponent], and the
    message the engine words for a built-in error. *)
Record Platform : Type := {
  kMaxLength : Z;
  Buffer_from_base64 : JSString -> list byte;
  JSON_parse : JSString -> result JSValue;
  Number_toString : float -> JSString;
  encodeURIComponent : JSString -> result JSString;
  engine_message : JSError -> JSString
}.

(** [process.env]: a variable is a string or [undefined]. *)
Record Env : Type := {
  AZURE_SPEECH_KEY : option JSString;
  AZURE_SPEECH_REGION : option JSString;
  AZURE_OPENAI_KEY : option JSString;
  AZURE_OPENAI_ENDPOINT : option JSString;
  AZURE_OPENAI_DEPLOYMENT : option JSString;
  AZURE_OPENAI_API_VERSION : option JSString;
  NOTION_API_KEY : option JSString;
  NOTION_DATABASE_ID : option JSString;
  NODE_ENV : option JSString
}.

(** The body handed to [fetch]; [BodyJSON v] is [JSON.stringify(v)]. *)
Inductive RequestBody : Type :=
| BodyBytes (bytes : list byte)
| BodyText (text : JSString)
| BodyJSON (v : JSValue).

Record Request : Type := {
  url : JSString;
  method : JSString;
  headers : list (JSString * JSString);
  body : RequestBody
}.

(** What a resolved [fetch] gives: [res.ok], [res.status],
    [res.statusText], and the outcome of reading the body as [res.text()],
    [res.json()] or [res.arrayBuffer()]. *)
Record Response : Type := {
  ok : bool;
  status : Z;
  statusText : JSString;
  text : result JSString;
  json : result JSValue;
  arrayBuffer : result (list byte)
}.

(** The services behind [fetch] (a rejected promise is a [Throw]) and the
    environment of the process. *)
Record World : Type := {
  env : Env;
  fetch : Request -> result Response
}.

(** What the handler sends back: [res.status(s).json(body)] or
    [res.status(s).send(buffer)]. *)
Inductive HttpResponse : Type :=
| JsonResponse (status : Z) (body : JSValue)
| SendResponse (status : Z) (body : list byte).

(** The effects of a handler, in the order they happen.  Of a console call
    the first argument is kept. *)
Inductive Event : Type :=
| Fetch (request : Request)
| ConsoleWarn (label : JSString)
| ConsoleError (label : JSString)
| SetHeader (name value : JSString)
| Respond (response : HttpResponse).

(** An asynchronous computation: the events it caused, and its value or the
    exception it ended with. *)
Definition IO (A : Type) : Type := list Event * result A.

#[global] Instance IO_ret : MRet IO := fun A a => ([], Ok a).
#[global] Instance IO_bind : MBind IO := fun A B f m =>
  match m with
  | (events, Ok a) => let '(events', r) := f a in (events ++ events', r)
  | (events, Throw e) => (events, Throw e)
  end.

Module Eff.

Definition throw {A : Type} (e : JSError) : IO A := ([], Throw e).

(** A computation without effects, such as a property read that may throw. *)
Definition pure {A : Type} (r : result A) : IO A := ([], r).

Definition emit (e : Event) : IO unit := ([e], Ok tt).

Definition try_catch {A : Type} (m : IO A) (handler : JSError -> IO A)
  : IO A :=
  match m with
  | (events, Ok a) => (events, Ok a)
  | (events, Throw e) =>
      let '(events', r) := handler e in (events ++ events', r)
  end.

(** The computation [m], begun after [events] have happened. *)
Definition after {A : Type} (events : list Event) (m : IO A) : IO A :=
  (events ++ m.1, m.2).

(** [await fetch(url, init)] *)
Definition fetch_ (W : World) (request : Request) : IO Response :=
  ([Fetch request], fetch W request).

(** [await res.text().catch(() => '')] *)
Definition text_or_empty (res : Response) : JSString :=
  match text res with
  | Ok t => t
  | Throw _ => []
  end.

(** [!v] for an environment variable. *)
Definition missing (v : option JSString) : bool :=
  match v with
  | Some (_ :: _) => false
  | _ => true
  end.

(** An environment variable inside a template literal. *)
Definition tmpl (v : option JSString) : JSString :=
  default (js "undefined") v.

End Eff.

(** An incoming request: [req.method] and [req.body]. *)
Record HttpRequest : Type := {
  req_method : JSString;
  req_body : JSValue
}.

Section Runtime.

Variable P : Platform.

(** [ToString], as a template literal applies it.  An object prints through
    [Object.prototype.toString] unless an own [toString] property, which in
    a JSON value is never callable, hides it; an array joins its
    elements. *)
Fixpoint ToString (v : JSValue) : result JSString :=
  match v with
  | JSUndefined => Ok (js "undefined")
  | JSNull => Ok (js "null")
  | JSBool b => Ok (if b then js "true" else js "false")
  | JSNumber x => Ok (Number_toString P x)
  | JSStr s => Ok s
  | JSArray elems =>
      (fix join (l : list JSValue) : result JSString :=
         match l with
         | [] => Ok []
         | e :: rest =>
             s ← (if JS.nullish e then Ok [] else ToString e);
             match rest with
             | [] => Ok s
             | _ :: _ => r ← join rest; Ok (s ++ js "," ++ r)
             end
         end) elems
  | JSObject props =>
      match JS.own props (js "toString") with
      | Some _ => Throw TypeError
      | None => Ok (js "[object Object]")
      end
  end.

(** [String(err?.message || err)] *)
Definition error_text (e : JSError) : JSString :=
  match e with
  | Error (_ :: _ as message) => message
  | Error [] => js "Error"
  | _ => engine_message P e
  end.

End Runtime.

(** ** api/todo-from-speech.js *)

Module TodoFromSpeech.
Import JS Eff.

(** The double quote, for the literals that hold one. *)
Definition dq : JSString := [34%N].

(** The object the analyzer answers with when there is no task. *)
Definition not_a_task : JSValue :=
  JSObject [(js "is_todo", JSBool false); (js "title", JSNull);
            (js "when", JSNull); (js "notes", JSNull)].

Definition systemPrompt : JSString :=
  js "あなたは日本語の会話からTODOを抽出するアシスタントです。"
  ++ js "入力は1フレーズ〜数フレーズの口語文です。"
  ++ js "「〜を買いたい」「〜に行く」「〜をやる」など、明らかにユーザーの行動を示す内容だけをTODOとして扱ってください。"
  ++ js "雑談や感想だけの場合はTODOにはしません。"
  ++ js "出力は必ず次のJSONだけにしてください。"
  ++ (js "{" ++ dq ++ js "is_todo" ++ dq ++ js ": boolean, "
      ++ dq ++ js "title" ++ dq ++ js ": string | null, "
      ++ dq ++ js "when" ++ dq ++ js ": string | null, "
      ++ dq ++ js "notes" ++ dq ++ js ": string | null} ")
  ++ (js "title にはTODOとして短く要約した行動（例: " ++ dq ++ js "玉ねぎを買う"
      ++ dq ++ js "）を入れ、when には「今日中」「明日」「来週末」などを入れてください。")
  ++ js "notes には元の発話の内容や補足を簡潔に入れてください。".

(** A paragraph block of the Notion page. *)
Definition paragraph (content : JSString) : JSValue :=
  JSObject
    [(js "object", JSStr (js "block"));
     (js "type", JSStr (js "paragraph"));
     (js "paragraph",
      JSObject
        [(js "rich_text",
          JSArray
            [JSObject
               [(js "type", JSStr (js "text"));
                (js "text", JSObject [(js "content", JSStr content)])]])])].

Section Handler.

Variable P : Platform.
Variable W : World.

(** The request of [callAzureSpeechToText]: the [url] and the second
    argument of its [fetch]. *)
Definition speechToTextRequest (wavBuffer : list byte) : Request :=
  let speechKey := AZURE_SPEECH_KEY (env W) in
  let speechRegion := AZURE_SPEECH_REGION (env W) in
  let url :=
    js "https://" ++ tmpl speechRegion
    ++ js ".stt.speech.microsoft.com/speech/recognition/conversation/cognitiveservices/v1?language=ja-JP" in
  {| url := url;
     method := js "POST";
     headers :=
       [(js "Ocp-Apim-Subscription-Key", tmpl speechKey);
        (js "Content-Type", js "audio/wav; codecs=audio/pcm; samplerate=16000");
        (js "Accept", js "application/json")];
     body := BodyBytes wavBuffer |}.

(** Lines 50-78. *)
Definition callAzureSpeechToText (wavBuffer : list byte) : IO JSString :=
  let speechKey := AZURE_SPEECH_KEY (env W) in
  let speechRegion := AZURE_SPEECH_REGION (env W) in
  if missing speechKey || missing speechRegion then
    throw (Error (js "AZURE_SPEECH_KEY / AZURE_SPEECH_REGION が設定されていません。"))
  else
    res ← fetch_ W (speechToTextRequest wavBuffer);
    if negb (ok res) then
      let text := text_or_empty res in
      throw (Error (js "Azure Speech STT でエラーが発生しました: "
                    ++ decimal (status res) ++ js " " ++ statusText res
                    ++ js " " ++ text))
    else
      data ← pure (json res);
      recognizedText ← pure
        (JS.or (getProp data "DisplayText")
           (JS.or (getProp data "Text") (Ok (JSStr []))));
      trimmed ← pure (callTrim recognizedText);
      match trimmed with
      | JSStr s => mret s
      | _ => throw TypeError
      end.

(** The reply text: [data.choices?.[0]?.message?.content?.trim() ||
    data.choices?.[0]?.messages?.[0]?.content?.trim() || ''].  It is a
    string whenever it is a value. *)
Definition reply_content (data : JSValue) : result JSValue :=
  JS.or
    (choices ← getProp data "choices";
     first ← optIndex choices 0;
     message ← optProp first "message";
     content ← optProp message "content";
     optTrim content)
    (JS.or
       (choices ← getProp data "choices";
        first ← optIndex choices 0;
        messages ← optProp first "messages";
        message ← optIndex messages 0;
        content ← optProp message "content";
        optTrim content)
       (Ok (JSStr []))).

(** Lines 136-143: the body of a fenced block, when the reply is one. *)
Definition strip_fence (content : JSString) : JSString :=
  if startsWith content (js "```") then
    let firstNewline := indexOf content [10%N] in
    let lastFence := lastIndexOf content (js "```") in
    if (firstNewline >=? 0) && (lastFence >? firstNewline) then
      trim (substring content (firstNewline + 1) lastFence)
    else content
  else content.

(** The request of [callAzureOpenAITodoAnalyzer] (lines 81-119; 0.2 is the
    double written below). *)
Definition todoAnalyzerRequest (text : JSString) : Request :=
  let openaiKey := AZURE_OPENAI_KEY (env W) in
  let openaiEndpoint := AZURE_OPENAI_ENDPOINT (env W) in
  let openaiDeployment := AZURE_OPENAI_DEPLOYMENT (env W) in
  let apiVersion :=
    if missing (AZURE_OPENAI_API_VERSION (env W)) then js "2024-02-15-preview"
    else tmpl (AZURE_OPENAI_API_VERSION (env W)) in
  let endpoint := stripTrailingSlash (tmpl openaiEndpoint) in
  let url :=
    endpoint ++ js "/openai/deployments/" ++ tmpl openaiDeployment
    ++ js "/chat/completions?api-version=" ++ apiVersion in
  let body :=
    JSObject
      [(js "messages",
        JSArray
          [JSObject [(js "role", JSStr (js "system"));
                     (js "content", JSStr systemPrompt)];
           JSObject [(js "role", JSStr (js "user"));
                     (js "content", JSStr text)]]);
       (js "max_tokens", JSNumber 256);
       (js "temperature", JSNumber 0x1.999999999999ap-3)] in
  {| url := url;
     method := js "POST";
     headers := [(js "api-key", tmpl openaiKey);
                 (js "Content-Type", js "application/json")];
     body := BodyJSON body |}.

(** Lines 80-164. *)
Definition callAzureOpenAITodoAnalyzer (text : JSString) : IO JSValue :=
  let openaiKey := AZURE_OPENAI_KEY (env W) in
  let openaiEndpoint := AZURE_OPENAI_ENDPOINT (env W) in
  let openaiDeployment := AZURE_OPENAI_DEPLOYMENT (env W) in
  if missing openaiKey || missing openaiEndpoint || missing openaiDeployment
  then
    throw (Error (js "AZURE_OPENAI_KEY / AZURE_OPENAI_ENDPOINT / AZURE_OPENAI_DEPLOYMENT が設定されていません。"))
  else
    res ← fetch_ W (todoAnalyzerRequest text);
    if negb (ok res) then
      let t := text_or_empty res in
      throw (Error (js "Azure OpenAI TODO 解析でエラーが発生しました: "
                    ++ decimal (status res) ++ js " " ++ statusText res
                    ++ js " " ++ t))
    else
      data ← pure (json res);
      content ← pure (reply_content data);
      if negb (truthy content) then
        throw (Error (js "Azure OpenAI からのTODO解析結果が空でした。"))
      else
        match content with
        | JSStr content =>
            let content := strip_fence content in
            match JSON_parse P content with
            | Throw _ => mret not_a_task
            | Ok parsed =>
                is_todo ← pure (getProp parsed "is_todo");
                title ← pure (coalesce (getProp parsed "title") (Ok JSNull));
                when ← pure (coalesce (getProp parsed "when") (Ok JSNull));
                notes ← pure (coalesce (getProp parsed "notes") (Ok JSNull));
                mret (JSObject [(js "is_todo", JSBool (truthy is_todo));
                                (js "title", title);
                                (js "when", when);
                                (js "notes", notes)])
            end
        | _ => throw TypeError
        end.

(** The page that [postTodoToNotion] sends (lines 175-199 and 246-258),
    given the blocks of lines 201-243. *)
Definition notionRequest
  (title when : JSValue) (sourceText : JSString) (children : list JSValue)
  : Request :=
  let notionKey := NOTION_API_KEY (env W) in
  let databaseId := NOTION_DATABASE_ID (env W) in
  let url := js "https://api.notion.com/v1/pages" in
  let title_content :=
    if truthy title then title
    else if truthy (JSStr (slice0 sourceText 50))
         then JSStr (slice0 sourceText 50)
         else JSStr (js "Speech TODO") in
  let Title :=
    (js "Title",
     JSObject
       [(js "title",
         JSArray
           [JSObject
              [(js "text", JSObject [(js "content", title_content)])]])])
  in
  let properties :=
    if truthy when then
      JSObject
        [Title;
         (js "When",
          JSObject
            [(js "rich_text",
              JSArray
                [JSObject
                   [(js "text", JSObject [(js "content", when)])]])])]
    else JSObject [Title] in
  {| url := url;
     method := js "POST";
     headers :=
       [(js "Authorization", js "Bearer " ++ tmpl notionKey);
        (js "Content-Type", js "application/json");
        (js "Notion-Version", js "2022-06-28")];
     body :=
       BodyJSON
         (JSObject
            [(js "parent",
              JSObject [(js "database_id", JSStr (tmpl databaseId))]);
             (js "properties", properties);
             (js "children", JSArray children)]) |}.

(** Lines 201-243: the blocks of the page.  A template literal applies
    [ToString] to [notes] and to [sessionId], which can throw. *)
Definition notionChildren
  (notes : JSValue) (sourceText : JSString) (sessionId : JSValue)
  : result (list JSValue) :=
  children ←
    (if truthy notes
     then s ← ToString P notes; Ok [paragraph (js "Notes: " ++ s)]
     else Ok []);
  let children :=
    if truthy (JSStr sourceText)
    then children ++ [paragraph (js "Source: " ++ sourceText)]
    else children in
  if truthy sessionId
  then s ← ToString P sessionId;
       Ok (children ++ [paragraph (js "Session: " ++ s)])
  else Ok children.

Definition notion_warning : JSString :=
  js "[todo-from-speech] NOTION_API_KEY / NOTION_DATABASE_ID が設定されていないため、Notion には保存しません。".

(** Lines 166-271.  The handler passes the recognized text, a string, as
    [sourceText]. *)
Definition postTodoToNotion
  (title when notes : JSValue) (sourceText : JSString) (sessionId : JSValue)
  : IO bool :=
  let notionKey := NOTION_API_KEY (env W) in
  let databaseId := NOTION_DATABASE_ID (env W) in
  if missing notionKey || missing databaseId then
    _ ← emit (ConsoleWarn notion_warning);
    mret false
  else
    children ← pure (notionChildren notes sourceText sessionId);
    try_catch
      (res ← fetch_ W (notionRequest title when sourceText children);
       if negb (ok res) then
         let text := text_or_empty res in
         _ ← emit (ConsoleError (js "[todo-from-speech] Notion API error:"));
         mret false
       else mret true)
      (fun e =>
         _ ← emit (ConsoleError
                     (js "[todo-from-speech] Notion API request failed:"));
         mret false).

(** [v === 'name'] and [typeof v === 'string'] *)
Definition is_string_eq (v : JSValue) (s : JSString) : bool :=
  match v with
  | JSStr s' => bool_decide (s' = s)
  | _ => false
  end.

Definition is_string (v : JSValue) : bool :=
  match v with
  | JSStr _ => true
  | _ => false
  end.

(** Lines 273-341, [module.exports]. *)
Definition handler (req : HttpRequest) : IO unit :=
  if negb (bool_decide (req_method req = js "POST")) then
    emit (Respond
            (JsonResponse 405
               (JSObject
                  [(js "error", JSStr (js "Method Not Allowed. Use POST."))])))
  else
    try_catch
      (body ← pure
         match req_body req with
         | JSStr s =>
             JSON_parse P (if truthy (JSStr s) then s else js "{}")
         | b => Ok (if truthy b then b else JSObject [])
         end;
       mode ← pure (JS.or (getProp body "mode") (Ok (JSStr (js "utterance"))));
       if negb (is_string_eq mode (js "utterance")) then
         emit (Respond
                 (JsonResponse 400
                    (JSObject [(js "error", JSStr (js "Unsupported mode"));
                               (js "mode", mode)])))
       else
         base64 ← pure
           (JS.or (getProp body "audioBase64")
              (JS.or (getProp body "audio") (Ok (JSStr []))));
         if negb (truthy base64) || negb (is_string base64) then
           emit (Respond
                   (JsonResponse 400
                      (JSObject
                         [(js "error",
                           JSStr (js "audioBase64 (Base64 PCM) が指定されていません。"))])))
         else
           sessionId ← pure (JS.or (getProp body "sessionId") (Ok JSNull));
           pcmBuffer ← pure
             match base64 with
             | JSStr s => Ok (Buffer_from_base64 P s)
             | _ => Throw TypeError
             end;
           wavBuffer ← pure
             (pcm16ToWavBuffer (kMaxLength P) pcmBuffer
                {| sampleRate := Some 16000; numChannels := Some 1 |});
           recognizedText ← callAzureSpeechToText wavBuffer;
           let todo :=
             JSObject [(js "is_todo", JSBool false); (js "title", JSNull);
                       (js "when", JSNull); (js "notes", JSNull)] in
           let notionPosted := false in
           '(todo, notionPosted) ←
             (if truthy (JSStr recognizedText) then
                todo ← callAzureOpenAITodoAnalyzer recognizedText;
                is_todo ← pure (getProp todo "is_todo");
                if truthy is_todo then
                  title ← pure (getProp todo "title");
                  when ← pure (getProp todo "when");
                  notes ← pure (getProp todo "notes");
                  notionPosted ←
                    postTodoToNotion title when notes recognizedText sessionId;
                  mret (todo, notionPosted)
                else mret (todo, notionPosted)
              else mret (todo, notionPosted));
           todoTitle ← pure (getProp todo "title");
           todoWhen ← pure (getProp todo "when");
           todoNotes ← pure (getProp todo "notes");
           emit (Respond
                   (JsonResponse 200
                      (JSObject
                         [(js "recognizedText", JSStr recognizedText);
                          (js "todoTitle", todoTitle);
                          (js "todoWhen", todoWhen);
                          (js "todoNotes", todoNotes);
                          (js "notionPosted", JSBool notionPosted)]))))
      (fun err =>
         _ ← emit (ConsoleError (js "[todo-from-speech] Error:"));
         emit (Respond
                 (JsonResponse 500
                    (JSObject
                       [(js "error", JSStr (js "Internal Server Error"));
                        (js "message",
                         if bool_decide
                              (NODE_ENV (env W) = Some (js "production"))
                         then JSUndefined
                         else JSStr (error_text P err))])))).

(** *** The runs of the handler

    What the handler answers at the end of a request, and the shapes its
    sequence of events can take. *)

(** The 200 response of lines 327-333. *)
Definition summary (recognizedText : JSString) (title when notes : JSValue)
  (notionPosted : bool) : HttpResponse :=
  JsonResponse 200
    (JSObject [(js "recognizedText", JSStr recognizedText);
               (js "todoTitle", title);
               (js "todoWhen", when);
               (js "todoNotes", notes);
               (js "notionPosted", JSBool notionPosted)]).

(** The events of the [catch] block of lines 334-340. *)
Definition failure (err : JSError) : list Event :=
  [ConsoleError (js "[todo-from-speech] Error:");
   Respond
     (JsonResponse 500
        (JSObject
           [(js "error", JSStr (js "Internal Server Error"));
            (js "message",
             if bool_decide (NODE_ENV (env W) = Some (js "production"))
             then JSUndefined
             else JSStr (error_text P err))]))].

(** The object of lines 158-163. *)
Definition todo_object (is_todo : bool) (title when notes : JSValue)
  : JSValue :=
  JSObject [(js "is_todo", JSBool is_todo); (js "title", title);
            (js "when", when); (js "notes", notes)].

(** The error of line 133. *)
Definition empty_reply_error : JSError :=
  Error (js "Azure OpenAI からのTODO解析結果が空でした。").

(** Whether a [fetch] ended with a response whose [ok] is true. *)
Definition posted (outcome : result Response) : bool :=
  match outcome with
  | Ok res => ok res
  | Throw _ => false
  end.

Inductive run (req : HttpRequest) : list Event -> Prop :=
| run_rejected status body :
    status <> 200 -> run req [Respond (JsonResponse status body)]
| run_failed_early err : run req (failure err)
| run_speech_failed wav events err :
    callAzureSpeechToText wav = (events, Throw err) ->
    run req (events ++ failure err)
| run_silence wav events :
    callAzureSpeechToText wav = (events, Ok []) ->
    run req (events ++ [Respond (summary [] JSNull JSNull JSNull false)])
| run_analysis_failed wav events text events' err :
    callAzureSpeechToText wav = (events, Ok text) -> text <> [] ->
    callAzureOpenAITodoAnalyzer text = (events', Throw err) ->
    run req (events ++ events' ++ failure err)
| run_not_a_task wav events text events' title when notes :
    callAzureSpeechToText wav = (events, Ok text) -> text <> [] ->
    callAzureOpenAITodoAnalyzer text
    = (events', Ok (todo_object false title when notes)) ->
    run req (events ++ events'
             ++ [Respond (summary text title when notes false)])
| run_notes_failed wav events text events' title when notes
    sessionId events'' err :
    callAzureSpeechToText wav = (events, Ok text) -> text <> [] ->
    callAzureOpenAITodoAnalyzer text
    = (events', Ok (todo_object true title when notes)) ->
    postTodoToNotion title when notes text sessionId
    = (events'', Throw err) ->
    run req (events ++ events' ++ events'' ++ failure err)
| run_task wav events text events' title when notes
    sessionId events'' notionPosted :
    callAzureSpeechToText wav = (events, Ok text) -> text <> [] ->
    callAzureOpenAITodoAnalyzer text
    = (events', Ok (todo_object true title when notes)) ->
    postTodoToNotion title when notes text sessionId
    = (events'', Ok notionPosted) ->
    run req (events ++ events' ++ events''
             ++ [Respond (summary text title when notes notionPosted)]).

End Handler.

End TodoFromSpeech.

(** ** api/pocket-ai.js *)

Module PocketAi.
Import JS Eff.

Definition dq : JSString := [34%N].

(** The text put in place of an empty recognition result (line 91). *)
Definition placeholder : JSString := js "エラーが発生しました。".

(** Lines 50-58. *)
Definition escapeForXml (text : JSString) : JSString :=
  if negb (truthy (JSStr text)) then []
  else
    let text := replaceAll text 38 (js "&amp;") in
    let text := replaceAll text 60 (js "&lt;") in
    let text := replaceAll text 62 (js "&gt;") in
    let text := replaceAll text 34 (js "&quot;") in
    replaceAll text 39 (js "&apos;").

Section Handler.

Variable P : Platform.
Variable W : World.

(** The request of [callAzureSpeechToText]: the [url] and the second
    argument of its [fetch]. *)
Definition speechToTextRequest (wavBuffer : list byte) : Request :=
  let speechKey := AZURE_SPEECH_KEY (env W) in
  let speechRegion := AZURE_SPEECH_REGION (env W) in
  let url :=
    js "https://" ++ tmpl speechRegion
    ++ js ".stt.speech.microsoft.com/speech/recognition/conversation/cognitiveservices/v1?language=ja-JP" in
  {| url := url;
     method := js "POST";
     headers :=
       [(js "Ocp-Apim-Subscription-Key", tmpl speechKey);
        (js "Content-Type", js "audio/wav; codecs=audio/pcm; samplerate=16000");
        (js "Accept", js "application/json")];
     body := BodyBytes wavBuffer |}.

(** Lines 60-95.  The value returned is whatever truthy value the service
    put in [DisplayText] or [Text], or the placeholder. *)
Definition callAzureSpeechToText (wavBuffer : list byte) : IO JSValue :=
  let speechKey := AZURE_SPEECH_KEY (env W) in
  let speechRegion := AZURE_SPEECH_REGION (env W) in
  if missing speechKey || missing speechRegion then
    throw (Error (js "AZURE_SPEECH_KEY / AZURE_SPEECH_REGION が設定されていません。"))
  else
    res ← fetch_ W (speechToTextRequest wavBuffer);
    if negb (ok res) then
      let text := text_or_empty res in
      throw (Error (js "Azure Speech STT でエラーが発生しました: "
                    ++ decimal (status res) ++ js " " ++ statusText res
                    ++ js " " ++ text))
    else
      data ← pure (json res);
      recognizedText ← pure
        (JS.or (getProp data "DisplayText")
           (JS.or (getProp data "Text") (Ok (JSStr []))));
      let recognizedText :=
        if negb (truthy recognizedText) then JSStr placeholder
        else recognizedText in
      mret recognizedText.

(** The request of [callAzureOpenAIChat] (lines 98-132; 0.7 is the double
    written below). *)
Definition chatRequest (promptText : JSValue) : Request :=
  let openaiKey := AZURE_OPENAI_KEY (env W) in
  let openaiEndpoint := AZURE_OPENAI_ENDPOINT (env W) in
  let openaiDeployment := AZURE_OPENAI_DEPLOYMENT (env W) in
  let apiVersion :=
    if missing (AZURE_OPENAI_API_VERSION (env W)) then js "2024-02-15-preview"
    else tmpl (AZURE_OPENAI_API_VERSION (env W)) in
  let endpoint := stripTrailingSlash (tmpl openaiEndpoint) in
  let url :=
    endpoint ++ js "/openai/deployments/" ++ tmpl openaiDeployment
    ++ js "/chat/completions?api-version=" ++ apiVersion in
  let body :=
    JSObject
      [(js "messages",
        JSArray
          [JSObject
             [(js "role", JSStr (js "system"));
              (js "content",
               JSStr (js "あなたは親切な日本語の会話アシスタントです。できるだけ簡潔に、わかりやすく答えてください。"))];
           JSObject [(js "role", JSStr (js "user"));
                     (js "content", promptText)]]);
       (js "max_tokens", JSNumber 256);
       (js "temperature", JSNumber 0x1.6666666666666p-1)] in
  {| url := url;
     method := js "POST";
     headers := [(js "api-key", tmpl openaiKey);
                 (js "Content-Type", js "application/json")];
     body := BodyJSON body |}.

(** Lines 97-150. *)
Definition callAzureOpenAIChat (promptText : JSValue) : IO JSValue :=
  let openaiKey := AZURE_OPENAI_KEY (env W) in
  let openaiEndpoint := AZURE_OPENAI_ENDPOINT (env W) in
  let openaiDeployment := AZURE_OPENAI_DEPLOYMENT (env W) in
  if missing openaiKey || missing openaiEndpoint || missing openaiDeployment
  then
    throw (Error (js "AZURE_OPENAI_KEY / AZURE_OPENAI_ENDPOINT / AZURE_OPENAI_DEPLOYMENT が設定されていません。"))
  else
    res ← fetch_ W (chatRequest promptText);
    if negb (ok res) then
      let text := text_or_empty res in
      throw (Error (js "Azure OpenAI Chat でエラーが発生しました: "
                    ++ decimal (status res) ++ js " " ++ statusText res
                    ++ js " " ++ text))
    else
      data ← pure (json res);
      replyText ← pure (TodoFromSpeech.reply_content data);
      if negb (truthy replyText) then
        throw (Error (js "Azure OpenAI からの返答が取得できませんでした。"))
      else mret replyText.

(** The request of [callAzureSpeechTTS] (lines 153-181). *)
Definition textToSpeechRequest (text : JSString) : Request :=
  let speechKey := AZURE_SPEECH_KEY (env W) in
  let speechRegion := AZURE_SPEECH_REGION (env W) in
  let url :=
    js "https://" ++ tmpl speechRegion
    ++ js ".tts.speech.microsoft.com/cognitiveservices/v1" in
  let ssml :=
    [10%N] ++ js "<speak version=" ++ dq ++ js "1.0" ++ dq
    ++ js " xml:lang=" ++ dq ++ js "ja-JP" ++ dq ++ js ">" ++ [10%N]
    ++ js "  <voice xml:lang=" ++ dq ++ js "ja-JP" ++ dq
    ++ js " xml:gender=" ++ dq ++ js "Female" ++ dq
    ++ js " name=" ++ dq ++ js "ja-JP-NanamiNeural" ++ dq ++ js ">"
    ++ [10%N]
    ++ js "    " ++ escapeForXml text ++ [10%N]
    ++ js "  </voice>" ++ [10%N]
    ++ js "</speak>" in
  {| url := url;
     method := js "POST";
     headers :=
       [(js "Ocp-Apim-Subscription-Key", tmpl speechKey);
        (js "Content-Type", js "application/ssml+xml");
        (js "X-Microsoft-OutputFormat", js "riff-16khz-16bit-mono-pcm");
        (js "User-Agent", js "pocket-ai-vercel")];
     body := BodyText ssml |}.

(** Lines 152-190. *)
Definition callAzureSpeechTTS (text : JSString) : IO (list byte) :=
  let speechKey := AZURE_SPEECH_KEY (env W) in
  let speechRegion := AZURE_SPEECH_REGION (env W) in
  if missing speechKey || missing speechRegion then
    throw (Error (js "AZURE_SPEECH_KEY / AZURE_SPEECH_REGION が設定されていません。"))
  else
    res ← fetch_ W (textToSpeechRequest text);
    if negb (ok res) then
      let text := text_or_empty res in
      throw (Error (js "Azure Speech TTS でエラーが発生しました: "
                    ++ decimal (status res) ++ js " " ++ statusText res
                    ++ js " " ++ text))
    else
      arrayBuffer ← pure (arrayBuffer res);
      mret arrayBuffer.

(** Lines 192-240, [module.exports]. *)
Definition handler (req : HttpRequest) : IO unit :=
  if negb (bool_decide (req_method req = js "POST")) then
    emit (Respond
            (JsonResponse 405
               (JSObject
                  [(js "error", JSStr (js "Method Not Allowed. Use POST."))])))
  else
    try_catch
      (body ← pure
         match req_body req with
         | JSStr s =>
             JSON_parse P (if truthy (JSStr s) then s else js "{}")
         | b => Ok (if truthy b then b else JSObject [])
         end;
       base64 ← pure
         (JS.or (getProp body "audioBase64")
            (JS.or (getProp body "audio") (Ok (JSStr []))));
       if negb (truthy base64) || negb (TodoFromSpeech.is_string base64) then
         emit (Respond
                 (JsonResponse 400
                    (JSObject
                       [(js "error",
                         JSStr (js "audioBase64 (Base64 PCM) が指定されていません。"))])))
       else
         pcmBuffer ← pure
           match base64 with
           | JSStr s => Ok (Buffer_from_base64 P s)
           | _ => Throw TypeError
           end;
         sttWavBuffer ← pure
           (pcm16ToWavBuffer (kMaxLength P) pcmBuffer
              {| sampleRate := Some 16000; numChannels := Some 1 |});
         recognizedText ← callAzureSpeechToText sttWavBuffer;
         replyText ← callAzureOpenAIChat recognizedText;
         replyString ← pure
           match replyText with
           | JSStr s => Ok s
           | _ => Throw TypeError
           end;
         ttsWavBuffer ← callAzureSpeechTTS replyString;
         _ ← emit (SetHeader (js "Content-Type") (js "audio/wav"));
         _ ← emit (SetHeader (js "Content-Length")
                     (decimal (Z.of_nat (length ttsWavBuffer))));
         recognized ← pure
           (s ← ToString P recognizedText; encodeURIComponent P s);
         _ ← emit (SetHeader (js "X-Recognized-Text") (slice0 recognized 1024));
         reply ← pure (encodeURIComponent P replyString);
         _ ← emit (SetHeader (js "X-Reply-Text") (slice0 reply 1024));
         emit (Respond (SendResponse 200 ttsWavBuffer)))
      (fun err =>
         _ ← emit (ConsoleError (js "[pocket-ai] Error:"));
         emit (Respond
                 (JsonResponse 500
                    (JSObject
                       [(js "error", JSStr (js "Internal Server Error"));
                        (js "message",
                         if bool_decide
                              (NODE_ENV (env W) = Some (js "production"))
                         then JSUndefined
                         else JSStr (error_text P err))])))).

End Handler.

End PocketAi.

(** ** A platform and services to run the handlers on

    The theorems below hold for every platform and every world.  To run the
    handlers on concrete requests, this module gives one platform: a base64
    decoder of the standard alphabet, a parser of the JSON texts without
    fractions and exponents, [encodeURIComponent], and services that answer
    with fixed texts. *)

Module Example.
Import JS.

(** *** base64 *)

Definition sextet (u : N) : option Z :=
  let c := Z.of_N u in
  if (65 <=? c) && (c <=? 90) then Some (c - 65)
  else if (97 <=? c) && (c <=? 122) then Some (c - 71)
  else if (48 <=? c) && (c <=? 57) then Some (c + 4)
  else if (c =? 43) || (c =? 45) then Some 62
  else if (c =? 47) || (c =? 95) then Some 63
  else None.

Fixpoint sextets (s : JSString) : list Z :=
  match s with
  | [] => []
  | u :: rest =>
      match sextet u with
      | Some v => v :: sextets rest
      | None => if is_space u then sextets rest else []
      end
  end.

Fixpoint bytes_of_sextets (fuel : nat) (l : list Z) : list byte :=
  match fuel with
  | O => []
  | S fuel =>
      match l with
      | a :: b :: c :: d :: rest =>
          Buffer.byte_of_Z (a * 4 + b / 16)
          :: Buffer.byte_of_Z (b mod 16 * 16 + c / 4)
          :: Buffer.byte_of_Z (c mod 4 * 64 + d)
          :: bytes_of_sextets fuel rest
      | [a; b; c] =>
          [Buffer.byte_of_Z (a * 4 + b / 16);
           Buffer.byte_of_Z (b mod 16 * 16 + c / 4)]
      | [a; b] => [Buffer.byte_of_Z (a * 4 + b / 16)]
      | _ => []
      end
  end.

Definition base64 (s : JSString) : list byte :=
  bytes_of_sextets (length s) (sextets s).

(** *** JSON *)

Fixpoint skip_ws (s : JSString) : JSString :=
  match s with
  | u :: rest =>
      if ((u =? 32) || (u =? 9) || (u =? 10) || (u =? 13))%N
      then skip_ws rest else s
  | [] => []
  end.

Definition hex_digit (u : N) : option N :=
  if ((48 <=? u) && (u <=? 57))%N then Some (u - 48)%N
  else if ((97 <=? u) && (u <=? 102))%N then Some (u - 87)%N
  else if ((65 <=? u) && (u <=? 70))%N then Some (u - 55)%N
  else None.

(** The characters after an opening quote, up to the closing one. *)
Fixpoint string_body (s : JSString) (acc : JSString)
  : option (JSString * JSString) :=
  match s with
  | [] => None
  | 34%N :: rest => Some (reverse acc, rest)
  | 92%N :: 117%N :: a :: b :: c :: d :: rest =>
      match hex_digit a, hex_digit b, hex_digit c, hex_digit d with
      | Some a, Some b, Some c, Some d =>
          string_body rest ((a * 4096 + b * 256 + c * 16 + d)%N :: acc)
      | _, _, _, _ => None
      end
  | 92%N :: e :: rest =>
      let unescaped :=
        if (e =? 34)%N then Some 34%N
        else if (e =? 92)%N then Some 92%N
        else if (e =? 47)%N then Some 47%N
        else if (e =? 98)%N then Some 8%N
        else if (e =? 102)%N then Some 12%N
        else if (e =? 110)%N then Some 10%N
        else if (e =? 114)%N then Some 13%N
        else if (e =? 116)%N then Some 9%N
        else None in
      match unescaped with
      | Some u => string_body rest (u :: acc)
      | None => None
      end
  | u :: rest => if (u <? 32)%N then None else string_body rest (u :: acc)
  end.

Fixpoint digits (s : JSString) (acc : Z) : Z * JSString :=
  match s with
  | u :: rest =>
      if ((48 <=? u) && (u <=? 57))%N
      then digits rest (acc * 10 + (Z.of_N u - 48))
      else (acc, s)
  | [] => (acc, [])
  end.

(** An integer literal; a fraction, an exponent or a magnitude from 2^53 on
    is outside the fragment. *)
Definition number (negative : bool) (s : JSString)
  : option (JSValue * JSString) :=
  match s with
  | first :: after =>
      if ((48 <=? first) && (first <=? 57))%N then
        let '(magnitude, rest) :=
          if (first =? 48)%N then (0, after) else digits s 0 in
        let follows :=
          match rest with
          | u :: _ =>
              ((48 <=? u) && (u <=? 57) || (u =? 46) || (u =? 101)
               || (u =? 69))%N
          | [] => false
          end in
        if follows || (9007199254740992 <=? magnitude) then None
        else
          let x := PrimFloat.of_uint63 (Uint63.of_Z magnitude) in
          Some (JSNumber (if negative then PrimFloat.opp x else x), rest)
      else None
  | [] => None
  end.

(** A later member with the same key replaces the value of the earlier. *)
Fixpoint define (props : list (JSString * JSValue)) (k : JSString)
  (v : JSValue) : list (JSString * JSValue) :=
  match props with
  | [] => [(k, v)]
  | (k', v') :: rest =>
      if bool_decide (k' = k) then (k, v) :: rest
      else (k', v') :: define rest k v
  end.

Fixpoint value (fuel : nat) (s : JSString) {struct fuel}
  : option (JSValue * JSString) :=
  match fuel with
  | O => None
  | S fuel =>
      match skip_ws s with
      | 110%N :: 117%N :: 108%N :: 108%N :: rest => Some (JSNull, rest)
      | 116%N :: 114%N :: 117%N :: 101%N :: rest => Some (JSBool true, rest)
      | 102%N :: 97%N :: 108%N :: 115%N :: 101%N :: rest =>
          Some (JSBool false, rest)
      | 34%N :: rest =>
          match string_body rest [] with
          | Some (str, rest) => Some (JSStr str, rest)
          | None => None
          end
      | 91%N :: rest =>
          match skip_ws rest with
          | 93%N :: rest => Some (JSArray [], rest)
          | _ => elements fuel rest []
          end
      | 123%N :: rest =>
          match skip_ws rest with
          | 125%N :: rest => Some (JSObject [], rest)
          | _ => members fuel rest []
          end
      | 45%N :: rest => number true rest
      | rest => number false rest
      end
  end
with elements (fuel : nat) (s : JSString) (acc : list JSValue)
  {struct fuel} : option (JSValue * JSString) :=
  match fuel with
  | O => None
  | S fuel =>
      match value fuel s with
      | Some (v, rest) =>
          match skip_ws rest with
          | 44%N :: rest => elements fuel rest (acc ++ [v])
          | 93%N :: rest => Some (JSArray (acc ++ [v]), rest)
          | _ => None
          end
      | None => None
      end
  end
with members (fuel : nat) (s : JSString) (acc : list (JSString * JSValue))
  {struct fuel} : option (JSValue * JSString) :=
  match fuel with
  | O => None
  | S fuel =>
      match skip_ws s with
      | 34%N :: rest =>
          match string_body rest [] with
          | Some (key, rest) =>
              match skip_ws rest with
              | 58%N :: rest =>
                  match value fuel rest with
                  | Some (v, rest) =>
                      match skip_ws rest with
                      | 44%N :: rest => members fuel rest (define acc key v)
                      | 125%N :: rest =>
                          Some (JSObject (define acc key v), rest)
                      | _ => None
                      end
                  | None => None
                  end
              | _ => None
              end
          | None => None
          end
      | _ => None
      end
  end.

Definition parse (s : JSString) : result JSValue :=
  match value (2 * length s + 2) s with
  | Some (v, rest) =>
      match skip_ws rest with
      | [] => Ok v
      | _ :: _ => Throw SyntaxError
      end
  | None => Throw SyntaxError
  end.

(** *** Numbers and URI components *)

(** The text of an integral double below 2^53, of [NaN] and of the
    infinities; the examples hold no other number. *)
Definition number_text (x : float) : JSString :=
  match Prim2SF x with
  | S754_zero _ => js "0"
  | S754_nan => js "NaN"
  | S754_infinity negative =>
      if negative then js "-Infinity" else js "Infinity"
  | S754_finite negative m e =>
      let n := Z.shiftl (Z.pos m) e in
      if (Z.shiftl n (- e) =? Z.pos m) && (n <? 9007199254740992)
      then decimal (if negative then - n else n)
      else []
  end.

Definition unreserved (b : byte) : bool :=
  let c := Buffer.Z_of_byte b in
  (65 <=? c) && (c <=? 90) || (97 <=? c) && (c <=? 122)
  || (48 <=? c) && (c <=? 57)
  || bool_decide (c ∈ [45; 95; 46; 33; 126; 42; 39; 40; 41]).

Definition hex (n : Z) : N :=
  Z.to_N (if n <? 10 then 48 + n else 55 + n).

Definition escape_byte (b : byte) : JSString :=
  let c := Buffer.Z_of_byte b in
  if unreserved b then [Z.to_N c] else [37%N; hex (c / 16); hex (c mod 16)].

Fixpoint well_formed (s : JSString) : bool :=
  match s with
  | [] => true
  | u :: rest =>
      if Buffer.is_high_surrogate u then
        match rest with
        | v :: rest' => Buffer.is_low_surrogate v && well_formed rest'
        | [] => false
        end
      else negb (Buffer.is_low_surrogate u) && well_formed rest
  end.

Definition uri_component (s : JSString) : result JSString :=
  if well_formed s
  then Ok (flat_map escape_byte (concat (Buffer.utf8_chunks s)))
  else Throw URIError.

Definition platform : Platform :=
  {| kMaxLength := 9007199254740991;
     Buffer_from_base64 := base64;
     JSON_parse := parse;
     Number_toString := number_text;
     encodeURIComponent := uri_component;
     engine_message := fun e =>
       match e with
       | RangeError => js "The value is out of range."
       | TypeError => js "Cannot read properties of undefined"
       | SyntaxError => js "Unexpected token in JSON"
       | URIError => js "URI malformed"
       | Error message => message
       end |}.

(** *** Services *)

(** A JSON text written with single quotes for the double ones. *)
Definition json_text (s : string) : JSString :=
  (fun u => if (u =? 39)%N then 34%N else u) <$> js s.

Definition utf8 (s : JSString) : list byte := concat (Buffer.utf8_chunks s).

Definition answer (status : Z) (statusText body : JSString) : Response :=
  {| ok := (200 <=? status) && (status <=? 299);
     status := status;
     statusText := statusText;
     text := Ok body;
     json := parse body;
     arrayBuffer := Ok (utf8 body) |}.

Fixpoint contains (s pattern : JSString) : bool :=
  startsWith s pattern
  || match s with
     | [] => false
     | _ :: rest => contains rest pattern
     end.

Definition configured : Env :=
  {| AZURE_SPEECH_KEY := Some (js "speech-key");
     AZURE_SPEECH_REGION := Some (js "japaneast");
     AZURE_OPENAI_KEY := Some (js "openai-key");
     AZURE_OPENAI_ENDPOINT := Some (js "https://pocket.openai.azure.com/");
     AZURE_OPENAI_DEPLOYMENT := Some (js "gpt-4o-mini");
     AZURE_OPENAI_API_VERSION := None;
     NOTION_API_KEY := Some (js "secret_notion");
     NOTION_DATABASE_ID := Some (js "0123456789abcdef");
     NODE_ENV := None |}.


(** The world in which the speech, chat, notes and synthesis services give
    the listed outcomes. *)
Definition services (e : Env) (stt chat notion tts : result Response)
  : World :=
  {| env := e;
     fetch := fun request =>
       if startsWith (url request) (js "https://api.notion.com/") then notion
       else if contains (url request) (js ".stt.speech.microsoft.com/")
       then stt
       else if contains (url request) (js ".tts.speech.microsoft.com/")
       then tts
       else chat |}.

(** The reply of the chat service whose message content is [content]. *)
Definition chat_reply (content : JSString) : Response :=
  {| ok := true;
     status := 200;
     statusText := js "OK";
     text := Throw TypeError;
     json :=
       Ok (JSObject
             [(js "choices",
               JSArray
                 [JSObject
                    [(js "message",
                      JSObject [(js "role", JSStr (js "assistant"));
                                (js "content", JSStr content)])]])]);
     arrayBuffer := Throw TypeError |}.

Definition heard (text : string) : Response :=
  answer 200 (js "OK")
    (json_text "{'RecognitionStatus':'Success','DisplayText':'"
     ++ js text ++ json_text "'}").

Definition nothing_heard : Response :=
  answer 200 (js "OK")
    (json_text "{'RecognitionStatus':'NoMatch','DisplayText':''}").

(** A reply that is a task, inside a code fence. *)
Definition task_reply : Response :=
  chat_reply
    (js "```json" ++ [10%N]
     ++ json_text "{'is_todo': true, 'title': '牛乳を買う', 'when': '今日中', 'notes': null}"
     ++ [10%N] ++ js "```").

(** Speech is heard and is a task; the notes service answers 500. *)
Definition notes_service_down : World :=
  services configured (Ok (heard "牛乳を買いたい")) (Ok task_reply)
    (Ok (answer 500 (js "Internal Server Error") (js "oops")))
    (Throw TypeError).


(** Nothing is recognized in the audio. *)
Definition silence : World :=
  services configured (Ok nothing_heard) (Ok (chat_reply (js "はい。")))
    (Throw TypeError) (Ok (answer 200 (js "OK") (js "RIFF"))).

(** The language model answers with something that is not JSON, or with
    nothing. *)
Definition chatty_model : World :=
  services configured (Ok (heard "こんにちは")) (Ok (chat_reply (js "not json")))
    (Throw TypeError) (Throw TypeError).

Definition mute_model : World :=
  services configured (Ok (heard "こんにちは")) (Ok (chat_reply []))
    (Throw TypeError) (Throw TypeError).

Definition audio_request : HttpRequest :=
  {| req_method := js "POST";
     req_body :=
       JSObject [(js "audioBase64", JSStr (js "AQIDBA=="));
                 (js "sessionId", JSStr (js "s-1"))] |}.

End Example.

(** ** Notions used to state properties of the handlers *)

(** A string of white space only, which [trim] empties. *)
Definition blank (s : JSString) : Prop :=
  Forall (fun u => JS.is_space u = true) s.

(** A sequence of events in which no response is sent. *)
Definition quiet (events : list Event) : Prop :=
  forall response, Respond response ∉ events.

(** A value that is neither an object nor an array. *)
Definition primitive (v : JSValue) : bool :=
  match v with
  | JSArray _ | JSObject _ => false
  | _ => true
  end.

(** ** Reading a request as the service that receives it *)

Module Wire.

(** The own property [name] of an object, an element of an array. *)
Definition field (v : JSValue) (name : string) : option JSValue :=
  match v with
  | JSObject props => JS.own props (js name)
  | _ => None
  end.

Definition item (v : JSValue) (i : nat) : option JSValue :=
  match v with
  | JSArray elems => elems !! i
  | _ => None
  end.

(** The JSON value in the body of a request. *)
Definition payload (request : Request) : option JSValue :=
  match body request with
  | BodyJSON v => Some v
  | _ => None
  end.

(** A header of a request. *)
Fixpoint header (headers : list (JSString * JSString)) (name : JSString)
  : option JSString :=
  match headers with
  | [] => None
  | (k, v) :: rest => if bool_decide (k = name) then Some v else header rest name
  end.

(** The title and the When of a Notion page:
    [properties.Title.title[0].text.content] and
    [properties.When.rich_text[0].text.content]. *)
Definition page_title (request : Request) : option JSValue :=
  page ← payload request;
  properties ← field page "properties";
  Title ← field properties "Title";
  title ← field Title "title";
  first ← item title 0;
  text ← field first "text";
  field text "content".

Definition page_when (request : Request) : option JSValue :=
  page ← payload request;
  properties ← field page "properties";
  When ← field properties "When";
  rich_text ← field When "rich_text";
  first ← item rich_text 0;
  text ← field first "text";
  field text "content".

(** The content of the user message of a chat completion request:
    [messages[1].content]. *)
Definition user_message (request : Request) : option JSValue :=
  chat ← payload request;
  messages ← field chat "messages";
  user ← item messages 1;
  field user "content".

End Wire.

(** How often a code unit occurs in a string. *)
Definition occurrences (u : N) (s : JSString) : nat := count_occ N.eq_dec s u.

(** The requests a handler made, in the order it made them. *)
Definition requests (trace : list Event) : list Request :=
  omap (fun e => match e with Fetch r => Some r | _ => None end) trace.

(** ** The incoming request

    Both handlers read the body and the audio in the same words
    (api/todo-from-speech.js, lines 280 and 288; api/pocket-ai.js, lines 199
    and 203). *)

Module Incoming.
Import JS.

(** The body of the request, parsed when it is a string. *)
Definition requestBody (P : Platform) (req : HttpRequest) : result JSValue :=
  match req_body req with
  | JSStr s => JSON_parse P (if truthy (JSStr s) then s else js "{}")
  | b => Ok (if truthy b then b else JSObject [])
  end.

(** [body.audioBase64 || body.audio || ''] *)
Definition requestedAudio (body : JSValue) : result JSValue :=
  JS.or (getProp body "audioBase64")
    (JS.or (getProp body "audio") (Ok (JSStr []))).

(** The 400 response to a request without audio. *)
Definition audio_missing : HttpResponse :=
  JsonResponse 400
    (JSObject
       [(js "error",
         JSStr (js "audioBase64 (Base64 PCM) が指定されていません。"))]).

(** The 405 response to a request that is not a POST. *)
Definition method_not_allowed : HttpResponse :=
  JsonResponse 405
    (JSObject [(js "error", JSStr (js "Method Not Allowed. Use POST."))]).

End Incoming.

(** ** The outcomes of api/todo-from-speech.js *)

Module TodoOutcome.
Import JS Eff TodoFromSpeech Incoming.

Section Outcome.

Variable P : Platform.
Variable W : World.

(** Lines 282 and 294: the mode and the session identifier of the body. *)
Definition requestedMode (body : JSValue) : result JSValue :=
  JS.or (getProp body "mode") (Ok (JSStr (js "utterance"))).

Definition requestedSession (body : JSValue) : result JSValue :=
  JS.or (getProp body "sessionId") (Ok JSNull).

(** The response of line 284. *)
Definition unsupported_mode (mode : JSValue) : HttpResponse :=
  JsonResponse 400
    (JSObject [(js "error", JSStr (js "Unsupported mode")); (js "mode", mode)]).

(** What the handler does with a container [wav] and a session identifier,
    from line 303 on: the events, and the normal return of the handler. *)
Inductive served (sessionId : JSValue) (wav : list byte) : IO unit -> Prop :=
| served_speech_failed events err :
    callAzureSpeechToText W wav = (events, Throw err) ->
    served sessionId wav (events ++ failure P W err, Ok tt)
| served_silence events :
    callAzureSpeechToText W wav = (events, Ok []) ->
    served sessionId wav
      (events ++ [Respond (summary [] JSNull JSNull JSNull false)], Ok tt)
| served_analysis_failed events text events' err :
    callAzureSpeechToText W wav = (events, Ok text) -> text <> [] ->
    callAzureOpenAITodoAnalyzer P W text = (events', Throw err) ->
    served sessionId wav (events ++ events' ++ failure P W err, Ok tt)
| served_not_a_task events text events' title when notes :
    callAzureSpeechToText W wav = (events, Ok text) -> text <> [] ->
    callAzureOpenAITodoAnalyzer P W text
    = (events', Ok (todo_object false title when notes)) ->
    served sessionId wav
      (events ++ events' ++ [Respond (summary text title when notes false)],
       Ok tt)
| served_notes_failed events text events' title when notes events'' err :
    callAzureSpeechToText W wav = (events, Ok text) -> text <> [] ->
    callAzureOpenAITodoAnalyzer P W text
    = (events', Ok (todo_object true title when notes)) ->
    postTodoToNotion P W title when notes text sessionId
    = (events'', Throw err) ->
    served sessionId wav
      (events ++ events' ++ events'' ++ failure P W err, Ok tt)
| served_task events text events' title when notes events'' notionPosted :
    callAzureSpeechToText W wav = (events, Ok text) -> text <> [] ->
    callAzureOpenAITodoAnalyzer P W text
    = (events', Ok (todo_object true title when notes)) ->
    postTodoToNotion P W title when notes text sessionId
    = (events'', Ok notionPosted) ->
    served sessionId wav
      (events ++ events' ++ events''
       ++ [Respond (summary text title when notes notionPosted)],
       Ok tt).

(** What the handler does with a request: the checks of lines 274-301, then
    the service calls. *)
Inductive outcome (req : HttpRequest) : IO unit -> Prop :=
| wrong_method :
    req_method req <> js "POST" ->
    outcome req ([Respond method_not_allowed], Ok tt)
| body_unreadable err :
    req_method req = js "POST" ->
    requestBody P req = Throw err
    \/ (exists body, requestBody P req = Ok body
                     /\ (requestedMode body = Throw err
                         \/ requestedAudio body = Throw err
                         \/ requestedSession body = Throw err)) ->
    outcome req (failure P W err, Ok tt)
| wrong_mode body mode :
    req_method req = js "POST" ->
    requestBody P req = Ok body ->
    requestedMode body = Ok mode ->
    mode <> JSStr (js "utterance") ->
    outcome req ([Respond (unsupported_mode mode)], Ok tt)
| no_audio body audio :
    req_method req = js "POST" ->
    requestBody P req = Ok body ->
    requestedMode body = Ok (JSStr (js "utterance")) ->
    requestedAudio body = Ok audio ->
    (forall s, audio = JSStr s -> s = []) ->
    outcome req ([Respond audio_missing], Ok tt)
| audio_too_long body audio sessionId err :
    req_method req = js "POST" ->
    requestBody P req = Ok body ->
    requestedMode body = Ok (JSStr (js "utterance")) ->
    requestedAudio body = Ok (JSStr audio) -> audio <> [] ->
    requestedSession body = Ok sessionId ->
    pcm16ToWavBuffer (kMaxLength P) (Buffer_from_base64 P audio)
      {| sampleRate := Some 16000; numChannels := Some 1 |}
    = Throw err ->
    outcome req (failure P W err, Ok tt)
| audio_served body audio sessionId wav m :
    req_method req = js "POST" ->
    requestBody P req = Ok body ->
    requestedMode body = Ok (JSStr (js "utterance")) ->
    requestedAudio body = Ok (JSStr audio) -> audio <> [] ->
    requestedSession body = Ok sessionId ->
    pcm16ToWavBuffer (kMaxLength P) (Buffer_from_base64 P audio)
      {| sampleRate := Some 16000; numChannels := Some 1 |}
    = Ok wav ->
    served sessionId wav m ->
    outcome req m.

End Outcome.

End TodoOutcome.

(** ** The outcomes of api/pocket-ai.js *)

Module PocketOutcome.
Import JS Eff PocketAi.

Section Outcome.

Variable P : Platform.
Variable W : World.

(** The events of the [catch] block of lines 233-239. *)
Definition failure (err : JSError) : list Event :=
  [ConsoleError (js "[pocket-ai] Error:");
   Respond
     (JsonResponse 500
        (JSObject
           [(js "error", JSStr (js "Internal Server Error"));
            (js "message",
             if bool_decide (NODE_ENV (env W) = Some (js "production"))
             then JSUndefined
             else JSStr (error_text P err))]))].

(** The events of lines 216-232 when nothing fails: the three requests, the
    four headers and the audio. *)
Definition spoken (wav : list byte) (recognizedText : JSValue)
  (replyText : JSString) (audio : list byte)
  (recognizedHeader replyHeader : JSString) : list Event :=
  [Fetch (speechToTextRequest W wav);
   Fetch (chatRequest W recognizedText);
   Fetch (textToSpeechRequest W replyText);
   SetHeader (js "Content-Type") (js "audio/wav");
   SetHeader (js "Content-Length") (decimal (Z.of_nat (length audio)));
   SetHeader (js "X-Recognized-Text") (slice0 recognizedHeader 1024);
   SetHeader (js "X-Reply-Text") (slice0 replyHeader 1024);
   Respond (SendResponse 200 audio)].

(** What the handler does with a container [wav], from line 216 on: the
    events, and the normal return of the handler. *)
Inductive served (wav : list byte) : IO unit -> Prop :=
| served_speech_failed events err :
    callAzureSpeechToText W wav = (events, Throw err) ->
    served wav (events ++ failure err, Ok tt)
| served_chat_failed recognizedText events err :
    callAzureSpeechToText W wav
    = ([Fetch (speechToTextRequest W wav)], Ok recognizedText) ->
    callAzureOpenAIChat W recognizedText = (events, Throw err) ->
    served wav
      (Fetch (speechToTextRequest W wav) :: events ++ failure err, Ok tt)
| served_synthesis_failed recognizedText replyText events err :
    callAzureSpeechToText W wav
    = ([Fetch (speechToTextRequest W wav)], Ok recognizedText) ->
    callAzureOpenAIChat W recognizedText
    = ([Fetch (chatRequest W recognizedText)], Ok (JSStr replyText)) ->
    callAzureSpeechTTS W replyText = (events, Throw err) ->
    served wav
      (Fetch (speechToTextRequest W wav)
         :: Fetch (chatRequest W recognizedText) :: events ++ failure err,
       Ok tt)
| served_header_failed recognizedText replyText audio sent err :
    callAzureSpeechToText W wav
    = ([Fetch (speechToTextRequest W wav)], Ok recognizedText) ->
    callAzureOpenAIChat W recognizedText
    = ([Fetch (chatRequest W recognizedText)], Ok (JSStr replyText)) ->
    callAzureSpeechTTS W replyText
    = ([Fetch (textToSpeechRequest W replyText)], Ok audio) ->
    (s ← ToString P recognizedText; encodeURIComponent P s) = Throw err
    /\ sent = []
    \/ (exists recognizedHeader,
           (s ← ToString P recognizedText; encodeURIComponent P s)
           = Ok recognizedHeader
           /\ encodeURIComponent P replyText = Throw err
           /\ sent = [SetHeader (js "X-Recognized-Text")
                        (slice0 recognizedHeader 1024)]) ->
    served wav
      (Fetch (speechToTextRequest W wav)
         :: Fetch (chatRequest W recognizedText)
         :: Fetch (textToSpeechRequest W replyText)
         :: SetHeader (js "Content-Type") (js "audio/wav")
         :: SetHeader (js "Content-Length")
              (decimal (Z.of_nat (length audio)))
         :: sent ++ failure err,
       Ok tt)
| served_audio recognizedText replyText audio recognizedHeader replyHeader :
    callAzureSpeechToText W wav
    = ([Fetch (speechToTextRequest W wav)], Ok recognizedText) ->
    callAzureOpenAIChat W recognizedText
    = ([Fetch (chatRequest W recognizedText)], Ok (JSStr replyText)) ->
    callAzureSpeechTTS W replyText
    = ([Fetch (textToSpeechRequest W replyText)], Ok audio) ->
    (s ← ToString P recognizedText; encodeURIComponent P s)
    = Ok recognizedHeader ->
    encodeURIComponent P replyText = Ok replyHeader ->
    served wav
      (spoken wav recognizedText replyText audio recognizedHeader replyHeader,
       Ok tt).

(** What the handler does with a request: the checks of lines 193-213, then
    the service calls. *)
Inductive outcome (req : HttpRequest) : IO unit -> Prop :=
| wrong_method :
    req_method req <> js "POST" ->
    outcome req ([Respond Incoming.method_not_allowed], Ok tt)
| body_unreadable err :
    req_method req = js "POST" ->
    Incoming.requestBody P req = Throw err
    \/ (exists body, Incoming.requestBody P req = Ok body
                     /\ Incoming.requestedAudio body = Throw err) ->
    outcome req (failure err, Ok tt)
| no_audio body audio :
    req_method req = js "POST" ->
    Incoming.requestBody P req = Ok body ->
    Incoming.requestedAudio body = Ok audio ->
    (forall s, audio = JSStr s -> s = []) ->
    outcome req ([Respond Incoming.audio_missing], Ok tt)
| audio_too_long body audio err :
    req_method req = js "POST" ->
    Incoming.requestBody P req = Ok body ->
    Incoming.requestedAudio body = Ok (JSStr audio) -> audio <> [] ->
    pcm16ToWavBuffer (kMaxLength P) (Buffer_from_base64 P audio)
      {| sampleRate := Some 16000; numChannels := Some 1 |}
    = Throw err ->
    outcome req (failure err, Ok tt)
| audio_served body audio wav m :
    req_method req = js "POST" ->
    Incoming.requestBody P req = Ok body ->
    Incoming.requestedAudio body = Ok (JSStr audio) -> audio <> [] ->
    pcm16ToWavBuffer (kMaxLength P) (Buffer_from_base64 P audio)
      {| sampleRate := Some 16000; numChannels := Some 1 |}
    = Ok wav ->
    served wav m ->
    outcome req m.

End Outcome.

End PocketOutcome.

(** ** The earlier revision of the spoken-reply handler (unnamed/part_000) *)

Module Earlier.
Import JS Eff.

Definition dq : JSString := [34%N].

(** The words sent to the chat service when nothing was recognized
    (line 38). *)
Definition not_heard : JSString := js "（聞き取れませんでした）".

(** Lines 211-216. *)
Definition escapeXml (str : JSString) : JSString :=
  let str := replaceAll str 38 (js "&amp;") in
  let str := replaceAll str 60 (js "&lt;") in
  replaceAll str 62 (js "&gt;").

(** [await resp.text()], which may reject. *)
Definition body_text (resp : Response) : result JSString := text resp.

Section Handler.

Variable P : Platform.
Variable W : World.

(** [Buffer.from(value, 'base64')] for a [value] that is not a string, which
    the handler does not exclude: taken as given. *)
Variable Buffer_from_value : JSValue -> result (list byte).

(** [String(err)]: the name of the error and its message. *)
Definition error_name (e : JSError) : JSString :=
  match e with
  | RangeError => js "RangeError"
  | TypeError => js "TypeError"
  | SyntaxError => js "SyntaxError"
  | URIError => js "URIError"
  | Error _ => js "Error"
  end.

Definition String_of_error (e : JSError) : JSString :=
  let message :=
    match e with
    | Error message => message
    | _ => engine_message P e
    end in
  if bool_decide (message = []) then error_name e
  else error_name e ++ js ": " ++ message.

(** The request of [getSpeechToken] (lines 118-131); it has no body, which
    is written as the empty body. *)
Definition tokenRequest : Request :=
  let region := AZURE_SPEECH_REGION (env W) in
  let key := AZURE_SPEECH_KEY (env W) in
  {| url := js "https://" ++ tmpl region
            ++ js ".api.cognitive.microsoft.com/sts/v1.0/issueToken";
     method := js "POST";
     headers :=
       [(js "Ocp-Apim-Subscription-Key", tmpl key);
        (js "Content-Type", js "application/x-www-form-urlencoded");
        (js "Content-Length", js "0")];
     body := BodyBytes [] |}.

(** Lines 117-137. *)
Definition getSpeechToken : IO JSString :=
  resp ← fetch_ W tokenRequest;
  if negb (ok resp) then
    t ← pure (body_text resp);
    throw (Error (js "getSpeechToken failed: " ++ decimal (status resp)
                  ++ js " " ++ t))
  else pure (body_text resp).

(** The request of [speechToText] (lines 93-107). *)
Definition speechRequest (token : JSString) (wavBuffer : list byte)
  : Request :=
  let region := AZURE_SPEECH_REGION (env W) in
  let url :=
    (js "https://" ++ tmpl region
     ++ js ".stt.speech.microsoft.com/speech/recognition/conversation/cognitiveservices/v1")
    ++ js "?language=ja-JP" in
  {| url := url;
     method := js "POST";
     headers :=
       [(js "Authorization", js "Bearer " ++ token);
        (js "Content-Type", js "audio/wav; codecs=audio/pcm; samplerate=16000");
        (js "Accept", js "application/json")];
     body := BodyBytes wavBuffer |}.

(** Lines 91-115. *)
Definition speechToText (wavBuffer : list byte) : IO JSValue :=
  token ← getSpeechToken;
  resp ← fetch_ W (speechRequest token wavBuffer);
  if negb (ok resp) then
    t ← pure (body_text resp);
    throw (Error (js "STT failed: " ++ decimal (status resp)
                  ++ js " " ++ t))
  else
    json ← pure (json resp);
    pure (JS.or (getProp json "DisplayText") (Ok (JSStr []))).

(** The request of [callChatGPT] (lines 143-166). *)
Definition chatRequest (userText : JSValue) : Request :=
  let endpoint := AZURE_OPENAI_ENDPOINT (env W) in
  let deployment := AZURE_OPENAI_DEPLOYMENT (env W) in
  let apiKey := AZURE_OPENAI_KEY (env W) in
  let apiVersion := js "2024-02-15-preview" in
  let url :=
    tmpl endpoint ++ js "/openai/deployments/" ++ tmpl deployment
    ++ js "/chat/completions?api-version=" ++ apiVersion in
  {| url := url;
     method := js "POST";
     headers := [(js "api-key", tmpl apiKey);
                 (js "Content-Type", js "application/json")];
     body :=
       BodyJSON
         (JSObject
            [(js "messages",
              JSArray
                [JSObject
                   [(js "role", JSStr (js "system"));
                    (js "content",
                     JSStr (js "あなたは小さなポケットAIアシスタントです。短く、カジュアルに日本語で答えてください。"))];
                 JSObject [(js "role", JSStr (js "user"));
                           (js "content", userText)]]);
             (js "max_tokens", JSNumber 256)]) |}.

(** Lines 142-173. *)
Definition callChatGPT (userText : JSValue) : IO JSValue :=
  resp ← fetch_ W (chatRequest userText);
  if negb (ok resp) then
    t ← pure (body_text resp);
    throw (Error (js "OpenAI failed: " ++ decimal (status resp)
                  ++ js " " ++ t))
  else
    json ← pure (json resp);
    pure (coalesce
            (choices ← getProp json "choices";
             first ← optIndex choices 0;
             message ← optProp first "message";
             content ← optProp message "content";
             optTrim content)
            (Ok (JSStr []))).

(** The request of [textToSpeech] (lines 180-201). *)
Definition synthesisRequest (token : JSString) (text : JSString) : Request :=
  let region := AZURE_SPEECH_REGION (env W) in
  let url :=
    js "https://" ++ tmpl region
    ++ js ".tts.speech.microsoft.com/cognitiveservices/v1" in
  let ssml :=
    trim
      ([10%N] ++ js "    <speak version=" ++ dq ++ js "1.0" ++ dq
       ++ js " xml:lang=" ++ dq ++ js "ja-JP" ++ dq ++ js ">" ++ [10%N]
       ++ js "      <voice xml:lang=" ++ dq ++ js "ja-JP" ++ dq
       ++ js " name=" ++ dq ++ js "ja-JP-NanamiNeural" ++ dq ++ js ">"
       ++ [10%N]
       ++ js "        " ++ escapeXml text ++ [10%N]
       ++ js "      </voice>" ++ [10%N]
       ++ js "    </speak>") in
  {| url := url;
     method := js "POST";
     headers :=
       [(js "Authorization", js "Bearer " ++ token);
        (js "Content-Type", js "application/ssml+xml");
        (js "X-Microsoft-OutputFormat", js "audio-16khz-32kbitrate-mono-mp3");
        (js "User-Agent", js "pocket-ai-assistant")];
     body := BodyText ssml |}.

(** Lines 178-209.  Only a string has [replace]. *)
Definition textToSpeech (text : JSValue) : IO (list byte) :=
  token ← getSpeechToken;
  text ← pure match text with
              | JSStr s => Ok s
              | _ => Throw TypeError
              end;
  resp ← fetch_ W (synthesisRequest token text);
  if negb (ok resp) then
    t ← pure (body_text resp);
    throw (Error (js "TTS failed: " ++ decimal (status resp)
                  ++ js " " ++ t))
  else
    pure (arrayBuffer resp).

(** The events of the [catch] block of lines 46-49; of [console.error(err)]
    the text of the error is kept. *)
Definition failure (err : JSError) : list Event :=
  [ConsoleError (String_of_error err);
   Respond
     (JsonResponse 500
        (JSObject [(js "error", JSStr (js "internal error"));
                   (js "detail", JSStr (String_of_error err))]))].

(** Lines 12-50. *)
Definition handler (req : HttpRequest) : IO unit :=
  try_catch
    (if negb (bool_decide (req_method req = js "POST")) then
       emit (Respond
               (JsonResponse 405 (JSObject [(js "error", JSStr (js "Use POST"))])))
     else
       let body := if truthy (req_body req) then req_body req else JSObject [] in
       audioBase64 ← pure (getProp body "audioBase64");
       if negb (truthy audioBase64) then
         emit (Respond
                 (JsonResponse 400
                    (JSObject
                       [(js "error", JSStr (js "audioBase64 is required"))])))
       else
         pcmBuffer ← pure
           match audioBase64 with
           | JSStr s => Ok (Buffer_from_base64 P s)
           | v => Buffer_from_value v
           end;
         wavBuffer ← pure (pcm16ToWav (kMaxLength P) pcmBuffer 16000);
         text ← speechToText wavBuffer;
         reply ← callChatGPT (if truthy text then text else JSStr not_heard);
         audioBuffer ← textToSpeech reply;
         _ ← emit (SetHeader (js "Content-Type") (js "audio/mpeg"));
         emit (Respond (SendResponse 200 audioBuffer)))
    (fun err =>
       _ ← emit (ConsoleError (String_of_error err));
       emit (Respond
               (JsonResponse 500
                  (JSObject [(js "error", JSStr (js "internal error"));
                             (js "detail", JSStr (String_of_error err))])))).

End Handler.

End Earlier.

(** ** The outcomes of the earlier revision *)

Module EarlierOutcome.
Import JS Eff Earlier.

Section Outcome.

Variable P : Platform.
Variable W : World.
Variable Buffer_from_value : JSValue -> result (list byte).

(** Line 19: [const { audioBase64 } = req.body || {}]. *)
Definition requestedAudio (req : HttpRequest) : result JSValue :=
  getProp (if truthy (req_body req) then req_body req else JSObject [])
    "audioBase64".

(** Line 26: [Buffer.from(audioBase64, 'base64')]. *)
Definition decoded (audioBase64 : JSValue) : result (list byte) :=
  match audioBase64 with
  | JSStr s => Ok (Buffer_from_base64 P s)
  | v => Buffer_from_value v
  end.

(** Line 38: what the chat service is asked. *)
Definition question (text : JSValue) : JSValue :=
  if truthy text then text else JSStr not_heard.

(** What the handler does with a container [wav], from line 32 on. *)
Inductive served (wav : list byte) : IO unit -> Prop :=
| served_speech_failed events err :
    speechToText W wav = (events, Throw err) ->
    served wav (events ++ failure P err, Ok tt)
| served_chat_failed events text events' err :
    speechToText W wav = (events, Ok text) ->
    callChatGPT W (question text) = (events', Throw err) ->
    served wav (events ++ events' ++ failure P err, Ok tt)
| served_synthesis_failed events text events' reply events'' err :
    speechToText W wav = (events, Ok text) ->
    callChatGPT W (question text) = (events', Ok reply) ->
    textToSpeech W reply = (events'', Throw err) ->
    served wav (events ++ events' ++ events'' ++ failure P err, Ok tt)
| served_audio events text events' reply events'' audio :
    speechToText W wav = (events, Ok text) ->
    callChatGPT W (question text) = (events', Ok reply) ->
    textToSpeech W reply = (events'', Ok audio) ->
    served wav
      (events ++ events' ++ events''
       ++ [SetHeader (js "Content-Type") (js "audio/mpeg");
           Respond (SendResponse 200 audio)],
       Ok tt).

(** What the handler does with a request. *)
Inductive outcome (req : HttpRequest) : IO unit -> Prop :=
| wrong_method :
    req_method req <> js "POST" ->
    outcome req
      ([Respond
          (JsonResponse 405 (JSObject [(js "error", JSStr (js "Use POST"))]))],
       Ok tt)
| no_audio audioBase64 :
    req_method req = js "POST" ->
    requestedAudio req = Ok audioBase64 ->
    truthy audioBase64 = false ->
    outcome req
      ([Respond
          (JsonResponse 400
             (JSObject [(js "error", JSStr (js "audioBase64 is required"))]))],
       Ok tt)
| audio_unusable audioBase64 err :
    req_method req = js "POST" ->
    requestedAudio req = Ok audioBase64 ->
    truthy audioBase64 = true ->
    (pcm ← decoded audioBase64; pcm16ToWav (kMaxLength P) pcm 16000)
    = Throw err ->
    outcome req (failure P err, Ok tt)
| audio_served audioBase64 pcm wav m :
    req_method req = js "POST" ->
    requestedAudio req = Ok audioBase64 ->
    truthy audioBase64 = true ->
    decoded audioBase64 = Ok pcm ->
    pcm16ToWav (kMaxLength P) pcm 16000 = Ok wav ->
    served wav m ->
    outcome req m.

End Outcome.

End EarlierOutcome.

(** ** Further services to run the handlers on *)

Module Scenario.
Import Example.

Definition nothing_configured : Env :=
  {| AZURE_SPEECH_KEY := None;
     AZURE_SPEECH_REGION := None;
     AZURE_OPENAI_KEY := None;
     AZURE_OPENAI_ENDPOINT := None;
     AZURE_OPENAI_DEPLOYMENT := None;
     AZURE_OPENAI_API_VERSION := None;
     NOTION_API_KEY := None;
     NOTION_DATABASE_ID := None;
     NODE_ENV := None |}.

(** No credentials, and no network. *)
Definition offline : World :=
  {| env := nothing_configured; fetch := fun _ => Throw TypeError |}.

(** Speech is heard and is a task; the notes service accepts the page. *)
Definition notes_stored : World :=
  services configured (Ok (heard "牛乳を買いたい")) (Ok task_reply)
    (Ok (answer 200 (js "OK") (js "{}"))) (Throw TypeError).



(** The speech service hears a task and the chat service is down. *)
Definition chat_down : World :=
  services configured (Ok (heard "牛乳を買いたい"))
    (Ok (answer 429 (js "Too Many Requests") (js "slow down")))
    (Throw TypeError) (Throw TypeError).

(** A greeting is heard, answered and spoken. *)
Definition conversation : World :=
  services configured (Ok (heard "こんにちは")) (Ok (chat_reply (js "やあ")))
    (Throw TypeError) (Ok (answer 200 (js "OK") (js "RIFF"))).


(** A [Buffer.from] that refuses every value that is not a string. *)
Definition no_other_audio : JSValue -> result (list byte) :=
  fun _ => Throw TypeError.

End Scenario.


(** * Properties *)

(** ** Bytes and little-endian fields *)

Section BufferFacts.
Import Buffer.

#[local] Arguments byte_of_Z : simpl never.
#[local] Arguments ushr8 : simpl never.

Lemma Z_of_byte_of_Z v : Z_of_byte (byte_of_Z v) = v mod 256.
Proof.
  unfold Z_of_byte, byte_of_Z.
  assert (H : 0 <= v mod 256 < 256) by (apply Z.mod_pos_bound; lia).
  destruct (Byte.of_N (Z.to_N (v mod 256))) as [b|] eqn:E.
  - apply Byte.to_of_N in E. simpl. rewrite E. lia.
  - apply Byte.of_N_None_iff in E. lia.
Qed.

Lemma byte_of_Z_of_byte b : byte_of_Z (Z_of_byte b) = b.
Proof. destruct b; reflexivity. Qed.

Lemma ushr8_small v : 0 <= v < 2 ^ 32 -> ushr8 v = v / 256.
Proof.
  intros H. unfold ushr8. rewrite Z.mod_small by lia.
  rewrite Z.shiftr_div_pow2 by lia. reflexivity.
Qed.

Lemma le_uint_u32le v : 0 <= v <= 4294967295 -> le_uint (u32le v) = v.
Proof.
  intros H. unfold u32le, le_uint. simpl.
  rewrite !Z_of_byte_of_Z.
  assert (H1 : ushr8 v = v / 256) by (apply ushr8_small; lia).
  assert (B1 : 0 <= v / 256 < 16777216).
  { split; [apply Z.div_pos; lia | apply Z.div_lt_upper_bound; lia]. }
  rewrite H1.
  assert (H2 : ushr8 (v / 256) = v / 256 / 256) by (apply ushr8_small; lia).
  assert (B2 : 0 <= v / 256 / 256 < 65536).
  { split; [apply Z.div_pos; lia | apply Z.div_lt_upper_bound; lia]. }
  rewrite H2.
  assert (H3 : ushr8 (v / 256 / 256) = v / 256 / 256 / 256)
    by (apply ushr8_small; lia).
  assert (B3 : 0 <= v / 256 / 256 / 256 < 256).
  { split; [apply Z.div_pos; lia | apply Z.div_lt_upper_bound; lia]. }
  rewrite H3.
  rewrite (Z.mod_small (v / 256 / 256 / 256)) by lia.
  pose proof (Z.div_mod v 256 ltac:(lia)).
  pose proof (Z.div_mod (v / 256) 256 ltac:(lia)).
  pose proof (Z.div_mod (v / 256 / 256) 256 ltac:(lia)).
  lia.
Qed.

Lemma le_uint_u16le v : 0 <= v <= 65535 -> le_uint (u16le v) = v.
Proof.
  intros H. unfold u16le, le_uint. simpl.
  rewrite !Z_of_byte_of_Z.
  assert (H1 : ushr8 v = v / 256) by (apply ushr8_small; lia).
  assert (B1 : 0 <= v / 256 < 256).
  { split; [apply Z.div_pos; lia | apply Z.div_lt_upper_bound; lia]. }
  rewrite H1. rewrite (Z.mod_small (v / 256)) by lia.
  pose proof (Z.div_mod v 256 ltac:(lia)). lia.
Qed.

(** ** Each write of the encoder, at an offset inside the buffer *)

Lemma fit_chunks_all chunks room :
  (length (concat chunks) <= room)%nat ->
  fit_chunks chunks room = concat chunks.
Proof.
  revert room. induction chunks as [|c rest IH]; intros room H; simpl in *.
  - reflexivity.
  - rewrite length_app in H.
    destruct (Nat.leb_spec (length c) room) as [Hle|Hgt]; [|lia].
    rewrite IH by lia. reflexivity.
Qed.

Lemma write_fits buf s offset :
  0 <= offset ->
  offset + Z.of_nat (length (concat (utf8_chunks s))) <= Z.of_nat (length buf) ->
  write buf s offset = Ok (set_bytes buf offset (concat (utf8_chunks s))).
Proof.
  intros H0 H1. unfold write.
  destruct (Z.ltb_spec offset 0); [lia|].
  destruct (Z.ltb_spec (Z.of_nat (length buf)) offset); [lia|].
  simpl. rewrite fit_chunks_all by lia. reflexivity.
Qed.

Lemma alloc_header kMaxLength n :
  alloc kMaxLength (44 + Z.of_nat n) =
  if 44 + Z.of_nat n <=? kMaxLength
  then Ok (replicate 44 x00 ++ replicate n x00)
  else Throw RangeError.
Proof.
  unfold alloc.
  destruct (Z.ltb_spec (44 + Z.of_nat n) 0); [lia|].
  destruct (Z.ltb_spec kMaxLength (44 + Z.of_nat n));
    destruct (Z.leb_spec (44 + Z.of_nat n) kMaxLength); try lia; simpl.
  - reflexivity.
  - replace (Z.to_nat (44 + Z.of_nat n)) with (44 + n)%nat by lia.
    rewrite replicate_add. reflexivity.
Qed.

Lemma get_nat buf offset i :
  offset = Z.of_nat i -> get buf offset = buf !! i.
Proof.
  intros ->. unfold get. destruct (Z.ltb_spec (Z.of_nat i) 0); [lia|].
  rewrite Nat2Z.id. reflexivity.
Qed.

Lemma set_nat buf offset i v :
  offset = Z.of_nat i -> set buf offset v = <[i := byte_of_Z v]> buf.
Proof.
  intros ->. unfold set. destruct (Z.ltb_spec (Z.of_nat i) 0); [lia|].
  rewrite Nat2Z.id. reflexivity.
Qed.

Lemma writeUInt32LE_at buf value offset i :
  offset = Z.of_nat i -> (i + 3 < length buf)%nat ->
  writeUInt32LE buf value offset =
  if (0 <=? value) && (value <=? 4294967295)
  then Ok (<[(i + 3)%nat := byte_of_Z (ushr8 (ushr8 (ushr8 value)))]>
            (<[(i + 2)%nat := byte_of_Z (ushr8 (ushr8 value))]>
              (<[(i + 1)%nat := byte_of_Z (ushr8 value)]>
                (<[i := byte_of_Z value]> buf))))
  else Throw RangeError.
Proof.
  intros Hi Hlen. unfold writeUInt32LE, checkInt, checkBounds.
  rewrite (get_nat buf offset i Hi).
  rewrite (get_nat buf (offset + 3) (i + 3)) by lia.
  destruct (lookup_lt_is_Some_2 buf i ltac:(lia)) as [a ->].
  destruct (lookup_lt_is_Some_2 buf (i + 3) ltac:(lia)) as [b ->].
  rewrite (set_nat _ offset i) by lia.
  rewrite (set_nat _ (offset + 1) (i + 1)) by lia.
  rewrite (set_nat _ (offset + 2) (i + 2)) by lia.
  rewrite (set_nat _ (offset + 3) (i + 3)) by lia.
  destruct (Z.gtb_spec value 4294967295), (Z.ltb_spec value 0),
    (Z.leb_spec 0 value), (Z.leb_spec value 4294967295); try lia; reflexivity.
Qed.

Lemma writeUInt16LE_at buf value offset i :
  offset = Z.of_nat i -> (i + 1 < length buf)%nat ->
  writeUInt16LE buf value offset =
  if (0 <=? value) && (value <=? 65535)
  then Ok (<[(i + 1)%nat := byte_of_Z (ushr8 value)]>
            (<[i := byte_of_Z value]> buf))
  else Throw RangeError.
Proof.
  intros Hi Hlen. unfold writeUInt16LE, checkInt, checkBounds.
  rewrite (get_nat buf offset i Hi).
  rewrite (get_nat buf (offset + 1) (i + 1)) by lia.
  destruct (lookup_lt_is_Some_2 buf i ltac:(lia)) as [a ->].
  destruct (lookup_lt_is_Some_2 buf (i + 1) ltac:(lia)) as [b ->].
  rewrite (set_nat _ offset i) by lia.
  rewrite (set_nat _ (offset + 1) (i + 1)) by lia.
  destruct (Z.gtb_spec value 65535), (Z.ltb_spec value 0),
    (Z.leb_spec 0 value), (Z.leb_spec value 65535); try lia; reflexivity.
Qed.

Lemma set_bytes_at bytes : forall buf offset i,
  offset = Z.of_nat i -> (i + length bytes <= length buf)%nat ->
  set_bytes buf offset bytes
  = take i buf ++ bytes ++ drop (i + length bytes) buf.
Proof.
  induction bytes as [|b rest IH]; intros buf offset i Hi Hlen.
  - cbn [set_bytes length app]. rewrite Nat.add_0_r, take_drop. reflexivity.
  - cbn [set_bytes length] in *.
    rewrite (set_nat _ offset i) by exact Hi. rewrite byte_of_Z_of_byte.
    rewrite (IH _ (offset + 1) (S i)) by (rewrite ?length_insert; lia).
    rewrite drop_insert_lt by lia.
    replace (S i + length rest)%nat with (i + S (length rest))%nat by lia.
    rewrite (take_S_r _ i b).
    + rewrite take_insert_ge by lia. rewrite <- app_assoc. reflexivity.
    + apply list_lookup_insert_eq. lia.
Qed.

Lemma write_at buf s offset i bytes :
  offset = Z.of_nat i -> concat (utf8_chunks s) = bytes ->
  (i + length bytes <= length buf)%nat ->
  write buf s offset = Ok (take i buf ++ bytes ++ drop (i + length bytes) buf).
Proof.
  intros Hi Hs Hlen. rewrite write_fits by (rewrite ?Hs; lia).
  rewrite Hs. rewrite (set_bytes_at bytes buf offset i Hi Hlen). reflexivity.
Qed.

Lemma copy_at pcm target :
  length target = (44 + length pcm)%nat ->
  copy pcm target 44 = Ok (take 44 target ++ pcm).
Proof.
  intros Hlen. unfold copy.
  destruct (Z.ltb_spec 44 0) as [H0|_]; [lia|].
  destruct (Z.leb_spec (Z.of_nat (length target)) 44) as [H|H];
    destruct (Z.leb_spec (Z.of_nat (length pcm)) 0) as [H'|H'];
    cbn [orb]; try lia.
  - assert (Hp : pcm = [])
      by (destruct pcm; [reflexivity | cbn [length] in H'; lia]).
    subst pcm. rewrite app_nil_r, firstn_all2 by lia. reflexivity.
  - change (Z.to_nat 44) with 44%nat.
    replace (length target - 44)%nat with (length pcm) by lia.
    rewrite Nat.min_id, firstn_all, drop_ge by lia.
    rewrite app_nil_r. reflexivity.
Qed.

End BufferFacts.

(** ** The encoder is the header followed by the payload *)

Ltac enc_norm :=
  cbn [mbind result_bind andb take drop app length Nat.add firstn skipn
       insert list_insert].

Ltac enc_side := first [reflexivity | cbn [length]; lia].

Section EncoderFacts.
Import Buffer.

Variable kMaxLength : Z.

#[local] Arguments byte_of_Z : simpl never.
#[local] Arguments ushr8 : simpl never.

Lemma pcm16ToWavBuffer_spec pcm options :
  let L := Z.of_nat (length pcm) in
  let R := default 16000 (sampleRate options) in
  let C := default 1 (numChannels options) in
  pcm16ToWavBuffer kMaxLength pcm options =
  if encodable kMaxLength L R C then Ok (wavHeader L R C ++ pcm)
  else Throw RangeError.
Proof.
  intros L R C. unfold pcm16ToWavBuffer. fold L R C.
  replace (R * C * 16 / 8) with (R * C * 2)
    by (replace (R * C * 16) with (R * C * 2 * 8) by lia;
        rewrite Z.div_mul by lia; reflexivity).
  replace (C * 16 / 8) with (C * 2)
    by (replace (C * 16) with (C * 2 * 8) by lia;
        rewrite Z.div_mul by lia; reflexivity).
  assert (HL : 0 <= L) by (unfold L; lia).
  change (44 + L) with (44 + Z.of_nat (length pcm)).
  rewrite alloc_header. fold L.
  unfold encodable.
  destruct (Z.leb_spec (44 + L) kMaxLength) as [Hk|Hk]; [|reflexivity].
  set (tl := replicate (length pcm) x00).
  assert (Htl : length tl = length pcm) by apply length_replicate.
  cbn [mbind result_bind andb replicate app].
  rewrite (write_at _ _ 0 0%nat ["R"; "I"; "F"; "F"]%byte) by enc_side.
  enc_norm.
  rewrite (writeUInt32LE_at _ _ 4 4%nat) by enc_side.
  destruct (Z.leb_spec 0 (36 + L)); [|lia].
  destruct (Z.leb_spec (36 + L) 4294967295); [|reflexivity]. enc_norm.
  rewrite (write_at _ _ 8 8%nat ["W"; "A"; "V"; "E"]%byte) by enc_side.
  enc_norm.
  rewrite (write_at _ _ 12 12%nat ["f"; "m"; "t"; " "]%byte) by enc_side.
  enc_norm.
  rewrite (writeUInt32LE_at _ _ 16 16%nat) by enc_side.
  change ((0 <=? 16) && (16 <=? 4294967295)) with true. enc_norm.
  rewrite (writeUInt16LE_at _ _ 20 20%nat) by enc_side.
  change ((0 <=? 1) && (1 <=? 65535)) with true. enc_norm.
  rewrite (writeUInt16LE_at _ _ 22 22%nat) by enc_side.
  destruct (Z.leb_spec 0 C); [|reflexivity].
  destruct (Z.leb_spec C 65535); [|reflexivity]. enc_norm.
  rewrite (writeUInt32LE_at _ _ 24 24%nat) by enc_side.
  destruct (Z.leb_spec 0 R); [|reflexivity].
  destruct (Z.leb_spec R 4294967295); [|reflexivity]. enc_norm.
  rewrite (writeUInt32LE_at _ _ 28 28%nat) by enc_side.
  destruct (Z.leb_spec 0 (R * C * 2)); [|nia].
  destruct (Z.leb_spec (R * C * 2) 4294967295); [|reflexivity]. enc_norm.
  rewrite (writeUInt16LE_at _ _ 32 32%nat) by enc_side.
  destruct (Z.leb_spec 0 (C * 2)); [|lia].
  destruct (Z.leb_spec (C * 2) 65535); [|reflexivity]. enc_norm.
  rewrite (writeUInt16LE_at _ _ 34 34%nat) by enc_side.
  change ((0 <=? 16) && (16 <=? 65535)) with true. enc_norm.
  rewrite (write_at _ _ 36 36%nat ["d"; "a"; "t"; "a"]%byte) by enc_side.
  enc_norm.
  rewrite (writeUInt32LE_at _ _ 40 40%nat) by enc_side.
  destruct (Z.leb_spec 0 L); [|lia].
  destruct (Z.leb_spec L 4294967295); [|lia]. enc_norm.
  rewrite copy_at by (cbn [length]; lia). enc_norm.
  reflexivity.
Qed.

(** The earlier revision is the encoder at one channel. *)
Lemma pcm16ToWav_eq pcm R :
  pcm16ToWav kMaxLength pcm R =
  pcm16ToWavBuffer kMaxLength pcm
    {| sampleRate := Some R; numChannels := Some 1 |}.
Proof. reflexivity. Qed.

End EncoderFacts.

Section EncoderOutput.
Import Buffer.

Variable kMaxLength : Z.

Lemma encodable_bounds L R C :
  encodable kMaxLength L R C = true ->
  44 + L <= kMaxLength /\ 36 + L <= 4294967295
  /\ 0 <= C <= 65535 /\ 0 <= R <= 4294967295
  /\ R * C * 2 <= 4294967295 /\ C * 2 <= 65535.
Proof. unfold encodable. rewrite !andb_true_iff, !Z.leb_le. lia. Qed.

Lemma encodable_intro L R C :
  44 + L <= kMaxLength -> 36 + L <= 4294967295 ->
  0 <= R <= 4294967295 -> 0 <= C <= 32767 -> R * C * 2 <= 4294967295 ->
  encodable kMaxLength L R C = true.
Proof.
  intros. unfold encodable. rewrite !andb_true_iff, !Z.leb_le. lia.
Qed.

(** What the encoder returns, whenever it returns. *)
Lemma pcm16ToWavBuffer_output pcm options out :
  pcm16ToWavBuffer kMaxLength pcm options = Ok out ->
  let L := Z.of_nat (length pcm) in
  let R := default 16000 (sampleRate options) in
  let C := default 1 (numChannels options) in
  encodable kMaxLength L R C = true /\ out = wavHeader L R C ++ pcm.
Proof.
  intros H L R C. rewrite pcm16ToWavBuffer_spec in H. fold L R C in H.
  destruct (encodable kMaxLength L R C); [|discriminate].
  split; [reflexivity | congruence].
Qed.

Lemma length_wavHeader L R C : length (wavHeader L R C) = 44%nat.
Proof. reflexivity. Qed.

End EncoderOutput.

(** ** The container the encoder returns *)

(** C1, as the code has it.  The encoder succeeds, and returns 44 + L bytes,
    for every payload of L bytes that fits the platform's buffers and a
    32-bit ChunkSize, every sample rate R that fits 32 bits and every channel
    count C whose BlockAlign 2C and ByteRate 2RC fit their 16 and 32 bits.
    What it returns is the header followed by the payload, so that an empty
    payload gives the 44 bytes of the header alone.  The same holds for the
    earlier revision, which fixes one channel. *)
Theorem pcm16ToWavBuffer_succeeds_in_range (kMaxLength : Z) (pcm : list byte) :
  44 + Z.of_nat (length pcm) <= kMaxLength ->
  36 + Z.of_nat (length pcm) <= 4294967295 ->
  (forall options,
      let R := default 16000 (sampleRate options) in
      let C := default 1 (numChannels options) in
      0 <= R <= 4294967295 -> 0 <= C <= 32767 -> R * C * 2 <= 4294967295 ->
      exists out,
        pcm16ToWavBuffer kMaxLength pcm options = Ok out
        /\ length out = (44 + length pcm)%nat
        /\ out = wavHeader (Z.of_nat (length pcm)) R C ++ pcm)
  /\ (forall R,
        0 <= R -> R * 2 <= 4294967295 ->
        exists out,
          pcm16ToWav kMaxLength pcm R = Ok out
          /\ length out = (44 + length pcm)%nat
          /\ out = wavHeader (Z.of_nat (length pcm)) R 1 ++ pcm).
Proof.
  intros Hk HL.
  assert (Hmain : forall options,
    let R := default 16000 (sampleRate options) in
    let C := default 1 (numChannels options) in
    0 <= R <= 4294967295 -> 0 <= C <= 32767 -> R * C * 2 <= 4294967295 ->
    exists out,
      pcm16ToWavBuffer kMaxLength pcm options = Ok out
      /\ length out = (44 + length pcm)%nat
      /\ out = wavHeader (Z.of_nat (length pcm)) R C ++ pcm).
  { intros options R C HR HC HRC.
    exists (wavHeader (Z.of_nat (length pcm)) R C ++ pcm).
    rewrite pcm16ToWavBuffer_spec. fold R C.
    rewrite (encodable_intro kMaxLength _ R C Hk HL HR HC HRC).
    split; [reflexivity|]. split; [|reflexivity].
    rewrite length_app, length_wavHeader. reflexivity. }
  split; [exact Hmain|].
  intros R HR0 HR. rewrite pcm16ToWav_eq.
  apply (Hmain {| sampleRate := Some R; numChannels := Some 1 |});
    simpl; lia.
Qed.

Lemma pcm16ToWavBuffer_succeeds_in_range_witness :
  exists out,
    pcm16ToWavBuffer 9007199254740991 []
      {| sampleRate := Some 16000; numChannels := Some 1 |} = Ok out
    /\ length out = 44%nat
    /\ out = wavHeader 0 16000 1 ++ [].
Proof.
  apply (proj1 (pcm16ToWavBuffer_succeeds_in_range 9007199254740991 []
                  ltac:(simpl; lia) ltac:(simpl; lia))
           {| sampleRate := Some 16000; numChannels := Some 1 |});
    simpl; lia.
Defined.

(** C1 fails as stated: a sample rate of 2^32 does not fit the SampleRate
    field, [writeUInt32LE] throws, and no container is returned. *)
Lemma pcm16ToWavBuffer_rejects_sample_rate :
  pcm16ToWavBuffer 9007199254740991 []
    {| sampleRate := Some 4294967296; numChannels := Some 1 |}
  = Throw RangeError
  /\ ~ (exists out,
          pcm16ToWavBuffer 9007199254740991 []
            {| sampleRate := Some 4294967296; numChannels := Some 1 |}
          = Ok out
          /\ length out = 44%nat).
Proof.
  assert (H : pcm16ToWavBuffer 9007199254740991 []
                {| sampleRate := Some 4294967296; numChannels := Some 1 |}
              = Throw RangeError) by (vm_compute; reflexivity).
  split; [exact H|]. intros [out [Hout _]]. rewrite H in Hout. discriminate.
Qed.

(** The same happens to a channel count whose BlockAlign passes 16 bits. *)
Lemma pcm16ToWavBuffer_rejects_channel_count :
  pcm16ToWavBuffer 9007199254740991 []
    {| sampleRate := Some 16000; numChannels := Some 32768 |}
  = Throw RangeError.
Proof. vm_compute. reflexivity. Qed.









(** ** Asynchronous computations *)

Section IOFacts.
Import Eff.

Lemma after_inv {A} events (m : IO A) t r :
  after events m = (t, r) -> exists t', m = (t', r) /\ t = events ++ t'.
Proof.
  destruct m as [t' r']. unfold after. cbn. intros [= <- <-]. eauto.
Qed.

Lemma pure_bind {A B} (r : result A) (f : A -> IO B) :
  pure r ≫= f = match r with Ok a => f a | Throw e => throw e end.
Proof. destruct r as [a|e]; cbn; [destruct (f a)|]; reflexivity. Qed.

Lemma ok_bind {A B} events (a : A) (f : A -> IO B) :
  (events, Ok a) ≫= f = after events (f a).
Proof. cbn. destruct (f a). reflexivity. Qed.

Lemma throw_bind {A B} events e (f : A -> IO B) :
  (events, Throw e) ≫= f = (events, Throw e).
Proof. reflexivity. Qed.

Lemma after_bind {A B} events (m : IO A) (f : A -> IO B) :
  after events m ≫= f = after events (m ≫= f).
Proof.
  destruct m as [t [a|e]]; unfold after; cbn; [|reflexivity].
  destruct (f a). cbn. rewrite app_assoc. reflexivity.
Qed.

Lemma fetch_bind {B} W req (f : Response -> IO B) :
  fetch_ W req ≫= f =
  match fetch W req with
  | Ok res => after [Fetch req] (f res)
  | Throw e => ([Fetch req], Throw e)
  end.
Proof.
  unfold fetch_.
  destruct (fetch W req) as [res|e]; [apply ok_bind | reflexivity].
Qed.

Lemma try_catch_after {A} events (m : IO A) h :
  try_catch (after events m) h = after events (try_catch m h).
Proof.
  destruct m as [t [a|e]]; unfold after, try_catch; cbn; [reflexivity|].
  destruct (h e). cbn. rewrite app_assoc. reflexivity.
Qed.

Lemma try_catch_throw {A} e (h : JSError -> IO A) :
  try_catch (throw e) h = h e.
Proof. unfold try_catch, throw. destruct (h e). reflexivity. Qed.

Lemma try_catch_thrown {A} events e (h : JSError -> IO A) :
  try_catch (events, Throw e) h = after events (h e).
Proof. unfold try_catch, after. destruct (h e). reflexivity. Qed.

Lemma try_catch_bind {A B} (m : IO A) (f : A -> IO B) h :
  try_catch (m ≫= f) h =
  match m with
  | (events, Ok a) => after events (try_catch (f a) h)
  | (events, Throw e) => after events (h e)
  end.
Proof.
  destruct m as [events [a|e]].
  - rewrite ok_bind. apply try_catch_after.
  - rewrite throw_bind. apply try_catch_thrown.
Qed.

Lemma try_catch_pure_bind {A B} (r : result A) (f : A -> IO B) h :
  try_catch (pure r ≫= f) h =
  match r with Ok a => try_catch (f a) h | Throw e => h e end.
Proof.
  rewrite pure_bind. destruct r; [reflexivity | apply try_catch_throw].
Qed.

Lemma Fetch_inj a b : Fetch a = Fetch b -> a = b.
Proof. intros H. injection H. auto. Qed.

End IOFacts.

(** ** Values and their properties *)

Section ValueFacts.
Import JS.

Lemma getProp_defined v name x name' :
  getProp v name = Ok x -> exists y, getProp v name' = Ok y.
Proof. destruct v; cbn; try discriminate; eauto. Qed.

Lemma coalesce_null r x :
  r = Ok x -> coalesce r (Ok JSNull) = Ok (if nullish x then JSNull else x).
Proof. intros ->. cbn. destruct (nullish x); reflexivity. Qed.

Lemma truthy_str_nil s : truthy (JSStr s) = false -> s = [].
Proof. cbn. case_bool_decide; [auto | discriminate]. Qed.

Lemma truthy_str_cons s : truthy (JSStr s) = true -> s <> [].
Proof. cbn. case_bool_decide; [discriminate | auto]. Qed.

End ValueFacts.

(** ** The TODO analyzer *)

Section AnalyzerFacts.
Import JS Eff TodoFromSpeech.

Variable P : Platform.
Variable W : World.

(** C10.  Every value the analyzer returns is an object of exactly the
    fields is_todo, title, when and notes.  When the reply did not parse it
    is the fallback: false and three nulls.  When the reply parsed, is_todo
    is the truthiness of the parsed is_todo, a boolean, and each of title,
    when and notes is the parsed property when that is neither undefined
    nor null, and null otherwise. *)
Theorem analyzer_value text events v :
  callAzureOpenAITodoAnalyzer P W text = (events, Ok v) ->
  exists res data reply b title when notes,
    fetch W (todoAnalyzerRequest W text) = Ok res
    /\ json res = Ok data
    /\ reply_content data = Ok (JSStr reply)
    /\ v = JSObject [(js "is_todo", JSBool b); (js "title", title);
                     (js "when", when); (js "notes", notes)]
    /\ match JSON_parse P (strip_fence reply) with
       | Throw _ =>
           b = false /\ title = JSNull /\ when = JSNull /\ notes = JSNull
       | Ok parsed =>
           exists is_todo' title' when' notes',
             getProp parsed "is_todo" = Ok is_todo'
             /\ getProp parsed "title" = Ok title'
             /\ getProp parsed "when" = Ok when'
             /\ getProp parsed "notes" = Ok notes'
             /\ b = truthy is_todo'
             /\ title = (if nullish title' then JSNull else title')
             /\ when = (if nullish when' then JSNull else when')
             /\ notes = (if nullish notes' then JSNull else notes')
       end.
Proof.
  unfold callAzureOpenAITodoAnalyzer.
  destruct (missing _ || missing _ || missing _); [discriminate|].
  rewrite fetch_bind.
  destruct (fetch W (todoAnalyzerRequest W text)) as [res|e] eqn:Ef;
    [|discriminate].
  intros H. apply after_inv in H as (t' & H & _). revert H.
  destruct (ok res); cbn [negb]; [|discriminate].
  rewrite pure_bind. destruct (json res) as [data|e] eqn:Ej; [|discriminate].
  rewrite pure_bind.
  destruct (reply_content data) as [content|e] eqn:Er; [|discriminate].
  destruct (truthy content); cbn [negb]; [|discriminate].
  destruct content as [| |?|?|reply|?|?]; try discriminate.
  intros H. exists res, data, reply.
  destruct (JSON_parse P (strip_fence reply)) as [parsed|e].
  - rewrite pure_bind in H.
    destruct (getProp parsed "is_todo") as [i|?] eqn:Ei; [|discriminate].
    destruct (getProp_defined _ _ _ "title" Ei) as [ti Eti].
    destruct (getProp_defined _ _ _ "when" Ei) as [wh Ewh].
    destruct (getProp_defined _ _ _ "notes" Ei) as [no Eno].
    rewrite (coalesce_null _ _ Eti), (coalesce_null _ _ Ewh),
      (coalesce_null _ _ Eno) in H.
    rewrite !pure_bind in H. injection H as _ <-.
    exists (truthy i), (if nullish ti then JSNull else ti),
      (if nullish wh then JSNull else wh), (if nullish no then JSNull else no).
    do 4 (split; [first [reflexivity | assumption]|]).
    exists i, ti, wh, no. repeat split; try assumption; reflexivity.
  - injection H as _ <-. exists false, JSNull, JSNull, JSNull.
    do 4 (split; [first [reflexivity | assumption]|]).
    repeat split; reflexivity.
Qed.

End AnalyzerFacts.

Lemma analyzer_value_witness :
  exists res data reply b title when notes,
    fetch Example.notes_service_down
      (TodoFromSpeech.todoAnalyzerRequest Example.notes_service_down
         (js "牛乳を買いたい"))
    = Ok res
    /\ json res = Ok data
    /\ TodoFromSpeech.reply_content data = Ok (JSStr reply)
    /\ TodoFromSpeech.todo_object true (JSStr (js "牛乳を買う"))
         (JSStr (js "今日中")) JSNull
       = JSObject [(js "is_todo", JSBool b); (js "title", title);
                   (js "when", when); (js "notes", notes)]
    /\ match JSON_parse Example.platform (TodoFromSpeech.strip_fence reply)
       with
       | Throw _ =>
           b = false /\ title = JSNull /\ when = JSNull /\ notes = JSNull
       | Ok parsed =>
           exists is_todo' title' when' notes',
             JS.getProp parsed "is_todo" = Ok is_todo'
             /\ JS.getProp parsed "title" = Ok title'
             /\ JS.getProp parsed "when" = Ok when'
             /\ JS.getProp parsed "notes" = Ok notes'
             /\ b = JS.truthy is_todo'
             /\ title = (if JS.nullish title' then JSNull else title')
             /\ when = (if JS.nullish when' then JSNull else when')
             /\ notes = (if JS.nullish notes' then JSNull else notes')
       end.
Proof.
  apply (analyzer_value Example.platform Example.notes_service_down
           (js "牛乳を買いたい")
           [Fetch (TodoFromSpeech.todoAnalyzerRequest
                     Example.notes_service_down (js "牛乳を買いたい"))]).
  vm_compute. reflexivity.
Defined.

Section FallbackFacts.
Import JS Eff TodoFromSpeech.

Variable P : Platform.
Variable W : World.

(** C6, as the code has it.  When the reply text of the language model is
    not empty and, once an enclosing code fence is stripped, JSON.parse
    throws on it, the analyzer raises nothing and returns the not-a-task
    object: is_todo false, title, when and notes null. *)
Theorem analyzer_falls_back_on_unparsable_reply text res data reply err :
  missing (AZURE_OPENAI_KEY (env W)) = false ->
  missing (AZURE_OPENAI_ENDPOINT (env W)) = false ->
  missing (AZURE_OPENAI_DEPLOYMENT (env W)) = false ->
  fetch W (todoAnalyzerRequest W text) = Ok res ->
  ok res = true ->
  json res = Ok data ->
  reply_content data = Ok (JSStr reply) ->
  truthy (JSStr reply) = true ->
  JSON_parse P (strip_fence reply) = Throw err ->
  callAzureOpenAITodoAnalyzer P W text
  = ([Fetch (todoAnalyzerRequest W text)], Ok not_a_task)
  /\ not_a_task = todo_object false JSNull JSNull JSNull.
Proof.
  intros Hk He Hd Hf Hok Hj Hr Ht Hp. split; [|reflexivity].
  unfold callAzureOpenAITodoAnalyzer.
  rewrite Hk, He, Hd. cbn [orb].
  rewrite fetch_bind, Hf, Hok. cbn [negb].
  rewrite pure_bind, Hj, pure_bind, Hr, Ht. cbn [negb].
  rewrite Hp. reflexivity.
Qed.

(** An empty reply is not covered by the fallback: line 133 throws. *)
Lemma analyzer_throws_on_empty_reply text res data :
  missing (AZURE_OPENAI_KEY (env W)) = false ->
  missing (AZURE_OPENAI_ENDPOINT (env W)) = false ->
  missing (AZURE_OPENAI_DEPLOYMENT (env W)) = false ->
  fetch W (todoAnalyzerRequest W text) = Ok res ->
  ok res = true ->
  json res = Ok data ->
  reply_content data = Ok (JSStr []) ->
  callAzureOpenAITodoAnalyzer P W text
  = ([Fetch (todoAnalyzerRequest W text)], Throw empty_reply_error).
Proof.
  intros Hk He Hd Hf Hok Hj Hr.
  unfold callAzureOpenAITodoAnalyzer.
  rewrite Hk, He, Hd. cbn [orb].
  rewrite fetch_bind, Hf, Hok. cbn [negb].
  rewrite pure_bind, Hj, pure_bind, Hr. reflexivity.
Qed.

End FallbackFacts.

Lemma analyzer_falls_back_on_unparsable_reply_witness :
  TodoFromSpeech.callAzureOpenAITodoAnalyzer Example.platform
    Example.chatty_model (js "こんにちは")
  = ([Fetch (TodoFromSpeech.todoAnalyzerRequest Example.chatty_model
               (js "こんにちは"))],
     Ok TodoFromSpeech.not_a_task)
  /\ TodoFromSpeech.not_a_task
     = TodoFromSpeech.todo_object false JSNull JSNull JSNull.
Proof.
  apply (analyzer_falls_back_on_unparsable_reply Example.platform
           Example.chatty_model (js "こんにちは")
           (Example.chat_reply (js "not json"))
           (JSObject
              [(js "choices",
                JSArray
                  [JSObject
                     [(js "message",
                       JSObject [(js "role", JSStr (js "assistant"));
                                 (js "content", JSStr (js "not json"))])]])])
           (js "not json") SyntaxError);
    vm_compute; reflexivity.
Defined.

(** C6 fails as stated on the empty reply: the empty text does not parse,
    and the analyzer throws instead of returning the not-a-task object. *)
Lemma analyzer_empty_reply_is_an_error :
  JSON_parse Example.platform [] = Throw SyntaxError
  /\ (TodoFromSpeech.callAzureOpenAITodoAnalyzer Example.platform
        Example.mute_model (js "こんにちは")).2
     = Throw TodoFromSpeech.empty_reply_error
  /\ (TodoFromSpeech.callAzureOpenAITodoAnalyzer Example.platform
        Example.mute_model (js "こんにちは")).2
     <> Ok TodoFromSpeech.not_a_task.
Proof.
  assert (H : (TodoFromSpeech.callAzureOpenAITodoAnalyzer Example.platform
                 Example.mute_model (js "こんにちは")).2
              = Throw TodoFromSpeech.empty_reply_error)
    by (vm_compute; reflexivity).
  split; [vm_compute; reflexivity|]. split; [exact H|].
  rewrite H. discriminate.
Qed.

(** A reply that parses to [null] is not covered either: reading
    [parsed.is_todo] throws a TypeError. *)
Lemma analyzer_null_reply_is_an_error :
  (TodoFromSpeech.callAzureOpenAITodoAnalyzer Example.platform
     (Example.services Example.configured (Throw TypeError)
        (Ok (Example.chat_reply (js "null"))) (Throw TypeError)
        (Throw TypeError))
     (js "こんにちは")).2
  = Throw TypeError.
Proof. vm_compute. reflexivity. Qed.

(** ** Empty recognition results *)

Section PocketFacts.
Import JS Eff PocketAi.

Variable P : Platform.
Variable W : World.

Lemma pocket_stt_events wav events r :
  callAzureSpeechToText W wav = (events, r) ->
  events = [] /\ (exists e, r = Throw e)
  \/ events = [Fetch (speechToTextRequest W wav)].
Proof.
  unfold callAzureSpeechToText.
  destruct (missing _ || missing _).
  { intros [= <- <-]. left. eauto. }
  rewrite fetch_bind.
  destruct (fetch W (speechToTextRequest W wav)) as [res|e].
  2:{ intros [= <- <-]. right. reflexivity. }
  intros H. apply after_inv in H as (t' & H & ->). right.
  revert H. destruct (negb (ok res)); [intros [= <- _]; reflexivity|].
  rewrite pure_bind. destruct (json res); [|intros [= <- _]; reflexivity].
  rewrite pure_bind. destruct (JS.or _ _); intros [= <- _]; reflexivity.
Qed.

(** Whatever [callAzureSpeechToText] returns goes to the chat service next:
    after the request to the speech service come the events of
    [callAzureOpenAIChat] on the returned text. *)
Lemma pocket_ai_continues req wav events recognizedText :
  (handler P W req).1 !! 0%nat = Some (Fetch (speechToTextRequest W wav)) ->
  callAzureSpeechToText W wav = (events, Ok recognizedText) ->
  exists rest,
    (handler P W req).1
    = events ++ (callAzureOpenAIChat W recognizedText).1 ++ rest.
Proof.
  intros Hfirst Hstt. revert Hfirst. unfold handler.
  destruct (negb _); [discriminate|].
  match goal with |- context [try_catch _ ?h] => set (catch := h) end.
  assert (Hcatch : forall e, exists label r,
             catch e = ([ConsoleError label; r], Ok tt))
    by (intros e; do 2 eexists; reflexivity).
  rewrite try_catch_pure_bind.
  match goal with |- context [match ?r with Ok _ => _ | Throw _ => _ end] =>
    destruct r as [parsed|e] end.
  2:{ destruct (Hcatch e) as (? & ? & ->). discriminate. }
  rewrite try_catch_pure_bind.
  destruct (JS.or _ _) as [base64|e].
  2:{ destruct (Hcatch e) as (? & ? & ->). discriminate. }
  destruct (negb (truthy base64) || negb (TodoFromSpeech.is_string base64));
    [discriminate|].
  rewrite try_catch_pure_bind.
  match goal with |- context [match ?r with Ok _ => _ | Throw _ => _ end] =>
    destruct r as [pcmBuffer|e] end.
  2:{ destruct (Hcatch e) as (? & ? & ->). discriminate. }
  rewrite try_catch_pure_bind.
  destruct (pcm16ToWavBuffer _ _ _) as [wav'|e].
  2:{ destruct (Hcatch e) as (? & ? & ->). discriminate. }
  rewrite try_catch_bind.
  destruct (callAzureSpeechToText W wav') as [events' [v|e]] eqn:Estt'.
  - pose proof Estt' as Hev.
    apply pocket_stt_events in Hev as [[_ [? He]] | ->]; [discriminate He|].
    intros [= ->].
    rewrite Hstt in Estt'. injection Estt' as -> ->.
    rewrite try_catch_bind.
    destruct (callAzureOpenAIChat W v) as [events'' [reply|e]].
    + eexists. unfold after. cbn [fst snd]. reflexivity.
    + eexists. unfold after. cbn [fst snd]. reflexivity.
  - pose proof Estt' as Hev.
    apply pocket_stt_events in Hev as [[-> _] | ->].
    + destruct (Hcatch e) as (? & ? & ->). discriminate.
    + intros [= ->]. rewrite Hstt in Estt'. discriminate Estt'.
Qed.

End PocketFacts.

Section SpeechFacts.
Import JS Eff.

Variable W : World.

(** C8.  When the speech service answers with no recognized text, that is
    with a DisplayText and a Text that are both falsy, the two handlers
    part.  The call of the spoken-reply handler returns the placeholder
    string, and that handler goes on to the chat service with it.  The call
    of the TODO-extraction handler returns the empty string. *)
Theorem empty_recognition_diverges wav res data display text :
  missing (AZURE_SPEECH_KEY (env W)) = false ->
  missing (AZURE_SPEECH_REGION (env W)) = false ->
  fetch W (TodoFromSpeech.speechToTextRequest W wav) = Ok res ->
  ok res = true ->
  json res = Ok data ->
  getProp data "DisplayText" = Ok display -> truthy display = false ->
  getProp data "Text" = Ok text -> truthy text = false ->
  PocketAi.callAzureSpeechToText W wav
  = ([Fetch (PocketAi.speechToTextRequest W wav)],
     Ok (JSStr PocketAi.placeholder))
  /\ (forall P req,
        (PocketAi.handler P W req).1 !! 0%nat
        = Some (Fetch (PocketAi.speechToTextRequest W wav)) ->
        exists rest,
          (PocketAi.handler P W req).1
          = Fetch (PocketAi.speechToTextRequest W wav)
            :: (PocketAi.callAzureOpenAIChat W
                  (JSStr PocketAi.placeholder)).1
            ++ rest)
  /\ TodoFromSpeech.callAzureSpeechToText W wav
     = ([Fetch (TodoFromSpeech.speechToTextRequest W wav)], Ok []).
Proof.
  intros Hk Hr Hf Hok Hj Hd Hdf Ht Htf.
  assert (Hor : JS.or (getProp data "DisplayText")
                  (JS.or (getProp data "Text") (Ok (JSStr [])))
                = Ok (JSStr [])).
  { unfold JS.or. rewrite Hd. cbn. rewrite Hdf, Ht. cbn. rewrite Htf.
    reflexivity. }
  assert (Hpocket : PocketAi.callAzureSpeechToText W wav
                    = ([Fetch (PocketAi.speechToTextRequest W wav)],
                       Ok (JSStr PocketAi.placeholder))).
  { unfold PocketAi.callAzureSpeechToText.
    rewrite Hk, Hr. cbn [orb].
    change (PocketAi.speechToTextRequest W wav)
      with (TodoFromSpeech.speechToTextRequest W wav).
    rewrite fetch_bind, Hf, Hok. cbn [negb].
    rewrite pure_bind, Hj, pure_bind, Hor. reflexivity. }
  split; [exact Hpocket|]. split.
  - intros P req Hfirst.
    destruct (pocket_ai_continues P W req wav _ _ Hfirst Hpocket)
      as [rest Hrest].
    exists rest. exact Hrest.
  - unfold TodoFromSpeech.callAzureSpeechToText.
    rewrite Hk, Hr. cbn [orb].
    rewrite fetch_bind, Hf, Hok. cbn [negb].
    rewrite pure_bind, Hj, pure_bind, Hor. reflexivity.
Qed.

End SpeechFacts.

Lemma empty_recognition_diverges_witness :
  PocketAi.callAzureSpeechToText Example.silence
    (wavHeader 4 16000 1 ++ [x01; x02; x03; x04])
  = ([Fetch (PocketAi.speechToTextRequest Example.silence
               (wavHeader 4 16000 1 ++ [x01; x02; x03; x04]))],
     Ok (JSStr PocketAi.placeholder))
  /\ (exists rest,
         (PocketAi.handler Example.platform Example.silence
            Example.audio_request).1
         = Fetch (PocketAi.speechToTextRequest Example.silence
                    (wavHeader 4 16000 1 ++ [x01; x02; x03; x04]))
           :: (PocketAi.callAzureOpenAIChat Example.silence
                 (JSStr PocketAi.placeholder)).1
           ++ rest)
  /\ TodoFromSpeech.callAzureSpeechToText Example.silence
       (wavHeader 4 16000 1 ++ [x01; x02; x03; x04])
     = ([Fetch (TodoFromSpeech.speechToTextRequest Example.silence
                  (wavHeader 4 16000 1 ++ [x01; x02; x03; x04]))],
        Ok []).
Proof.
  destruct (empty_recognition_diverges Example.silence
              (wavHeader 4 16000 1 ++ [x01; x02; x03; x04])
              Example.nothing_heard
              (JSObject [(js "RecognitionStatus", JSStr (js "NoMatch"));
                         (js "DisplayText", JSStr [])])
              (JSStr []) JSUndefined)
    as (Hpocket & Hgoes_on & Htodo);
    try (vm_compute; reflexivity).
  split; [exact Hpocket|]. split; [|exact Htodo].
  apply (Hgoes_on Example.platform Example.audio_request).
  vm_compute. reflexivity.
Defined.

(** On the example request the spoken-reply handler sends the placeholder
    to the chat service as the user's message. *)
Lemma pocket_ai_passes_the_placeholder_on :
  (PocketAi.handler Example.platform Example.silence Example.audio_request).1
  !! 1%nat
  = Some (Fetch (PocketAi.chatRequest Example.silence
                   (JSStr PocketAi.placeholder))).
Proof. vm_compute. reflexivity. Qed.

(** ** The runs of the TODO-extraction handler *)

Ltac members :=
  repeat match goal with
  | H : _ ∈ _ ++ _ |- _ => apply elem_of_app in H as [H|H]
  | H : _ ∈ _ :: _ |- _ => apply elem_of_cons in H as [H|H]
  | H : _ ∈ [] |- _ => apply elem_of_nil in H; contradiction
  | H : _ ∈ TodoFromSpeech.failure _ _ _ |- _ =>
      unfold TodoFromSpeech.failure in H
  end.

Section HandlerFacts.
Import JS Eff TodoFromSpeech.

Variable P : Platform.
Variable W : World.

Lemma stt_events wav events r :
  callAzureSpeechToText W wav = (events, r) ->
  events = [] /\ (exists e, r = Throw e)
  \/ events = [Fetch (speechToTextRequest W wav)].
Proof.
  unfold callAzureSpeechToText.
  destruct (missing _ || missing _).
  { intros [= <- <-]. left. eauto. }
  rewrite fetch_bind.
  destruct (fetch W (speechToTextRequest W wav)) as [res|e].
  2:{ intros [= <- <-]. right. reflexivity. }
  intros H. apply after_inv in H as (t' & H & ->). right.
  revert H. destruct (negb (ok res)); [intros [= <- _]; reflexivity|].
  rewrite pure_bind. destruct (json res); [|intros [= <- _]; reflexivity].
  rewrite pure_bind. destruct (JS.or _ _); [|intros [= <- _]; reflexivity].
  rewrite pure_bind.
  destruct (callTrim _) as [v|]; [|intros [= <- _]; reflexivity].
  destruct v; intros [= <- _]; reflexivity.
Qed.

Lemma analyzer_events text events r :
  callAzureOpenAITodoAnalyzer P W text = (events, r) ->
  events = [] \/ events = [Fetch (todoAnalyzerRequest W text)].
Proof.
  unfold callAzureOpenAITodoAnalyzer.
  destruct (missing _ || missing _ || missing _).
  { intros [= <- <-]. left. eauto. }
  rewrite fetch_bind.
  destruct (fetch W (todoAnalyzerRequest W text)) as [res|e].
  2:{ intros [= <- <-]. right. reflexivity. }
  intros H. apply after_inv in H as (t' & H & ->). right.
  revert H. destruct (negb (ok res)); [intros [= <- _]; reflexivity|].
  rewrite pure_bind. destruct (json res); [|intros [= <- _]; reflexivity].
  rewrite pure_bind. destruct (reply_content _) as [content|];
    [|intros [= <- _]; reflexivity].
  destruct (negb (truthy content)); [intros [= <- _]; reflexivity|].
  destruct content; try (intros [= <- _]; reflexivity).
  destruct (JSON_parse P _) as [parsed|]; [|intros [= <- _]; reflexivity].
  rewrite pure_bind. destruct (getProp parsed "is_todo");
    [|intros [= <- _]; reflexivity].
  rewrite pure_bind. destruct (coalesce _ _); [|intros [= <- _]; reflexivity].
  rewrite pure_bind. destruct (coalesce _ _); [|intros [= <- _]; reflexivity].
  rewrite pure_bind. destruct (coalesce _ _); intros [= <- _]; reflexivity.
Qed.

Lemma analyzer_object text events v :
  callAzureOpenAITodoAnalyzer P W text = (events, Ok v) ->
  exists b title when notes, v = todo_object b title when notes.
Proof.
  unfold callAzureOpenAITodoAnalyzer.
  destruct (missing _ || missing _ || missing _); [discriminate|].
  rewrite fetch_bind.
  destruct (fetch W (todoAnalyzerRequest W text)) as [res|e]; [|discriminate].
  intros H. apply after_inv in H as (t' & H & _). revert H.
  destruct (negb (ok res)); [discriminate|].
  rewrite pure_bind. destruct (json res); [|discriminate].
  rewrite pure_bind. destruct (reply_content _) as [content|];
    [|discriminate].
  destruct (negb (truthy content)); [discriminate|].
  destruct content; try discriminate.
  destruct (JSON_parse P _) as [parsed|].
  2:{ intros [= _ <-]. exists false, JSNull, JSNull, JSNull. reflexivity. }
  rewrite pure_bind. destruct (getProp parsed "is_todo"); [|discriminate].
  rewrite pure_bind. destruct (coalesce _ _); [|discriminate].
  rewrite pure_bind. destruct (coalesce _ _); [|discriminate].
  rewrite pure_bind. destruct (coalesce _ _); [|discriminate].
  intros [= _ <-]. do 4 eexists. reflexivity.
Qed.

Lemma notion_cases title when notes sourceText sessionId events r :
  postTodoToNotion P W title when notes sourceText sessionId = (events, r) ->
  events = [ConsoleWarn notion_warning] /\ r = Ok false
  \/ events = [] /\ (exists e, r = Throw e)
  \/ exists children,
       let request := notionRequest W title when sourceText children in
       r = Ok (posted (fetch W request))
       /\ (events = [Fetch request]
           \/ exists label, events = [Fetch request; ConsoleError label]).
Proof.
  unfold postTodoToNotion.
  destruct (missing _ || missing _).
  { intros [= <- <-]. left. split; reflexivity. }
  rewrite pure_bind.
  destruct (notionChildren P notes sourceText sessionId) as [children|e].
  2:{ intros [= <- <-]. right. left. eauto. }
  intros H. right. right. exists children. cbn zeta.
  revert H. rewrite try_catch_bind. unfold fetch_.
  destruct (fetch W (notionRequest W title when sourceText children))
    as [res|e]; cbn [posted].
  - destruct (ok res); cbn [negb]; intros [= <- <-].
    + split; [reflexivity|]. left. reflexivity.
    + split; [reflexivity|]. right. eexists. reflexivity.
  - intros [= <- <-]. split; [reflexivity|]. right. eexists. reflexivity.
Qed.

Lemma todo_object_is_todo b t w n :
  getProp (todo_object b t w n) "is_todo" = Ok (JSBool b).
Proof. reflexivity. Qed.

Lemma todo_object_title b t w n :
  getProp (todo_object b t w n) "title" = Ok t.
Proof. reflexivity. Qed.

Lemma todo_object_when b t w n :
  getProp (todo_object b t w n) "when" = Ok w.
Proof. reflexivity. Qed.

Lemma todo_object_notes b t w n :
  getProp (todo_object b t w n) "notes" = Ok n.
Proof. reflexivity. Qed.

(** Every request is answered in one of the eight ways of [run]. *)
Lemma handler_run req : run P W req (handler P W req).1.
Proof.
  unfold handler.
  destruct (negb _).
  { apply run_rejected. discriminate. }
  match goal with |- context [try_catch _ ?h] => set (catch := h) end.
  assert (Hcatch : forall e, catch e = (failure P W e, Ok tt))
    by reflexivity.
  rewrite try_catch_pure_bind.
  match goal with |- context [match ?r with Ok _ => _ | Throw _ => _ end] =>
    destruct r as [body|e] end;
    [|rewrite Hcatch; apply run_failed_early].
  rewrite try_catch_pure_bind.
  destruct (JS.or _ _) as [mode|e]; [|rewrite Hcatch; apply run_failed_early].
  destruct (negb (is_string_eq _ _)).
  { apply run_rejected. discriminate. }
  rewrite try_catch_pure_bind.
  destruct (JS.or _ _) as [base64|e];
    [|rewrite Hcatch; apply run_failed_early].
  destruct (negb (truthy base64) || negb (is_string base64)).
  { apply run_rejected. discriminate. }
  rewrite try_catch_pure_bind.
  destruct (JS.or _ _) as [sessionId|e];
    [|rewrite Hcatch; apply run_failed_early].
  rewrite try_catch_pure_bind.
  match goal with |- context [match ?r with Ok _ => _ | Throw _ => _ end] =>
    destruct r as [pcmBuffer|e] end;
    [|rewrite Hcatch; apply run_failed_early].
  rewrite try_catch_pure_bind.
  destruct (pcm16ToWavBuffer _ _ _) as [wav|e];
    [|rewrite Hcatch; apply run_failed_early].
  rewrite try_catch_bind.
  destruct (callAzureSpeechToText W wav) as [events [text|e]] eqn:Estt.
  2:{ rewrite Hcatch. apply (run_speech_failed _ _ _ wav). exact Estt. }
  destruct (truthy (JSStr text)) eqn:Etext.
  2:{ apply truthy_str_nil in Etext. subst text.
      apply (run_silence _ _ _ wav). exact Estt. }
  apply truthy_str_cons in Etext.
  destruct (callAzureOpenAITodoAnalyzer P W text) as [events' [todo|e]]
    eqn:Etodo.
  2:{ rewrite !throw_bind. cbn [try_catch]. rewrite Hcatch.
      apply (run_analysis_failed _ _ _ wav _ text); assumption. }
  destruct (analyzer_object _ _ _ Etodo) as (b & title & when & notes & ->).
  rewrite ok_bind, todo_object_is_todo, pure_bind.
  destruct b; cbn [truthy].
  - rewrite todo_object_title, todo_object_when, todo_object_notes.
    rewrite !pure_bind.
    destruct (postTodoToNotion P W title when notes text sessionId)
      as [events'' [notionPosted|e]] eqn:Enotion.
    + rewrite ok_bind, !after_bind.
      apply (run_task _ _ _ wav _ text _ title when notes sessionId _
               notionPosted);
        assumption.
    + rewrite throw_bind, !after_bind, throw_bind.
      rewrite try_catch_after, try_catch_thrown, Hcatch.
      apply (run_notes_failed _ _ _ wav _ text _ title when notes sessionId
               _ e);
        assumption.
  - rewrite after_bind.
    apply (run_not_a_task _ _ _ wav _ text _ title when notes); assumption.
Qed.

(** The three requests are told apart by their bodies and headers. *)
Lemma speech_is_not_notion wav title when sourceText children :
  speechToTextRequest W wav <> notionRequest W title when sourceText children.
Proof. intros H. apply (f_equal body) in H. discriminate H. Qed.


Lemma speech_is_not_analysis wav text :
  speechToTextRequest W wav <> todoAnalyzerRequest W text.
Proof. intros H. apply (f_equal body) in H. discriminate H. Qed.

Lemma speech_request_inj wav wav' :
  speechToTextRequest W wav = speechToTextRequest W wav' -> wav = wav'.
Proof. intros H. apply (f_equal body) in H. injection H. auto. Qed.


(** C9.  When the text recognized in the audio the handler sent is empty,
    the handler does nothing but that one request to the speech service and
    the 200 response with an empty recognizedText, three nulls and
    notionPosted false: neither the analyzer nor the notes service is
    called. *)
Theorem silence_skips_analysis req wav events :
  Fetch (speechToTextRequest W wav) ∈ (handler P W req).1 ->
  callAzureSpeechToText W wav = (events, Ok []) ->
  (handler P W req).1
  = [Fetch (speechToTextRequest W wav);
     Respond
       (JsonResponse 200
          (JSObject [(js "recognizedText", JSStr []);
                     (js "todoTitle", JSNull);
                     (js "todoWhen", JSNull);
                     (js "todoNotes", JSNull);
                     (js "notionPosted", JSBool false)]))].
Proof.
  intros Hin Hsilent.
  pose proof (handler_run req) as Hrun. revert Hin.
  assert (Hsame : forall wav' events' r,
    callAzureSpeechToText W wav' = (events', r) ->
    Fetch (speechToTextRequest W wav) ∈ events' ->
    events' = [Fetch (speechToTextRequest W wav)] /\ r = Ok []).
  { intros wav' events' r Hstt Hin.
    pose proof Hstt as Hev.
    apply stt_events in Hev as [[-> _] | ->]; members.
    apply Fetch_inj in Hin. apply speech_request_inj in Hin. subst wav'.
    rewrite Hsilent in Hstt. injection Hstt as <- <-. split; [|reflexivity].
    apply stt_events in Hsilent as [[-> [? He]] | ->];
      [discriminate He | reflexivity]. }
  destruct Hrun as
    [ status body Hs
    | err
    | wav' events0 err Hstt
    | wav' events0 Hstt
    | wav' events0 text events' err Hstt Htext Htodo
    | wav' events0 text events' title when notes Hstt Htext Htodo
    | wav' events0 text events' title when notes sid events'' err
        Hstt Htext Htodo Hnotion
    | wav' events0 text events' title when notes sid events'' b
        Hstt Htext Htodo Hnotion ].
  all: intros Hin.
  all: try (apply analyzer_events in Htodo as [-> | ->]).
  all: try (apply notion_cases in Hnotion
              as [[-> Hr]|[[-> [? Hr]]|(ch & Hr & [-> | [label ->]])]]).
  all: members; try discriminate Hin.
  all: try (destruct (Hsame _ _ _ Hstt Hin) as [-> Hr']; first
              [ discriminate Hr'
              | injection Hr' as Hr'; congruence
              | reflexivity ]).
  all: try (apply Fetch_inj in Hin;
            first [ apply speech_is_not_notion in Hin
                  | apply speech_is_not_analysis in Hin ];
            contradiction).
Qed.

End HandlerFacts.


Lemma silence_skips_analysis_witness :
  (TodoFromSpeech.handler Example.platform Example.silence
     Example.audio_request).1
  = [Fetch (TodoFromSpeech.speechToTextRequest Example.silence
              (wavHeader 4 16000 1 ++ [x01; x02; x03; x04]));
     Respond
       (JsonResponse 200
          (JSObject [(js "recognizedText", JSStr []);
                     (js "todoTitle", JSNull);
                     (js "todoWhen", JSNull);
                     (js "todoNotes", JSNull);
                     (js "notionPosted", JSBool false)]))].
Proof.
  apply (silence_skips_analysis Example.platform Example.silence
           Example.audio_request
           (wavHeader 4 16000 1 ++ [x01; x02; x03; x04])
           [Fetch (TodoFromSpeech.speechToTextRequest Example.silence
                     (wavHeader 4 16000 1 ++ [x01; x02; x03; x04]))]).
  - apply (list_elem_of_lookup_2 _ 0). vm_compute. reflexivity.
  - vm_compute. reflexivity.
Defined.

(** The runs of the example request: the notes service down, the notes
    service not configured, and a reply that is no JSON. *)
Lemma example_notes_service_down :
  list.last
    (TodoFromSpeech.handler Example.platform Example.notes_service_down
       Example.audio_request).1
  = Some (Respond
            (TodoFromSpeech.summary (js "牛乳を買いたい")
               (JSStr (js "牛乳を買う")) (JSStr (js "今日中")) JSNull false)).
Proof. vm_compute. reflexivity. Qed.

Lemma example_chatty_model :
  list.last
    (TodoFromSpeech.handler Example.platform Example.chatty_model
       Example.audio_request).1
  = Some (Respond
            (TodoFromSpeech.summary (js "こんにちは") JSNull JSNull JSNull
               false)).
Proof. vm_compute. reflexivity. Qed.

(** * Further properties of the code *)

(** ** The encoder: its parameters, its failures, its header *)

(** X1. In every output of the encoder the field at offset 22 reads the
    channel count and the field at offset 24 reads the sample rate (lines 34
    and 35): a reader recovers both parameters from the header. The earlier
    revision always writes one channel. *)
Theorem pcm16ToWavBuffer_parameters (kMaxLength : Z) (pcm out : list byte) :
  (forall options,
      pcm16ToWavBuffer kMaxLength pcm options = Ok out ->
      Buffer.readUInt16LE out 22 = default 1 (numChannels options)
      /\ Buffer.readUInt32LE out 24 = default 16000 (sampleRate options))
  /\ (forall R,
        pcm16ToWav kMaxLength pcm R = Ok out ->
        Buffer.readUInt16LE out 22 = 1 /\ Buffer.readUInt32LE out 24 = R).
Proof.
  assert (Hmain : forall options,
    pcm16ToWavBuffer kMaxLength pcm options = Ok out ->
    Buffer.readUInt16LE out 22 = default 1 (numChannels options)
    /\ Buffer.readUInt32LE out 24 = default 16000 (sampleRate options)).
  { intros options H.
    destruct (pcm16ToWavBuffer_output _ _ _ _ H) as [He ->].
    apply encodable_bounds in He. split.
    - change (Buffer.readUInt16LE _ 22)
        with (Buffer.le_uint (u16le (default 1 (numChannels options)))).
      apply le_uint_u16le. lia.
    - change (Buffer.readUInt32LE _ 24)
        with (Buffer.le_uint (u32le (default 16000 (sampleRate options)))).
      apply le_uint_u32le. lia. }
  split; [exact Hmain|].
  intros R H. rewrite pcm16ToWav_eq in H. exact (Hmain _ H).
Qed.

Lemma pcm16ToWavBuffer_parameters_witness :
  Buffer.readUInt16LE (wavHeader 2 44100 2 ++ [x01; x02]) 22 = 2
  /\ Buffer.readUInt32LE (wavHeader 2 44100 2 ++ [x01; x02]) 24 = 44100.
Proof.
  apply (proj1 (pcm16ToWavBuffer_parameters 9007199254740991 [x01; x02]
                  (wavHeader 2 44100 2 ++ [x01; x02]))
           {| sampleRate := Some 44100; numChannels := Some 2 |}).
  vm_compute. reflexivity.
Defined.

(** X2. The fields of every header the encoder writes agree with each other,
    as a reader of the format expects: ByteRate is SampleRate times
    BlockAlign, BlockAlign is NumChannels times the two bytes of a sample,
    ChunkSize is 36 more than Subchunk2Size, and the whole output is 8 bytes
    longer than ChunkSize says. *)
Theorem pcm16ToWavBuffer_header_is_consistent
  (kMaxLength : Z) (pcm out : list byte) (options : Options) :
  pcm16ToWavBuffer kMaxLength pcm options = Ok out ->
  Buffer.readUInt32LE out 28
  = Buffer.readUInt32LE out 24 * Buffer.readUInt16LE out 32
  /\ Buffer.readUInt16LE out 32
     = Buffer.readUInt16LE out 22 * (Buffer.readUInt16LE out 34 / 8)
  /\ Buffer.readUInt32LE out 4 = 36 + Buffer.readUInt32LE out 40
  /\ Z.of_nat (length out) = Buffer.readUInt32LE out 4 + 8.
Proof.
  intros H.
  destruct (pcm16ToWavBuffer_output _ _ _ _ H) as [He ->].
  set (L := Z.of_nat (length pcm)) in *.
  set (R := default 16000 (sampleRate options)) in *.
  set (C := default 1 (numChannels options)) in *.
  apply encodable_bounds in He.
  assert (H28 : Buffer.readUInt32LE (wavHeader L R C ++ pcm) 28 = R * C * 2).
  { change (Buffer.readUInt32LE _ 28)
      with (Buffer.le_uint (u32le (R * C * 2))).
    apply le_uint_u32le. nia. }
  assert (H24 : Buffer.readUInt32LE (wavHeader L R C ++ pcm) 24 = R).
  { change (Buffer.readUInt32LE _ 24) with (Buffer.le_uint (u32le R)).
    apply le_uint_u32le. lia. }
  assert (H32 : Buffer.readUInt16LE (wavHeader L R C ++ pcm) 32 = C * 2).
  { change (Buffer.readUInt16LE _ 32) with (Buffer.le_uint (u16le (C * 2))).
    apply le_uint_u16le. lia. }
  assert (H22 : Buffer.readUInt16LE (wavHeader L R C ++ pcm) 22 = C).
  { change (Buffer.readUInt16LE _ 22) with (Buffer.le_uint (u16le C)).
    apply le_uint_u16le. lia. }
  assert (H34 : Buffer.readUInt16LE (wavHeader L R C ++ pcm) 34 = 16)
    by reflexivity.
  assert (H4 : Buffer.readUInt32LE (wavHeader L R C ++ pcm) 4 = 36 + L).
  { change (Buffer.readUInt32LE _ 4) with (Buffer.le_uint (u32le (36 + L))).
    apply le_uint_u32le. lia. }
  assert (H40 : Buffer.readUInt32LE (wavHeader L R C ++ pcm) 40 = L).
  { change (Buffer.readUInt32LE _ 40) with (Buffer.le_uint (u32le L)).
    apply le_uint_u32le. lia. }
  rewrite H28, H24, H32, H22, H34, H4, H40.
  rewrite length_app, length_wavHeader.
  change (16 / 8) with 2. unfold L. lia.
Qed.

Lemma pcm16ToWavBuffer_header_is_consistent_witness :
  let out := wavHeader 2 44100 2 ++ [x01; x02] in
  Buffer.readUInt32LE out 28
  = Buffer.readUInt32LE out 24 * Buffer.readUInt16LE out 32
  /\ Buffer.readUInt16LE out 32
     = Buffer.readUInt16LE out 22 * (Buffer.readUInt16LE out 34 / 8)
  /\ Buffer.readUInt32LE out 4 = 36 + Buffer.readUInt32LE out 40
  /\ Z.of_nat (length out) = Buffer.readUInt32LE out 4 + 8.
Proof.
  apply (pcm16ToWavBuffer_header_is_consistent 9007199254740991 [x01; x02]
           (wavHeader 2 44100 2 ++ [x01; x02])
           {| sampleRate := Some 44100; numChannels := Some 2 |}).
  vm_compute. reflexivity.
Defined.

(** X3. The encoder fails in one way only, with a RangeError, and exactly
    when the output would pass the platform's buffer limit or a value would
    not fit its field: ChunkSize above 2^32 - 1, a channel count that is
    negative or whose BlockAlign passes 16 bits, a sample rate that is
    negative or above 2^32 - 1, or a ByteRate above 2^32 - 1. It never
    returns a wrapped or truncated field. *)
Theorem pcm16ToWavBuffer_fails_exactly
  (kMaxLength : Z) (pcm : list byte) (options : Options) :
  let L := Z.of_nat (length pcm) in
  let R := default 16000 (sampleRate options) in
  let C := default 1 (numChannels options) in
  let out_of_range :=
    kMaxLength < 44 + L \/ 4294967295 < 36 + L \/ C < 0 \/ 32767 < C
    \/ R < 0 \/ 4294967295 < R \/ 4294967295 < R * C * 2 in
  (forall e, pcm16ToWavBuffer kMaxLength pcm options = Throw e ->
             e = RangeError /\ out_of_range)
  /\ (out_of_range ->
      pcm16ToWavBuffer kMaxLength pcm options = Throw RangeError).
Proof.
  intros L R C out_of_range. rewrite pcm16ToWavBuffer_spec. fold L R C.
  destruct (encodable kMaxLength L R C) eqn:He.
  - apply encodable_bounds in He. split; [discriminate|].
    unfold out_of_range. intros H. exfalso. lia.
  - split; [|reflexivity]. intros e [= <-]. split; [reflexivity|].
    unfold out_of_range.
    destruct (Z.lt_ge_cases kMaxLength (44 + L)); [tauto|].
    destruct (Z.lt_ge_cases 4294967295 (36 + L)); [tauto|].
    destruct (Z.lt_ge_cases C 0); [tauto|].
    destruct (Z.lt_ge_cases 32767 C); [tauto|].
    destruct (Z.lt_ge_cases R 0); [tauto|].
    destruct (Z.lt_ge_cases 4294967295 R); [tauto|].
    destruct (Z.lt_ge_cases 4294967295 (R * C * 2)); [tauto|].
    exfalso. rewrite encodable_intro in He by lia. discriminate.
Qed.

Lemma pcm16ToWavBuffer_fails_exactly_witness :
  pcm16ToWavBuffer 1000 (replicate 957 x00)
    {| sampleRate := None; numChannels := None |}
  = Throw RangeError.
Proof.
  apply (proj2 (pcm16ToWavBuffer_fails_exactly 1000 (replicate 957 x00)
                  {| sampleRate := None; numChannels := None |})).
  left. vm_compute. reflexivity.
Defined.

(** X4. The header depends on nothing but the length of the payload, the
    sample rate and the channel count: two payloads of one length, encoded
    with the same options, get the same first 44 bytes. And the encoder
    loses nothing: two payloads that are encoded to the same output, under
    whatever options, are the same payload. *)
Theorem pcm16ToWavBuffer_header_and_payload
  (kMaxLength : Z) (pcm pcm' out out' : list byte) (options options' : Options) :
  pcm16ToWavBuffer kMaxLength pcm options = Ok out ->
  pcm16ToWavBuffer kMaxLength pcm' options' = Ok out' ->
  (length pcm = length pcm' -> options = options' ->
   take 44 out = take 44 out')
  /\ (out = out' -> pcm = pcm').
Proof.
  intros H H'.
  destruct (pcm16ToWavBuffer_output _ _ _ _ H) as [_ ->].
  destruct (pcm16ToWavBuffer_output _ _ _ _ H') as [_ ->].
  split.
  - intros Hlen <-. rewrite Hlen. reflexivity.
  - intros Heq. apply (f_equal (drop 44)) in Heq. exact Heq.
Qed.

Lemma pcm16ToWavBuffer_header_and_payload_witness :
  take 44 (wavHeader 2 16000 1 ++ [x01; x02])
  = take 44 (wavHeader 2 16000 1 ++ [x03; x04]).
Proof.
  apply (proj1 (pcm16ToWavBuffer_header_and_payload 9007199254740991
                  [x01; x02] [x03; x04]
                  (wavHeader 2 16000 1 ++ [x01; x02])
                  (wavHeader 2 16000 1 ++ [x03; x04])
                  {| sampleRate := None; numChannels := None |}
                  {| sampleRate := None; numChannels := None |}
                  ltac:(vm_compute; reflexivity)
                  ltac:(vm_compute; reflexivity)));
    reflexivity.
Defined.

(** ** Strings: trimming, searching, replacing *)

Section StringFacts.
Import JS.

Lemma trimStart_split s : exists sp, s = sp ++ trimStart s /\ blank sp.
Proof.
  induction s as [|u s IH]; [exists []; split; [reflexivity|constructor]|].
  cbn [trimStart]. destruct (is_space u) eqn:Eu.
  - destruct IH as (sp & Hs & Hsp). exists (u :: sp). split.
    + cbn. f_equal. exact Hs.
    + constructor; assumption.
  - exists []. split; [reflexivity | constructor].
Qed.

Lemma trimStart_head s u : head (trimStart s) = Some u -> is_space u = false.
Proof.
  induction s as [|v s IH]; [discriminate|].
  cbn [trimStart]. destruct (is_space v) eqn:Ev; [exact IH|].
  intros [= <-]. exact Ev.
Qed.

Lemma trimStart_fixed s :
  (forall u, head s = Some u -> is_space u = false) -> trimStart s = s.
Proof.
  destruct s as [|u s]; [reflexivity|]. intros H. cbn [trimStart].
  rewrite (H u eq_refl). reflexivity.
Qed.

Lemma trimStart_blank s : trimStart s = [] <-> blank s.
Proof.
  split.
  - intros H. destruct (trimStart_split s) as (sp & Hs & Hsp).
    rewrite H, app_nil_r in Hs. subst sp. exact Hsp.
  - induction 1 as [|u s Hu _ IH]; [reflexivity|].
    cbn [trimStart]. rewrite Hu. exact IH.
Qed.

Lemma trimStart_last s u :
  list.last (trimStart s) = Some u -> list.last s = Some u.
Proof.
  destruct (trimStart_split s) as (sp & Hs & _). intros H.
  rewrite Hs. destruct (trimStart s) as [|v t] eqn:Et; [discriminate|].
  rewrite last_app, H. reflexivity.
Qed.

Lemma trim_head s u : head (trim s) = Some u -> is_space u = false.
Proof.
  unfold trim. rewrite head_reverse. intros H.
  apply trimStart_last in H. rewrite last_reverse in H.
  exact (trimStart_head _ _ H).
Qed.

Lemma trim_last s u : list.last (trim s) = Some u -> is_space u = false.
Proof. unfold trim. rewrite last_reverse. apply trimStart_head. Qed.

Lemma trim_fixed s :
  (forall u, head s = Some u -> is_space u = false) ->
  (forall u, list.last s = Some u -> is_space u = false) ->
  trim s = s.
Proof.
  intros Hh Hl. unfold trim. rewrite (trimStart_fixed s Hh).
  rewrite trimStart_fixed; [apply reverse_involutive|].
  intros u. rewrite head_reverse. apply Hl.
Qed.

Lemma trim_idem s : trim (trim s) = trim s.
Proof. apply trim_fixed; [apply trim_head | apply trim_last]. Qed.

Lemma blank_reverse s : blank (reverse s) <-> blank s.
Proof. unfold blank. rewrite Forall_reverse. reflexivity. Qed.

Lemma trim_blank s : trim s = [] <-> blank s.
Proof.
  unfold trim. split.
  - intros H. apply (f_equal reverse) in H.
    rewrite reverse_involutive in H. cbn in H.
    apply trimStart_blank in H. apply (proj1 (blank_reverse _)) in H.
    destruct (trimStart s) as [|u t] eqn:Et; [apply trimStart_blank, Et|].
    apply Forall_cons_1 in H as [Hu _].
    rewrite (trimStart_head s u) in Hu; [discriminate|].
    rewrite Et. reflexivity.
  - intros H. apply trimStart_blank in H. rewrite H. reflexivity.
Qed.

(** Searching *)

Lemma startsWith_nil s : startsWith s [] = true.
Proof. destruct s; reflexivity. Qed.

Lemma startsWith_app prefix rest : startsWith (prefix ++ rest) prefix = true.
Proof.
  induction prefix as [|p prefix IH]; [destruct rest; reflexivity|].
  cbn. rewrite N.eqb_refl. exact IH.
Qed.

Lemma startsWith_length s prefix :
  startsWith s prefix = true -> (length prefix <= length s)%nat.
Proof.
  revert s. induction prefix as [|p prefix IH]; intros s;
    [cbn [length]; lia|].
  destruct s as [|u s]; [discriminate|]. cbn [startsWith length].
  intros H. apply andb_true_iff in H as [_ H]. apply IH in H. lia.
Qed.

Lemma indexOf_from_unit pre c rest i :
  c ∉ pre ->
  indexOf_from (pre ++ c :: rest) [c] i = i + Z.of_nat (length pre).
Proof.
  revert i. induction pre as [|u pre IH]; intros i Hc.
  - cbn [app indexOf_from startsWith length].
    rewrite N.eqb_refl, startsWith_nil. cbn [andb]. lia.
  - apply not_elem_of_cons in Hc as [Hu Hc].
    cbn [app indexOf_from startsWith].
    destruct (N.eqb_spec c u) as [->|_]; [contradiction|].
    cbn [andb]. rewrite IH by exact Hc. cbn [length]. lia.
Qed.

Lemma lastIndexOf_from_short s pattern i last :
  (length s < length pattern)%nat ->
  lastIndexOf_from s pattern i last = last.
Proof.
  revert i last. induction s as [|u s IH]; intros i last Hlen.
  - cbn. destruct pattern; [cbn in Hlen; lia | reflexivity].
  - cbn [lastIndexOf_from].
    destruct (startsWith (u :: s) pattern) eqn:E.
    + apply startsWith_length in E. lia.
    + apply IH. cbn in Hlen. lia.
Qed.

Lemma lastIndexOf_from_end pre pattern i last :
  pattern <> [] ->
  lastIndexOf_from (pre ++ pattern) pattern i last
  = i + Z.of_nat (length pre).
Proof.
  intros Hp. revert i last. induction pre as [|u pre IH]; intros i last.
  - cbn [app length]. destruct pattern as [|p pattern]; [contradiction|].
    cbn [lastIndexOf_from].
    pose proof (startsWith_app (p :: pattern) []) as Hs.
    rewrite app_nil_r in Hs. rewrite Hs.
    rewrite lastIndexOf_from_short by (cbn [length]; lia). lia.
  - cbn [app lastIndexOf_from]. rewrite IH. cbn [length]. lia.
Qed.

Lemma substring_range s a b :
  (a <= b <= length s)%nat ->
  substring s (Z.of_nat a) (Z.of_nat b) = take (b - a) (drop a s).
Proof.
  intros H. unfold substring.
  rewrite (Z.max_l (Z.of_nat a)), (Z.max_l (Z.of_nat b)) by lia.
  rewrite (Z.min_l (Z.of_nat a)), (Z.min_l (Z.of_nat b)) by lia.
  rewrite Z.min_l, Z.max_r by lia.
  rewrite <- Nat2Z.inj_sub, !Nat2Z.id by lia. reflexivity.
Qed.

(** Replacing *)

Lemma replaceAll_app s t c by_ :
  replaceAll (s ++ t) c by_ = replaceAll s c by_ ++ replaceAll t c by_.
Proof. apply flat_map_app. Qed.

Lemma replaceAll_other s c by_ : c ∉ s -> replaceAll s c by_ = s.
Proof.
  induction s as [|u s IH]; [reflexivity|].
  intros H. apply not_elem_of_cons in H as [Hu Hs].
  cbn. destruct (N.eqb_spec u c) as [->|_]; [contradiction|].
  cbn. f_equal. exact (IH Hs).
Qed.

End StringFacts.

(** ** Escaping text for SSML (api/pocket-ai.js) *)

Ltac listed :=
  repeat (apply elem_of_cons; first [left; reflexivity | right]).

Section EscapeFacts.
Import JS PocketAi.

Lemma escapeForXml_chain text :
  escapeForXml text
  = replaceAll
      (replaceAll
         (replaceAll
            (replaceAll (replaceAll text 38 (js "&amp;")) 60 (js "&lt;"))
            62 (js "&gt;"))
         34 (js "&quot;"))
      39 (js "&apos;").
Proof. unfold escapeForXml. destruct text; reflexivity. Qed.

Lemma escapeForXml_app a b :
  escapeForXml (a ++ b) = escapeForXml a ++ escapeForXml b.
Proof. rewrite !escapeForXml_chain, !replaceAll_app. reflexivity. Qed.

Lemma escapeForXml_unit u :
  escapeForXml [u]
  = (if u =? 38 then js "&amp;"
     else if u =? 60 then js "&lt;"
     else if u =? 62 then js "&gt;"
     else if u =? 34 then js "&quot;"
     else if u =? 39 then js "&apos;"
     else [u])%N.
Proof.
  rewrite escapeForXml_chain.
  destruct (N.eqb_spec u 38) as [->|E38]; [vm_compute; reflexivity|].
  destruct (N.eqb_spec u 60) as [->|E60]; [vm_compute; reflexivity|].
  destruct (N.eqb_spec u 62) as [->|E62]; [vm_compute; reflexivity|].
  destruct (N.eqb_spec u 34) as [->|E34]; [vm_compute; reflexivity|].
  destruct (N.eqb_spec u 39) as [->|E39]; [vm_compute; reflexivity|].
  assert (Hother : forall c by_, u <> c -> replaceAll [u] c by_ = [u]).
  { intros c by_ Hc. apply replaceAll_other. intros H.
    apply list_elem_of_singleton in H. congruence. }
  rewrite !Hother by assumption. reflexivity.
Qed.

Lemma escapeForXml_cons u text :
  escapeForXml (u :: text) = escapeForXml [u] ++ escapeForXml text.
Proof. apply (escapeForXml_app [u] text). Qed.

Lemma entity_names name :
  name ∈ ["amp"; "lt"; "gt"; "quot"; "apos"]%string ->
  38%N ∉ js name ++ js ";".
Proof.
  intros H.
  repeat (apply elem_of_cons in H as [->|H];
          [apply (bool_decide_unpack _); vm_compute; exact I|]).
  apply elem_of_nil in H. contradiction.
Qed.

Lemma escaped_unit u :
  (exists name, name ∈ ["amp"; "lt"; "gt"; "quot"; "apos"]%string
                /\ escapeForXml [u] = 38%N :: js name ++ js ";")
  \/ (escapeForXml [u] = [u] /\ u <> 38%N /\ u <> 60%N /\ u <> 62%N
      /\ u <> 34%N /\ u <> 39%N).
Proof.
  rewrite escapeForXml_unit.
  destruct (N.eqb_spec u 38);
    [left; exists "amp"%string; split; [listed | reflexivity]|].
  destruct (N.eqb_spec u 60);
    [left; exists "lt"%string; split; [listed | reflexivity]|].
  destruct (N.eqb_spec u 62);
    [left; exists "gt"%string; split; [listed | reflexivity]|].
  destruct (N.eqb_spec u 34);
    [left; exists "quot"%string; split; [listed | reflexivity]|].
  destruct (N.eqb_spec u 39);
    [left; exists "apos"%string; split; [listed | reflexivity]|].
  right. repeat split; assumption.
Qed.

Lemma entity_amp name before rest :
  38%N ∉ js name ++ js ";" ->
  38%N :: js name ++ js ";" = before ++ 38%N :: rest ->
  before = [] /\ rest = js name ++ js ";".
Proof.
  intros Hn H. destruct before as [|b before].
  - injection H as <-. split; reflexivity.
  - injection H as <- H. exfalso. apply Hn. rewrite H.
    apply elem_of_app. right. left.
Qed.

Lemma escapeForXml_keeps_out u text :
  (u = 60 \/ u = 62 \/ u = 34 \/ u = 39)%N -> u ∉ escapeForXml text.
Proof.
  intros Hu. induction text as [|v text IH]; intros Hin.
  { apply elem_of_nil in Hin. contradiction. }
  rewrite escapeForXml_cons in Hin.
  apply elem_of_app in Hin as [Hin|Hin]; [|exact (IH Hin)].
  destruct (escaped_unit v) as [(name & Hname & Hv) | (Hv & _ & Hrest)];
    rewrite Hv in Hin.
  - repeat (apply elem_of_cons in Hname as [->|Hname];
            [vm_compute in Hin;
             repeat (apply elem_of_cons in Hin as [->|Hin];
                     [exfalso; clear -Hu; intuition congruence|]);
             apply elem_of_nil in Hin; contradiction|]).
    apply elem_of_nil in Hname. contradiction.
  - apply list_elem_of_singleton in Hin. subst v. tauto.
Qed.

End EscapeFacts.

(** X5. The five replacements of [escapeForXml], made one after the other,
    come to one pass over the text that puts [&amp;], [&lt;], [&gt;],
    [&quot;] and [&apos;] for the five characters and keeps every other code
    unit: the ampersands of the entities written by an earlier replacement
    are not escaped again, because [&] is replaced first. *)
Theorem escapeForXml_is_one_pass (text : JSString) :
  PocketAi.escapeForXml text
  = flat_map
      (fun u =>
         (if u =? 38 then js "&amp;"
          else if u =? 60 then js "&lt;"
          else if u =? 62 then js "&gt;"
          else if u =? 34 then js "&quot;"
          else if u =? 39 then js "&apos;"
          else [u])%N)
      text.
Proof.
  induction text as [|u text IH]; [reflexivity|].
  rewrite escapeForXml_cons, escapeForXml_unit, IH. reflexivity.
Qed.

(** X6. What [escapeForXml] returns can stand inside an SSML element or a
    quoted attribute: it holds no [<], [>], double or single quote, and
    every [&] in it begins one of the five entities. A text without the five
    characters comes back unchanged. *)
Theorem escapeForXml_output_is_safe (text : JSString) :
  (forall u, u ∈ PocketAi.escapeForXml text ->
             u <> 60%N /\ u <> 62%N /\ u <> 34%N /\ u <> 39%N)
  /\ (forall before rest,
         PocketAi.escapeForXml text = before ++ 38%N :: rest ->
         exists name rest',
           name ∈ ["amp"; "lt"; "gt"; "quot"; "apos"]%string
           /\ rest = js name ++ js ";" ++ rest')
  /\ ((forall u, u ∈ text ->
          u <> 38%N /\ u <> 60%N /\ u <> 62%N /\ u <> 34%N /\ u <> 39%N) ->
      PocketAi.escapeForXml text = text).
Proof.
  split; [|split].
  - induction text as [|u text IH]; intros v Hv.
    { apply elem_of_nil in Hv. contradiction. }
    rewrite escapeForXml_cons in Hv.
    apply elem_of_app in Hv as [Hv|Hv]; [|exact (IH v Hv)].
    destruct (escaped_unit u) as [(name & Hname & Hu) | (Hu & _ & Hrest)];
      rewrite Hu in Hv.
    + repeat (apply elem_of_cons in Hname as [->|Hname];
              [vm_compute in Hv;
               repeat (apply elem_of_cons in Hv as [->|Hv];
                       [repeat split; discriminate|]);
               apply elem_of_nil in Hv; contradiction|]).
      apply elem_of_nil in Hname. contradiction.
    + apply list_elem_of_singleton in Hv. subst v. exact Hrest.
  - induction text as [|u text IH]; intros before rest H.
    { destruct before; discriminate H. }
    rewrite escapeForXml_cons in H.
    apply app_eq_app in H as [l [[H1 H2] | [H1 H2]]].
    2:{ exact (IH _ _ H2). }
    destruct l as [|x l]; [exact (IH [] rest (eq_sym H2))|].
    injection H2 as <- ->.
    destruct (escaped_unit u) as [(name & Hname & Hu) | (Hu & Hne & _)];
      rewrite Hu in H1.
    + apply entity_amp in H1 as [_ ->]; [|exact (entity_names _ Hname)].
      exists name, (PocketAi.escapeForXml text). split; [exact Hname|].
      rewrite <- app_assoc. reflexivity.
    + destruct before as [|b before].
      * injection H1 as ->. contradiction.
      * injection H1 as _ H1. destruct before; discriminate H1.
  - intros Hsafe. induction text as [|u text IH]; [reflexivity|].
    rewrite escapeForXml_cons, IH, escapeForXml_unit.
    + destruct (Hsafe u) as (H1 & H2 & H3 & H4 & H5); [left|].
      apply N.eqb_neq in H1, H2, H3, H4, H5.
      rewrite H1, H2, H3, H4, H5. reflexivity.
    + intros v Hv. apply Hsafe. right. exact Hv.
Qed.

Lemma escapeForXml_output_is_safe_witness :
  PocketAi.escapeForXml (js "hello") = js "hello".
Proof.
  apply (proj2 (proj2 (escapeForXml_output_is_safe (js "hello")))).
  intros u Hu. vm_compute in Hu.
  repeat (apply elem_of_cons in Hu as [->|Hu]; [repeat split; discriminate|]).
  apply elem_of_nil in Hu. contradiction.
Defined.

(** ** What the services answered (api/todo-from-speech.js) *)

Section ResultFacts.

Lemma bind_ok {A B} (m : result A) (f : A -> result B) y :
  m ≫= f = Ok y -> exists x, m = Ok x /\ f x = Ok y.
Proof. destruct m as [x|e]; [eauto | discriminate]. Qed.

Lemma bind_throw {A B} (m : result A) (f : A -> result B) e :
  m ≫= f = Throw e -> m = Throw e \/ exists x, m = Ok x /\ f x = Throw e.
Proof.
  destruct m as [x|e']; intros H; [right; eauto|].
  cbn in H. injection H as ->. left. reflexivity.
Qed.

End ResultFacts.

Section ReplyFacts.
Import JS TodoFromSpeech.

Lemma getProp_throws v name e : getProp v name = Throw e -> e = TypeError.
Proof. destruct v; cbn; congruence. Qed.

Lemma getIndex_throws v i e : getIndex v i = Throw e -> e = TypeError.
Proof. destruct v; cbn; congruence. Qed.

Lemma optProp_throws v name e : optProp v name = Throw e -> e = TypeError.
Proof.
  unfold optProp. destruct (nullish v); [discriminate | apply getProp_throws].
Qed.

Lemma optIndex_throws v i e : optIndex v i = Throw e -> e = TypeError.
Proof.
  unfold optIndex. destruct (nullish v); [discriminate | apply getIndex_throws].
Qed.

Lemma callTrim_throws v e : callTrim v = Throw e -> e = TypeError.
Proof. destruct v; cbn; congruence. Qed.

Lemma optTrim_throws v e : optTrim v = Throw e -> e = TypeError.
Proof.
  unfold optTrim. destruct (nullish v); [discriminate | apply callTrim_throws].
Qed.

Lemma optTrim_value v x :
  optTrim v = Ok x -> x = JSUndefined \/ exists s, x = JSStr (trim s).
Proof.
  unfold optTrim. destruct (nullish v); [intros [= <-]; left; reflexivity|].
  destruct v; cbn; try discriminate. intros [= <-]. right. eauto.
Qed.

Lemma or_value a b x :
  JS.or a b = Ok x ->
  a = Ok x /\ truthy x = true
  \/ exists y, a = Ok y /\ truthy y = false /\ b = Ok x.
Proof.
  unfold JS.or. intros H. apply bind_ok in H as (y & Ha & H).
  destruct (truthy y) eqn:Ey.
  - injection H as <-. left. split; assumption.
  - right. exists y. repeat split; assumption.
Qed.

Lemma or_throws a b e :
  JS.or a b = Throw e -> a = Throw e \/ b = Throw e.
Proof.
  unfold JS.or. intros H. apply bind_throw in H as [H | (y & _ & H)];
    [left; exact H|].
  destruct (truthy y); [discriminate | right; exact H].
Qed.

Ltac thrown H :=
  repeat (apply bind_throw in H as [H | (? & _ & H)];
          [first [ apply getProp_throws in H | apply optIndex_throws in H
                 | apply optProp_throws in H ]; exact H|]);
  apply optTrim_throws in H; exact H.

Ltac returned H :=
  repeat (apply bind_ok in H as (? & _ & H)); apply optTrim_value in H.

Lemma truthy_trimmed x :
  (x = JSUndefined \/ exists s, x = JSStr (trim s)) ->
  truthy x = true -> exists s, x = JSStr s /\ s <> [] /\ trim s = s.
Proof.
  intros [-> | [s ->]] Hx; [discriminate|].
  exists (trim s). split; [reflexivity|].
  split; [exact (truthy_str_cons _ Hx) | apply trim_idem].
Qed.

Lemma reply_content_value data v :
  reply_content data = Ok v ->
  v = JSStr [] \/ exists s, v = JSStr s /\ s <> [] /\ trim s = s.
Proof.
  unfold reply_content. intros H.
  apply or_value in H as [[H Hv] | (y & _ & _ & H)].
  { right. returned H. exact (truthy_trimmed _ H Hv). }
  apply or_value in H as [[H Hv] | (z & _ & _ & H)].
  { right. returned H. exact (truthy_trimmed _ H Hv). }
  injection H as <-. left. reflexivity.
Qed.

Lemma reply_content_throws data e :
  reply_content data = Throw e -> e = TypeError.
Proof.
  unfold reply_content. intros H.
  apply or_throws in H as [H|H]; [thrown H|].
  apply or_throws in H as [H|H]; [thrown H | discriminate H].
Qed.

End ReplyFacts.

(** X7. The reply read from a chat completion is always a string, and one
    without white space at either end: the content of the first choice's
    [message], or of the first of its [messages], trimmed, or the empty
    string when neither is there. Reading it fails only with a TypeError, as
    when the response is [null] or a content is not a string. *)
Theorem reply_content_is_trimmed_text (data : JSValue) :
  (forall v, TodoFromSpeech.reply_content data = Ok v ->
             exists s, v = JSStr s /\ JS.trim s = s)
  /\ (forall e, TodoFromSpeech.reply_content data = Throw e -> e = TypeError).
Proof.
  split.
  - intros v H. apply reply_content_value in H as [-> | (s & -> & _ & Hs)].
    + exists []. split; reflexivity.
    + exists s. split; [reflexivity | exact Hs].
  - apply reply_content_throws.
Qed.

Lemma reply_content_is_trimmed_text_witness :
  exists s,
    JSStr (js "やあ") = JSStr s /\ JS.trim s = s.
Proof.
  apply (proj1 (reply_content_is_trimmed_text
                  (JSObject
                     [(js "choices",
                       JSArray
                         [JSObject
                            [(js "message",
                              JSObject
                                [(js "content", JSStr (js " やあ "))])]])]))).
  vm_compute. reflexivity.
Defined.

(** X8. A reply that is a fenced block is unwrapped before it is parsed:
    from three backticks, a language tag without a line break, a line break,
    the body and three closing backticks, [strip_fence] keeps the body with
    the white space around it removed, whatever the body holds. A reply that
    does not begin with three backticks is left as it is. *)
Theorem strip_fence_unwraps (tag body content : JSString) :
  (10%N ∉ tag ->
   TodoFromSpeech.strip_fence
     (js "```" ++ tag ++ [10%N] ++ body ++ js "```")
   = JS.trim body)
  /\ (JS.startsWith content (js "```") = false ->
      TodoFromSpeech.strip_fence content = content).
Proof.
  split.
  2:{ intros H. unfold TodoFromSpeech.strip_fence. rewrite H. reflexivity. }
  intros Htag. unfold TodoFromSpeech.strip_fence.
  set (fence := js "```").
  assert (Hlen : length fence = 3%nat) by reflexivity.
  assert (Hnl : 10%N ∉ fence ++ tag).
  { intros H. apply elem_of_app in H as [H|H]; [|contradiction].
    vm_compute in H.
    repeat (apply elem_of_cons in H as [H|H]; [discriminate H|]).
    apply elem_of_nil in H. contradiction. }
  rewrite startsWith_app.
  assert (Hfirst :
    JS.indexOf (fence ++ tag ++ [10%N] ++ body ++ fence) [10%N]
    = Z.of_nat (3 + length tag)).
  { unfold JS.indexOf.
    replace (fence ++ tag ++ [10%N] ++ body ++ fence)
      with ((fence ++ tag) ++ 10%N :: (body ++ fence))
      by (rewrite <- !app_assoc; reflexivity).
    rewrite indexOf_from_unit by exact Hnl.
    rewrite length_app, Hlen. lia. }
  assert (Hlast :
    JS.lastIndexOf (fence ++ tag ++ [10%N] ++ body ++ fence) fence
    = Z.of_nat (3 + length tag + 1 + length body)).
  { unfold JS.lastIndexOf.
    replace (fence ++ tag ++ [10%N] ++ body ++ fence)
      with ((fence ++ tag ++ [10%N] ++ body) ++ fence)
      by (rewrite <- !app_assoc; reflexivity).
    rewrite lastIndexOf_from_end by discriminate.
    rewrite !length_app, Hlen. cbn [length]. lia. }
  rewrite Hfirst, Hlast.
  destruct (Z.geb_spec (Z.of_nat (3 + length tag)) 0); [|lia].
  destruct (Z.gtb_spec (Z.of_nat (3 + length tag + 1 + length body))
              (Z.of_nat (3 + length tag))); [|lia].
  cbn [andb]. f_equal.
  replace (Z.of_nat (3 + length tag) + 1)
    with (Z.of_nat (3 + length tag + 1)) by lia.
  rewrite substring_range by (rewrite !length_app, Hlen; cbn [length]; lia).
  replace (3 + length tag + 1 + length body - (3 + length tag + 1))%nat
    with (length body) by lia.
  replace (fence ++ tag ++ [10%N] ++ body ++ fence)
    with ((fence ++ tag ++ [10%N]) ++ body ++ fence)
    by (rewrite <- !app_assoc; reflexivity).
  rewrite drop_app_length'
    by (rewrite !length_app, Hlen; cbn [length]; lia).
  apply take_app_length.
Qed.

Lemma strip_fence_unwraps_witness :
  TodoFromSpeech.strip_fence
    (js "```" ++ js "json" ++ [10%N] ++ js "{} " ++ [10%N] ++ js "```")
  = JS.trim (js "{} " ++ [10%N]).
Proof.
  replace (js "```" ++ js "json" ++ [10%N] ++ js "{} " ++ [10%N] ++ js "```")
    with (js "```" ++ js "json" ++ [10%N] ++ (js "{} " ++ [10%N]) ++ js "```")
    by (rewrite <- !app_assoc; reflexivity).
  apply (proj1 (strip_fence_unwraps (js "json") (js "{} " ++ [10%N]) [])).
  apply (bool_decide_unpack _). vm_compute. exact I.
Defined.

(** ** Every outcome of the TODO-extraction handler *)

Section OutcomeFacts.
Import JS Eff TodoFromSpeech Incoming TodoOutcome.

Variable P : Platform.
Variable W : World.

Lemma is_string_eq_spec v s :
  is_string_eq v s = true <-> v = JSStr s.
Proof.
  destruct v; cbn; try (split; [discriminate | intros [=]]).
  rewrite bool_decide_eq_true. split; [intros ->; reflexivity | intros [=]; auto].
Qed.

Lemma served_spec sessionId wav :
  served P W sessionId wav
    (try_catch
       (recognizedText ← callAzureSpeechToText W wav;
        '(todo, notionPosted) ←
          (if truthy (JSStr recognizedText) then
             todo ← callAzureOpenAITodoAnalyzer P W recognizedText;
             is_todo ← pure (getProp todo "is_todo");
             if truthy is_todo then
               title ← pure (getProp todo "title");
               when ← pure (getProp todo "when");
               notes ← pure (getProp todo "notes");
               notionPosted ←
                 postTodoToNotion P W title when notes recognizedText
                   sessionId;
               mret (todo, notionPosted)
             else mret (todo, false)
           else mret (not_a_task, false));
        todoTitle ← pure (getProp todo "title");
        todoWhen ← pure (getProp todo "when");
        todoNotes ← pure (getProp todo "notes");
        emit (Respond
                (JsonResponse 200
                   (JSObject
                      [(js "recognizedText", JSStr recognizedText);
                       (js "todoTitle", todoTitle);
                       (js "todoWhen", todoWhen);
                       (js "todoNotes", todoNotes);
                       (js "notionPosted", JSBool notionPosted)]))))
       (fun err => (failure P W err, Ok tt))).
Proof.
  rewrite try_catch_bind.
  destruct (callAzureSpeechToText W wav) as [events [text|e]] eqn:Estt.
  2:{ unfold after. cbn [fst snd]. apply served_speech_failed. exact Estt. }
  destruct (truthy (JSStr text)) eqn:Etext.
  2:{ apply truthy_str_nil in Etext. subst text.
      apply (served_silence _ _ _ _ _ Estt). }
  apply truthy_str_cons in Etext.
  destruct (callAzureOpenAITodoAnalyzer P W text) as [events' [todo|e]]
    eqn:Etodo.
  2:{ rewrite !throw_bind. cbn [try_catch]. unfold after. cbn [fst snd].
      apply (served_analysis_failed _ _ _ _ _ _ _ _ Estt Etext Etodo). }
  destruct (analyzer_object _ _ _ _ _ Etodo)
    as (b & title & when & notes & ->).
  rewrite ok_bind, todo_object_is_todo, pure_bind.
  destruct b; cbn [truthy].
  - rewrite todo_object_title, todo_object_when, todo_object_notes.
    rewrite !pure_bind.
    destruct (postTodoToNotion P W title when notes text sessionId)
      as [events'' [notionPosted|e]] eqn:Enotion.
    + rewrite ok_bind, !after_bind. unfold after. cbn.
      apply (served_task _ _ _ _ _ _ _ _ _ _ _ _ Estt Etext Etodo Enotion).
    + rewrite throw_bind, !after_bind, throw_bind.
      rewrite try_catch_after, try_catch_thrown. unfold after. cbn.
      apply (served_notes_failed _ _ _ _ _ _ _ _ _ _ _ _
               Estt Etext Etodo Enotion).
  - rewrite after_bind. unfold after. cbn.
    apply (served_not_a_task _ _ _ _ _ _ _ _ _ _ Estt Etext Etodo).
Qed.

(** Every request has one of the outcomes of [outcome]. *)
Lemma handler_outcome req : outcome P W req (handler P W req).
Proof.
  unfold handler.
  case_bool_decide as Hmethod; cbn [negb].
  2:{ apply wrong_method. exact Hmethod. }
  match goal with |- context [try_catch _ ?h] => set (catch := h) end.
  assert (Hcatch : forall e, catch e = (failure P W e, Ok tt))
    by reflexivity.
  rewrite try_catch_pure_bind.
  match goal with |- context [match ?r with Ok _ => _ | Throw _ => _ end] =>
    destruct r as [body|e] eqn:Ebody end.
  2:{ rewrite Hcatch. apply body_unreadable; [exact Hmethod|]. left.
      exact Ebody. }
  change (requestBody P req = Ok body) in Ebody.
  rewrite try_catch_pure_bind. fold (requestedMode body).
  destruct (requestedMode body) as [mode|e] eqn:Emode.
  2:{ rewrite Hcatch. apply body_unreadable; [exact Hmethod|]. right.
      exists body. split; [exact Ebody|]. left. exact Emode. }
  destruct (is_string_eq mode (js "utterance")) eqn:Eutt; cbn [negb].
  2:{ apply (wrong_mode _ _ _ body mode Hmethod Ebody Emode).
      intros Hm. apply is_string_eq_spec in Hm. congruence. }
  apply is_string_eq_spec in Eutt. subst mode.
  rewrite try_catch_pure_bind. fold (requestedAudio body).
  destruct (requestedAudio body) as [base64|e] eqn:Eaudio.
  2:{ rewrite Hcatch. apply body_unreadable; [exact Hmethod|]. right.
      exists body. split; [exact Ebody|]. right. left. exact Eaudio. }
  destruct (negb (truthy base64) || negb (is_string base64)) eqn:Ebase.
  { apply (no_audio _ _ _ body base64 Hmethod Ebody Emode Eaudio).
    intros s ->. cbn [is_string negb orb] in Ebase.
    rewrite orb_false_r in Ebase. apply negb_true_iff in Ebase.
    exact (truthy_str_nil _ Ebase). }
  apply orb_false_iff in Ebase as [Etruthy Estring].
  apply negb_false_iff in Etruthy, Estring.
  destruct base64 as [| |?|?|audio|?|?]; try discriminate Estring.
  apply truthy_str_cons in Etruthy.
  rewrite try_catch_pure_bind. fold (requestedSession body).
  destruct (requestedSession body) as [sessionId|e] eqn:Esession.
  2:{ rewrite Hcatch. apply body_unreadable; [exact Hmethod|]. right.
      exists body. split; [exact Ebody|]. right. right. exact Esession. }
  rewrite try_catch_pure_bind, try_catch_pure_bind.
  destruct (pcm16ToWavBuffer _ _ _) as [wav|e] eqn:Ewav.
  2:{ rewrite Hcatch.
      apply (audio_too_long _ _ _ body audio sessionId e
               Hmethod Ebody Emode Eaudio Etruthy Esession Ewav). }
  apply (audio_served _ _ _ body audio sessionId wav _
           Hmethod Ebody Emode Eaudio Etruthy Esession Ewav).
  apply served_spec.
Qed.

End OutcomeFacts.

Section QuietFacts.

Lemma quiet_nil : quiet [].
Proof. intros r H. apply elem_of_nil in H. contradiction. Qed.

Lemma quiet_app a b : quiet a -> quiet b -> quiet (a ++ b).
Proof.
  intros Ha Hb r H. apply elem_of_app in H as [H|H];
    [exact (Ha r H) | exact (Hb r H)].
Qed.

Lemma quiet_fetch r : quiet [Fetch r].
Proof. intros x H. apply list_elem_of_singleton in H. discriminate H. Qed.

Lemma quiet_warn s : quiet [ConsoleWarn s].
Proof. intros x H. apply list_elem_of_singleton in H. discriminate H. Qed.

Lemma quiet_error s : quiet [ConsoleError s].
Proof. intros x H. apply list_elem_of_singleton in H. discriminate H. Qed.

Lemma quiet_header n v : quiet [SetHeader n v].
Proof. intros x H. apply list_elem_of_singleton in H. discriminate H. Qed.

End QuietFacts.

Create HintDb quiet.

#[local] Hint Resolve quiet_nil quiet_app quiet_fetch quiet_warn quiet_error
  quiet_header : quiet.

Section TodoAnswers.
Import JS Eff TodoFromSpeech Incoming TodoOutcome.

Variable P : Platform.
Variable W : World.

Lemma stt_quiet wav events r :
  callAzureSpeechToText W wav = (events, r) -> quiet events.
Proof.
  intros H. apply stt_events in H as [[-> _] | ->]; auto with quiet.
Qed.

Lemma analyzer_quiet text events r :
  callAzureOpenAITodoAnalyzer P W text = (events, r) -> quiet events.
Proof.
  intros H. apply analyzer_events in H as [-> | ->]; auto with quiet.
Qed.

Lemma notion_quiet title when notes sourceText sessionId events r :
  postTodoToNotion P W title when notes sourceText sessionId = (events, r) ->
  quiet events.
Proof.
  intros H.
  apply notion_cases in H as [[-> _]|[[-> _]|(ch & _ & [-> | [label ->]])]];
    auto with quiet.
  apply (quiet_app [_] [_]); auto with quiet.
Qed.

Lemma served_answers sessionId wav m :
  served P W sessionId wav m ->
  exists before status body,
    m = (before ++ [Respond (JsonResponse status body)], Ok tt)
    /\ (status = 200 \/ status = 500)
    /\ quiet before.
Proof.
  intros [ events err Hstt
         | events Hstt
         | events text events' err Hstt Htext Htodo
         | events text events' title when notes Hstt Htext Htodo
         | events text events' title when notes events'' err
             Hstt Htext Htodo Hnotion
         | events text events' title when notes events'' b
             Hstt Htext Htodo Hnotion ].
  all: apply stt_quiet in Hstt.
  all: try apply analyzer_quiet in Htodo.
  all: try apply notion_quiet in Hnotion.
  all: unfold failure, summary.
  all: repeat match goal with
       | |- context [[ConsoleError ?l; ?r]] =>
           change [ConsoleError l; r] with ([ConsoleError l] ++ [r])
       end.
  all: rewrite ?app_assoc.
  all: do 3 eexists; split; [reflexivity|]; split; [auto|].
  all: auto 10 with quiet.
Qed.

End TodoAnswers.

(** ** The TODO-extraction handler, request by request *)

(** X9. The handler never fails and answers every request exactly once: it
    returns normally, a response is the last thing it does, and no response
    is sent before that one. The status is 200, 400, 405 or 500. *)
Theorem todo_handler_answers_once (P : Platform) (W : World) (req : HttpRequest) :
  exists before status body,
    TodoFromSpeech.handler P W req
    = (before ++ [Respond (JsonResponse status body)], Ok tt)
    /\ (status = 200 \/ status = 400 \/ status = 405 \/ status = 500)
    /\ quiet before.
Proof.
  pose proof (handler_outcome P W req) as Hrun.
  destruct Hrun as
    [ Hm | err Hm Herr | body mode Hm Hbody Hmode Hne
    | body audio Hm Hbody Hmode Haudio Hempty
    | body audio sessionId err Hm Hbody Hmode Haudio Hne Hsession Hwav
    | body audio sessionId wav m Hm Hbody Hmode Haudio Hne Hsession Hwav
        Hserved ].
  - exists [], 405. eexists. split; [reflexivity|]. split; [auto|].
    apply quiet_nil.
  - exists [ConsoleError (js "[todo-from-speech] Error:")], 500. eexists.
    split; [reflexivity|]. split; [auto|]. apply quiet_error.
  - exists [], 400. eexists. split; [reflexivity|]. split; [auto|].
    apply quiet_nil.
  - exists [], 400. eexists. split; [reflexivity|]. split; [auto|].
    apply quiet_nil.
  - exists [ConsoleError (js "[todo-from-speech] Error:")], 500. eexists.
    split; [reflexivity|]. split; [auto|]. apply quiet_error.
  - destruct (served_answers _ _ _ _ _ Hserved)
      as (before & status & b & -> & [-> | ->] & Hq);
      exists before; do 2 eexists; (split; [reflexivity|]); split; auto.
Qed.

Section TodoCalls.
Import JS Eff TodoFromSpeech Incoming TodoOutcome.

Variable P : Platform.
Variable W : World.

Lemma stt_unconfigured wav :
  missing (AZURE_SPEECH_KEY (env W)) || missing (AZURE_SPEECH_REGION (env W))
  = true ->
  exists err, callAzureSpeechToText W wav = ([], Throw err).
Proof.
  intros H. unfold callAzureSpeechToText. rewrite H. eexists. reflexivity.
Qed.

(** The page that is sent holds the blocks [notionChildren] made. *)
Lemma notion_page title when notes sourceText sessionId events r :
  postTodoToNotion P W title when notes sourceText sessionId = (events, r) ->
  events = [ConsoleWarn notion_warning] /\ r = Ok false
  \/ events = [] /\ (exists e, r = Throw e
                               /\ notionChildren P notes sourceText sessionId
                                  = Throw e)
  \/ exists children,
       let request := notionRequest W title when sourceText children in
       notionChildren P notes sourceText sessionId = Ok children
       /\ r = Ok (posted (fetch W request))
       /\ (events = [Fetch request]
           \/ exists label, events = [Fetch request; ConsoleError label]).
Proof.
  unfold postTodoToNotion.
  destruct (missing _ || missing _).
  { intros [= <- <-]. left. split; reflexivity. }
  rewrite pure_bind.
  destruct (notionChildren P notes sourceText sessionId) as [children|e].
  2:{ intros [= <- <-]. right. left. eauto. }
  intros H. right. right. exists children. cbn zeta.
  split; [reflexivity|].
  revert H. rewrite try_catch_bind. unfold fetch_.
  destruct (fetch W (notionRequest W title when sourceText children))
    as [res|e]; cbn [posted].
  - destruct (ok res); cbn [negb]; intros [= <- <-].
    + split; [reflexivity|]. left. reflexivity.
    + split; [reflexivity|]. right. eexists. reflexivity.
  - intros [= <- <-]. split; [reflexivity|]. right. eexists. reflexivity.
Qed.

Lemma stt_fetched wav events text :
  callAzureSpeechToText W wav = (events, Ok text) ->
  events = [Fetch (speechToTextRequest W wav)].
Proof.
  intros H. apply stt_events in H as [[_ [? H]] | H];
    [discriminate H | exact H].
Qed.

Lemma analyzer_fetched text events v :
  callAzureOpenAITodoAnalyzer P W text = (events, Ok v) ->
  events = [Fetch (todoAnalyzerRequest W text)].
Proof.
  intros H. pose proof H as Hev.
  apply analyzer_events in Hev as [-> | ->]; [|reflexivity].
  exfalso. revert H. unfold callAzureOpenAITodoAnalyzer.
  destruct (missing _ || missing _ || missing _); [discriminate|].
  rewrite fetch_bind. destruct (fetch W _); [|discriminate].
  intros H. apply after_inv in H as (? & _ & H). discriminate H.
Qed.

Lemma requests_app a b : requests (a ++ b) = requests a ++ requests b.
Proof. apply omap_app. Qed.

(** The first event of a request that is served at all. *)
Lemma served_first sessionId wav m r :
  served P W sessionId wav m -> Fetch r ∈ m.1 ->
  m.1 !! 0%nat = Some (Fetch (speechToTextRequest W wav)).
Proof.
  intros [ events err Hstt
         | events Hstt
         | events text events' err Hstt Htext Htodo
         | events text events' title when notes Hstt Htext Htodo
         | events text events' title when notes events'' err
             Hstt Htext Htodo Hnotion
         | events text events' title when notes events'' b
             Hstt Htext Htodo Hnotion ] Hin; cbn [fst] in *.
  all: apply stt_events in Hstt as [[-> [? Hthrown]] | ->];
    try discriminate Hthrown; try reflexivity.
  cbn [app] in Hin. members; discriminate Hin.
Qed.

(** The container a served request sent to the speech service. *)
Lemma served_audio sessionId wav' m wav :
  served P W sessionId wav' m ->
  Fetch (speechToTextRequest W wav) ∈ m.1 -> wav' = wav.
Proof.
  intros [ events err Hstt
         | events Hstt
         | events text events' err Hstt Htext Htodo
         | events text events' title when notes Hstt Htext Htodo
         | events text events' title when notes events'' err
             Hstt Htext Htodo Hnotion
         | events text events' title when notes events'' b
             Hstt Htext Htodo Hnotion ] Hin; cbn [fst] in *.
  all: apply stt_events in Hstt as [[-> _] | ->].
  all: try (apply analyzer_events in Htodo as [-> | ->]).
  all: try (apply notion_cases in Hnotion
              as [[-> Hr]|[[-> [? Hr]]|(ch & Hr & [-> | [label ->]])]]).
  all: members; try discriminate Hin.
  all: apply Fetch_inj in Hin.
  all: first [ symmetry; exact (speech_request_inj W _ _ Hin)
             | apply speech_is_not_notion in Hin; contradiction
             | apply speech_is_not_analysis in Hin; contradiction ].
Qed.

End TodoCalls.

(** X10. No service is contacted for a request that is not valid, and what
    the speech service then receives first is the caller's audio. Whenever
    the handler makes a request at all, the incoming request was a POST
    whose body could be read, whose mode is absent (or falsy) or
    "utterance", and whose audioBase64 (or audio) is a non-empty string; and
    the first event is the request to the speech service with the 44-byte
    header for 16000 Hz and one channel followed by the decoded bytes. *)
Theorem todo_speech_request_carries_the_audio
  (P : Platform) (W : World) (req : HttpRequest) (r : Request) :
  Fetch r ∈ (TodoFromSpeech.handler P W req).1 ->
  exists body audio,
    req_method req = js "POST"
    /\ Incoming.requestBody P req = Ok body
    /\ TodoOutcome.requestedMode body = Ok (JSStr (js "utterance"))
    /\ Incoming.requestedAudio body = Ok (JSStr audio)
    /\ audio <> []
    /\ (TodoFromSpeech.handler P W req).1 !! 0%nat
       = Some
           (Fetch
              (TodoFromSpeech.speechToTextRequest W
                 (wavHeader
                    (Z.of_nat (length (Buffer_from_base64 P audio))) 16000 1
                  ++ Buffer_from_base64 P audio))).
Proof.
  pose proof (handler_outcome P W req) as Hrun.
  destruct Hrun as
    [ Hm | err Hm Herr | body mode Hm Hbody Hmode Hne
    | body audio Hm Hbody Hmode Haudio Hempty
    | body audio sessionId err Hm Hbody Hmode Haudio Hne Hsession Hwav
    | body audio sessionId wav m Hm Hbody Hmode Haudio Hne Hsession Hwav
        Hserved ];
    intros Hin; cbn [fst] in Hin.
  1-5: members; discriminate Hin.
  exists body, audio. do 5 (split; [assumption|]).
  destruct (pcm16ToWavBuffer_output _ _ _ _ Hwav) as [_ ->].
  exact (served_first P W _ _ _ _ Hserved Hin).
Qed.

Lemma todo_speech_request_carries_the_audio_witness :
  exists body audio,
    req_method Example.audio_request = js "POST"
    /\ Incoming.requestBody Example.platform Example.audio_request = Ok body
    /\ TodoOutcome.requestedMode body = Ok (JSStr (js "utterance"))
    /\ Incoming.requestedAudio body = Ok (JSStr audio)
    /\ audio <> []
    /\ (TodoFromSpeech.handler Example.platform Example.silence
          Example.audio_request).1 !! 0%nat
       = Some
           (Fetch
              (TodoFromSpeech.speechToTextRequest Example.silence
                 (wavHeader
                    (Z.of_nat
                       (length (Buffer_from_base64 Example.platform audio)))
                    16000 1
                  ++ Buffer_from_base64 Example.platform audio))).
Proof.
  apply (todo_speech_request_carries_the_audio Example.platform
           Example.silence Example.audio_request
           (TodoFromSpeech.speechToTextRequest Example.silence
              (wavHeader 4 16000 1 ++ [x01; x02; x03; x04]))).
  apply (list_elem_of_lookup_2 _ 0). vm_compute. reflexivity.
Defined.

(** X11. Without the credentials of the speech service the handler contacts
    no service at all, and never answers 200: a valid request gets a 500. *)
Theorem todo_no_request_without_speech_credentials
  (P : Platform) (W : World) (req : HttpRequest) :
  Eff.missing (AZURE_SPEECH_KEY (env W))
  || Eff.missing (AZURE_SPEECH_REGION (env W)) = true ->
  requests (TodoFromSpeech.handler P W req).1 = []
  /\ exists status body,
       list.last (TodoFromSpeech.handler P W req).1
       = Some (Respond (JsonResponse status body))
       /\ (status = 400 \/ status = 405 \/ status = 500).
Proof.
  intros Hmissing.
  pose proof (handler_outcome P W req) as Hrun.
  destruct Hrun as
    [ Hm | err Hm Herr | body mode Hm Hbody Hmode Hne
    | body audio Hm Hbody Hmode Haudio Hempty
    | body audio sessionId err Hm Hbody Hmode Haudio Hne Hsession Hwav
    | body audio sessionId wav m Hm Hbody Hmode Haudio Hne Hsession Hwav
        Hserved ].
  1-5: split; [reflexivity|]; do 2 eexists; split; [reflexivity|]; auto.
  destruct (stt_unconfigured W wav Hmissing) as [err Hstt].
  destruct Hserved as
    [ events err' Hstt'
    | events Hstt'
    | events text events' err' Hstt' Htext Htodo
    | events text events' title when notes Hstt' Htext Htodo
    | events text events' title when notes events'' err'
        Hstt' Htext Htodo Hnotion
    | events text events' title when notes events'' b
        Hstt' Htext Htodo Hnotion ];
    rewrite Hstt in Hstt'; try discriminate Hstt'.
  injection Hstt' as <- <-.
  split; [reflexivity|]. do 2 eexists. split; [reflexivity|]. auto.
Qed.

Lemma todo_no_request_without_speech_credentials_witness :
  requests
    (TodoFromSpeech.handler Example.platform
       Scenario.offline
       Example.audio_request).1
  = [].
Proof.
  apply (todo_no_request_without_speech_credentials Example.platform
           Scenario.offline
           Example.audio_request).
  reflexivity.
Defined.

(** X12. For one incoming request the handler makes at most three requests,
    in a fixed order, each one depending on the answer to the one before:
    the speech service first; the analyzer only with the text the speech
    service returned, and only when that text is not empty; the notes
    service only after the analyzer returned an object whose is_todo is
    true, with the analyzer's title and when, the recognized text, and the
    blocks made from the analyzer's notes. *)
Theorem todo_requests_are_in_order
  (P : Platform) (W : World) (req : HttpRequest) :
  let made := requests (TodoFromSpeech.handler P W req).1 in
  made = []
  \/ exists wav,
       let speech := TodoFromSpeech.speechToTextRequest W wav in
       made = [speech]
       \/ exists text,
            let analysis := TodoFromSpeech.todoAnalyzerRequest W text in
            TodoFromSpeech.callAzureSpeechToText W wav
            = ([Fetch speech], Ok text)
            /\ text <> []
            /\ (made = [speech; analysis]
                \/ exists title when notes sessionId children,
                     TodoFromSpeech.callAzureOpenAITodoAnalyzer P W text
                     = ([Fetch analysis],
                        Ok (TodoFromSpeech.todo_object true title when notes))
                     /\ TodoFromSpeech.notionChildren P notes text sessionId
                        = Ok children
                     /\ made
                        = [speech; analysis;
                           TodoFromSpeech.notionRequest W title when text
                             children]).
Proof.
  cbn zeta.
  pose proof (handler_outcome P W req) as Hrun.
  destruct Hrun as
    [ Hm | err Hm Herr | body mode Hm Hbody Hmode Hne
    | body audio Hm Hbody Hmode Haudio Hempty
    | body audio sessionId err Hm Hbody Hmode Haudio Hne Hsession Hwav
    | body audio sessionId wav m Hm Hbody Hmode Haudio Hne Hsession Hwav
        Hserved ].
  1-5: left; reflexivity.
  destruct Hserved as
    [ events err Hstt
    | events Hstt
    | events text events' err Hstt Htext Htodo
    | events text events' title when notes Hstt Htext Htodo
    | events text events' title when notes events'' err
        Hstt Htext Htodo Hnotion
    | events text events' title when notes events'' b
        Hstt Htext Htodo Hnotion ];
    cbn [fst].
  - apply stt_events in Hstt as [[-> _] | ->]; [left; reflexivity|].
    right. exists wav. left. reflexivity.
  - apply stt_fetched in Hstt as ->.
    right. exists wav. left. reflexivity.
  - pose proof (stt_fetched _ _ _ _ Hstt) as ->.
    right. exists wav.
    apply analyzer_events in Htodo as [-> | ->]; [left; reflexivity|].
    right. exists text. split; [exact Hstt|]. split; [exact Htext|].
    left. reflexivity.
  - pose proof (stt_fetched _ _ _ _ Hstt) as ->.
    pose proof (analyzer_fetched _ _ _ _ _ Htodo) as ->.
    right. exists wav. right. exists text.
    split; [exact Hstt|]. split; [exact Htext|]. left. reflexivity.
  - pose proof (stt_fetched _ _ _ _ Hstt) as ->.
    pose proof (analyzer_fetched _ _ _ _ _ Htodo) as ->.
    right. exists wav. right. exists text.
    split; [exact Hstt|]. split; [exact Htext|].
    apply notion_page in Hnotion
      as [[-> Hr]
         |[[-> (? & Hr & _)]
          |(ch & Hch & Hr & [-> | [label ->]])]];
      try discriminate Hr; left; reflexivity.
  - pose proof (stt_fetched _ _ _ _ Hstt) as ->.
    pose proof (analyzer_fetched _ _ _ _ _ Htodo) as ->.
    right. exists wav. right. exists text.
    split; [exact Hstt|]. split; [exact Htext|].
    apply notion_page in Hnotion
      as [[-> Hr]
         |[[-> (? & Hr & _)]
          |(ch & Hch & Hr & [-> | [label ->]])]];
      try discriminate Hr; try (left; reflexivity).
    all: right; exists title, when, notes, sessionId, ch;
      split; [exact Htodo|]; split; [exact Hch | reflexivity].
Qed.

(** X13. A summary whose notionPosted is true is only sent after the notes
    service has accepted the page: the page with the title and the when of
    the summary, made from its notes and its recognized text, was sent, and
    the service answered with a success status. *)
Theorem todo_notion_posted_means_stored
  (P : Platform) (W : World) (req : HttpRequest)
  (text : JSString) (title when notes : JSValue) :
  Respond (TodoFromSpeech.summary text title when notes true)
    ∈ (TodoFromSpeech.handler P W req).1 ->
  exists sessionId children res,
    TodoFromSpeech.notionChildren P notes text sessionId = Ok children
    /\ Fetch (TodoFromSpeech.notionRequest W title when text children)
         ∈ (TodoFromSpeech.handler P W req).1
    /\ fetch W (TodoFromSpeech.notionRequest W title when text children)
       = Ok res
    /\ ok res = true.
Proof.
  pose proof (handler_outcome P W req) as Hrun.
  destruct Hrun as
    [ Hm | err Hm Herr | body mode Hm Hbody Hmode Hne
    | body audio Hm Hbody Hmode Haudio Hempty
    | body audio sessionId err Hm Hbody Hmode Haudio Hne Hsession Hwav
    | body audio sessionId wav m Hm Hbody Hmode Haudio Hne Hsession Hwav
        Hserved ];
    cbn [fst]; intros Hin.
  1-5: members; discriminate Hin.
  destruct Hserved as
    [ events err Hstt
    | events Hstt
    | events text' events' err Hstt Htext Htodo
    | events text' events' title' when' notes' Hstt Htext Htodo
    | events text' events' title' when' notes' events'' err
        Hstt Htext Htodo Hnotion
    | events text' events' title' when' notes' events'' b
        Hstt Htext Htodo Hnotion ];
    cbn [fst] in *.
  all: apply stt_events in Hstt as [[-> [? Hthrown]] | ->];
    try discriminate Hthrown.
  all: try (apply analyzer_events in Htodo as [-> | ->]).
  all: try (apply notion_page in Hnotion
              as [[-> Hr]
                 |[[-> (? & Hr & _)]
                  |(ch & Hch & Hr & [-> | [label ->]])]];
            try discriminate Hr).
  all: members; try discriminate Hin.
  all: injection Hin as <- <- <- <- Hb; injection Hr as Hr; subst b.
  all: try discriminate Hb.
  all: unfold TodoFromSpeech.posted in Hb;
    destruct (fetch W _) as [res|] eqn:Efetch; [|discriminate Hb].
  all: exists sessionId, ch, res; split; [exact Hch|]; split;
    [|split; [exact Efetch | congruence]].
  all: apply elem_of_app; right; apply elem_of_app; right;
    apply elem_of_app; left; left.
Qed.

Lemma todo_notion_posted_means_stored_witness :
  exists sessionId children res,
    TodoFromSpeech.notionChildren Example.platform JSNull
      (js "牛乳を買いたい") sessionId = Ok children
    /\ Fetch (TodoFromSpeech.notionRequest
                Scenario.notes_stored
                (JSStr (js "牛乳を買う")) (JSStr (js "今日中"))
                (js "牛乳を買いたい") children)
         ∈ (TodoFromSpeech.handler Example.platform
              Scenario.notes_stored
              Example.audio_request).1
    /\ fetch
         Scenario.notes_stored
         (TodoFromSpeech.notionRequest
            Scenario.notes_stored
            (JSStr (js "牛乳を買う")) (JSStr (js "今日中"))
            (js "牛乳を買いたい") children)
       = Ok res
    /\ ok res = true.
Proof.
  apply (todo_notion_posted_means_stored Example.platform
           Scenario.notes_stored
           Example.audio_request).
  apply (list_elem_of_lookup_2 _ 3). vm_compute. reflexivity.
Defined.

Section SpeechResult.
Import JS Eff TodoFromSpeech.

Variable W : World.

Lemma stt_value wav events s :
  callAzureSpeechToText W wav = (events, Ok s) ->
  exists res data raw,
    fetch W (speechToTextRequest W wav) = Ok res
    /\ ok res = true
    /\ json res = Ok data
    /\ JS.or (getProp data "DisplayText")
         (JS.or (getProp data "Text") (Ok (JSStr [])))
       = Ok (JSStr raw)
    /\ s = trim raw.
Proof.
  unfold callAzureSpeechToText.
  destruct (missing _ || missing _); [discriminate|].
  rewrite fetch_bind.
  destruct (fetch W (speechToTextRequest W wav)) as [res|e] eqn:Ef;
    [|discriminate].
  intros H. apply after_inv in H as (t' & H & _). revert H.
  destruct (ok res) eqn:Eok; cbn [negb]; [|discriminate].
  rewrite pure_bind. destruct (json res) as [data|e] eqn:Ej; [|discriminate].
  rewrite pure_bind. destruct (JS.or _ _) as [v|e] eqn:Eor; [|discriminate].
  rewrite pure_bind.
  destruct v as [| |?|?|raw|?|?]; try discriminate.
  cbn. intros [= _ <-]. exists res, data, raw.
  repeat split; reflexivity || assumption.
Qed.

End SpeechResult.

(** X14. The text the TODO-extraction handler takes from the speech service
    is the service's DisplayText (or Text), a string, with the white space
    at both ends removed: it neither begins nor ends with white space, and
    it is empty exactly when the service's text is nothing but white space,
    so that a recognition of blanks counts as silence. *)
Theorem recognized_text_is_trimmed
  (W : World) (wav : list byte) (events : list Event) (s : JSString) :
  TodoFromSpeech.callAzureSpeechToText W wav = (events, Ok s) ->
  exists res data raw,
    fetch W (TodoFromSpeech.speechToTextRequest W wav) = Ok res
    /\ json res = Ok data
    /\ JS.or (JS.getProp data "DisplayText")
         (JS.or (JS.getProp data "Text") (Ok (JSStr [])))
       = Ok (JSStr raw)
    /\ s = JS.trim raw
    /\ (forall u, head s = Some u \/ list.last s = Some u ->
                  JS.is_space u = false)
    /\ (s = [] <-> blank raw).
Proof.
  intros H.
  destruct (stt_value W wav events s H) as (res & data & raw & Hf & _ & Hj
                                            & Hor & ->).
  exists res, data, raw. do 4 (split; [assumption || reflexivity|]).
  split.
  - intros u [Hu|Hu]; [exact (trim_head _ _ Hu) | exact (trim_last _ _ Hu)].
  - apply trim_blank.
Qed.

Lemma recognized_text_is_trimmed_witness :
  exists res data raw,
    fetch Example.notes_service_down
      (TodoFromSpeech.speechToTextRequest Example.notes_service_down []) = Ok res
    /\ json res = Ok data
    /\ JS.or (JS.getProp data "DisplayText")
         (JS.or (JS.getProp data "Text") (Ok (JSStr [])))
       = Ok (JSStr raw)
    /\ js "牛乳を買いたい" = JS.trim raw
    /\ (forall u, head (js "牛乳を買いたい") = Some u
                  \/ list.last (js "牛乳を買いたい") = Some u ->
                  JS.is_space u = false)
    /\ (js "牛乳を買いたい" = [] <-> blank raw).
Proof.
  apply (recognized_text_is_trimmed Example.notes_service_down []
           [Fetch (TodoFromSpeech.speechToTextRequest
                     Example.notes_service_down [])]).
  vm_compute. reflexivity.
Defined.





(** ** The page sent to the notes service *)

Section NotionFacts.
Import JS Eff TodoFromSpeech.

Variable P : Platform.
Variable W : World.

Lemma ToString_primitive v : primitive v = true -> exists s, ToString P v = Ok s.
Proof. destruct v; try discriminate; intros _; cbn; eauto. Qed.

Lemma ToString_throws : forall v e, ToString P v = Throw e -> e = TypeError.
Proof.
  fix IH 1. intros v e. destruct v as [| |b|x|s|elems|props]; cbn;
    try discriminate.
  - induction elems as [|v elems IHl]; [discriminate|].
    intros H. apply bind_throw in H as [H | (s & _ & H)].
    + destruct (nullish v); [discriminate | exact (IH v e H)].
    + destruct elems as [|w elems]; [discriminate|].
      apply bind_throw in H as [H | (r & _ & H)]; [|discriminate].
      exact (IHl H).
  - destruct (own props _);
      [intros [= <-]; reflexivity | discriminate].
Qed.

Lemma notionChildren_throws notes sourceText sessionId e :
  notionChildren P notes sourceText sessionId = Throw e ->
  e = TypeError /\ (primitive notes = false \/ primitive sessionId = false).
Proof.
  unfold notionChildren. intros H.
  apply bind_throw in H as [H | (children & _ & H)].
  - destruct (truthy notes); [|discriminate].
    apply bind_throw in H as [H | (s & _ & H)]; [|discriminate].
    split; [exact (ToString_throws _ _ H)|]. left.
    destruct (primitive notes) eqn:Ep; [|reflexivity].
    destruct (ToString_primitive _ Ep) as [s Hs]. congruence.
  - destruct (truthy sessionId); [|discriminate].
    apply bind_throw in H as [H | (s & _ & H)]; [|discriminate].
    split; [exact (ToString_throws _ _ H)|]. right.
    destruct (primitive sessionId) eqn:Ep; [|reflexivity].
    destruct (ToString_primitive _ Ep) as [s Hs]. congruence.
Qed.

End NotionFacts.

(** X17. Saving a task can fail the request in one way only.
    [postTodoToNotion] throws nothing but a TypeError, it does so before any
    request is made, and only when the notes or the session identifier is an
    object or an array, which the template literals of lines 210 and 238
    cannot print; for notes and a session identifier that are strings,
    numbers, booleans, null or undefined it always returns true or false. *)
Theorem notion_call_throws_only_on_unprintable_values
  (P : Platform) (W : World) (title when notes : JSValue)
  (sourceText : JSString) (sessionId : JSValue) :
  (forall events e,
      TodoFromSpeech.postTodoToNotion P W title when notes sourceText sessionId
      = (events, Throw e) ->
      e = TypeError /\ events = []
      /\ (primitive notes = false \/ primitive sessionId = false))
  /\ (primitive notes = true -> primitive sessionId = true ->
      exists events stored,
        TodoFromSpeech.postTodoToNotion P W title when notes sourceText
          sessionId
        = (events, Ok stored)).
Proof.
  assert (Hthrows : forall events e,
    TodoFromSpeech.postTodoToNotion P W title when notes sourceText sessionId
    = (events, Throw e) ->
    e = TypeError /\ events = []
    /\ (primitive notes = false \/ primitive sessionId = false)).
  { intros events e H.
    apply notion_page in H
      as [[_ Hr]|[[-> (e' & Hr & Hch)]|(ch & _ & Hr & _)]];
      try discriminate Hr.
    injection Hr as <-.
    destruct (notionChildren_throws _ _ _ _ _ Hch) as [-> Hp]. auto. }
  split; [exact Hthrows|].
  intros Hn Hs.
  destruct (TodoFromSpeech.postTodoToNotion P W title when notes sourceText
              sessionId) as [events [stored|e]] eqn:E; [eauto|].
  destruct (Hthrows _ _ eq_refl) as (_ & _ & [H|H]); congruence.
Qed.

Lemma notion_call_throws_only_on_unprintable_values_witness :
  exists events stored,
    TodoFromSpeech.postTodoToNotion Example.platform Scenario.notes_stored
      (JSStr (js "牛乳を買う")) JSNull (JSStr (js "低脂肪"))
      (js "牛乳を買いたい") (JSStr (js "s-1"))
    = (events, Ok stored).
Proof.
  apply (proj2 (notion_call_throws_only_on_unprintable_values
                  Example.platform Scenario.notes_stored
                  (JSStr (js "牛乳を買う")) JSNull (JSStr (js "低脂肪"))
                  (js "牛乳を買いたい") (JSStr (js "s-1"))));
    reflexivity.
Defined.

(** X18. Every page sent to the notes service has a title that is not empty:
    the analyzer's title when it is truthy, and otherwise the first 50 code
    units of the recognized text or, when that text is empty too, the words
    "Speech TODO". The page has a When exactly when the analyzer's when is
    truthy, and it carries the bearer token of the environment. *)
Theorem notion_page_is_titled
  (W : World) (title when : JSValue) (sourceText : JSString)
  (children : list JSValue) :
  let request := TodoFromSpeech.notionRequest W title when sourceText children in
  (exists t,
      Wire.page_title request = Some t
      /\ JS.truthy t = true
      /\ (JS.truthy title = true -> t = title)
      /\ (JS.truthy title = false ->
          exists s, t = JSStr s /\ (length s <= 50)%nat
                    /\ (sourceText <> [] -> s = take 50 sourceText)
                    /\ (sourceText = [] -> s = js "Speech TODO")))
  /\ Wire.page_when request = (if JS.truthy when then Some when else None)
  /\ Wire.header (headers request) (js "Authorization")
     = Some (js "Bearer " ++ Eff.tmpl (NOTION_API_KEY (env W))).
Proof.
  cbn zeta. split; [|split].
  - unfold Wire.page_title, TodoFromSpeech.notionRequest.
    destruct (JS.truthy when); cbn.
    all: destruct (JS.truthy title) eqn:Et.
    all: try (exists title; repeat split; [assumption|discriminate]).
    all: destruct sourceText as [|u s].
    all: try (exists (JSStr (js "Speech TODO")); repeat split; try discriminate;
              [ intros _; eexists; repeat split;
                [vm_compute; lia | congruence] ]).
    all: exists (JSStr (take 50 (u :: s))); repeat split; try discriminate;
      intros _; eexists; repeat split;
      [rewrite length_take; lia | discriminate].
  - unfold Wire.page_when, TodoFromSpeech.notionRequest.
    destruct (JS.truthy when); reflexivity.
  - reflexivity.
Qed.

Lemma notion_page_is_titled_witness :
  exists t,
    Wire.page_title
      (TodoFromSpeech.notionRequest Scenario.notes_stored JSNull JSNull
         (js "牛乳を買いたい") [])
    = Some t
    /\ t = JSStr (js "牛乳を買いたい").
Proof.
  destruct (proj1 (notion_page_is_titled Scenario.notes_stored JSNull JSNull
                     (js "牛乳を買いたい") []))
    as (t & Ht & _ & _ & Hfallback).
  exists t. split; [exact Ht|].
  destruct (Hfallback eq_refl) as (s & -> & _ & Htake & _).
  rewrite Htake by (vm_compute; discriminate). reflexivity.
Defined.

(** ** The spoken-reply handler (api/pocket-ai.js) *)

Section PocketCalls.
Import JS Eff PocketAi Incoming PocketOutcome.

Variable P : Platform.
Variable W : World.

Lemma pocket_stt_fetched wav events v :
  callAzureSpeechToText W wav = (events, Ok v) ->
  events = [Fetch (speechToTextRequest W wav)].
Proof.
  intros H. apply pocket_stt_events in H as [[_ [? H]] | H];
    [discriminate H | exact H].
Qed.

Lemma pocket_stt_quiet wav events r :
  callAzureSpeechToText W wav = (events, r) -> quiet events.
Proof.
  intros H. apply pocket_stt_events in H as [[-> _] | ->]; auto with quiet.
Qed.

Lemma pocket_chat_cases promptText events r :
  callAzureOpenAIChat W promptText = (events, r) ->
  (exists e, r = Throw e)
  /\ (events = [] \/ events = [Fetch (chatRequest W promptText)])
  \/ events = [Fetch (chatRequest W promptText)]
     /\ exists s, r = Ok (JSStr s) /\ s <> [] /\ trim s = s.
Proof.
  unfold callAzureOpenAIChat.
  destruct (missing _ || missing _ || missing _).
  { intros [= <- <-]. left. eauto. }
  rewrite fetch_bind.
  destruct (fetch W (chatRequest W promptText)) as [res|e].
  2:{ intros [= <- <-]. left. eauto. }
  intros H. apply after_inv in H as (t' & H & ->). revert H.
  destruct (negb (ok res)).
  { intros [= <- <-]. left. eauto. }
  rewrite pure_bind. destruct (json res) as [data|e].
  2:{ intros [= <- <-]. left. eauto. }
  rewrite pure_bind.
  destruct (TodoFromSpeech.reply_content data) as [v|e] eqn:Ev.
  2:{ intros [= <- <-]. left. eauto. }
  destruct (truthy v) eqn:Etruthy; cbn [negb].
  2:{ intros [= <- <-]. left. eauto. }
  intros [= <- <-]. right. split; [reflexivity|].
  apply reply_content_value in Ev as [-> | (s & -> & Hs & Htrim)];
    [discriminate Etruthy|].
  exists s. auto.
Qed.

Lemma pocket_chat_quiet promptText events r :
  callAzureOpenAIChat W promptText = (events, r) -> quiet events.
Proof.
  intros H. apply pocket_chat_cases in H as [[_ [-> | ->]] | [-> _]];
    auto with quiet.
Qed.

Lemma pocket_tts_cases text events r :
  callAzureSpeechTTS W text = (events, r) ->
  (exists e, r = Throw e)
  /\ (events = [] \/ events = [Fetch (textToSpeechRequest W text)])
  \/ events = [Fetch (textToSpeechRequest W text)]
     /\ exists res audio,
          fetch W (textToSpeechRequest W text) = Ok res
          /\ ok res = true
          /\ arrayBuffer res = Ok audio
          /\ r = Ok audio.
Proof.
  unfold callAzureSpeechTTS.
  destruct (missing _ || missing _).
  { intros [= <- <-]. left. eauto. }
  rewrite fetch_bind.
  destruct (fetch W (textToSpeechRequest W text)) as [res|e] eqn:Ef.
  2:{ intros [= <- <-]. left. eauto. }
  intros H. apply after_inv in H as (t' & H & ->). revert H.
  destruct (ok res) eqn:Eok; cbn [negb].
  2:{ intros [= <- <-]. left. eauto. }
  rewrite pure_bind. destruct (arrayBuffer res) as [audio|e] eqn:Ea.
  2:{ intros [= <- <-]. left. eauto. }
  intros [= <- <-]. right. split; [reflexivity|].
  exists res, audio. auto.
Qed.

Lemma pocket_tts_quiet text events r :
  callAzureSpeechTTS W text = (events, r) -> quiet events.
Proof.
  intros H. apply pocket_tts_cases in H as [[_ [-> | ->]] | [-> _]];
    auto with quiet.
Qed.

(** Every request has one of the outcomes of [outcome]. *)
Lemma pocket_handler_outcome req : outcome P W req (handler P W req).
Proof.
  unfold handler.
  case_bool_decide as Hmethod; cbn [negb].
  2:{ apply wrong_method. exact Hmethod. }
  match goal with |- context [try_catch _ ?h] => set (catch := h) end.
  assert (Hcatch : forall e, catch e = (failure P W e, Ok tt))
    by reflexivity.
  rewrite try_catch_pure_bind.
  match goal with |- context [match ?r with Ok _ => _ | Throw _ => _ end] =>
    destruct r as [body|e] eqn:Ebody end.
  2:{ rewrite Hcatch. apply body_unreadable; [exact Hmethod|]. left.
      exact Ebody. }
  change (requestBody P req = Ok body) in Ebody.
  rewrite try_catch_pure_bind. fold (requestedAudio body).
  destruct (requestedAudio body) as [base64|e] eqn:Eaudio.
  2:{ rewrite Hcatch. apply body_unreadable; [exact Hmethod|]. right.
      exists body. split; assumption. }
  destruct (negb (truthy base64) || negb (TodoFromSpeech.is_string base64))
    eqn:Ebase.
  { apply (no_audio _ _ _ body base64 Hmethod Ebody Eaudio).
    intros s ->. cbn [TodoFromSpeech.is_string negb orb] in Ebase.
    rewrite orb_false_r in Ebase. apply negb_true_iff in Ebase.
    exact (truthy_str_nil _ Ebase). }
  apply orb_false_iff in Ebase as [Etruthy Estring].
  apply negb_false_iff in Etruthy, Estring.
  destruct base64 as [| |?|?|audio|?|?]; try discriminate Estring.
  apply truthy_str_cons in Etruthy.
  rewrite try_catch_pure_bind, try_catch_pure_bind.
  destruct (pcm16ToWavBuffer _ _ _) as [wav|e] eqn:Ewav.
  2:{ rewrite Hcatch.
      apply (audio_too_long _ _ _ body audio e
               Hmethod Ebody Eaudio Etruthy Ewav). }
  apply (audio_served _ _ _ body audio wav _
           Hmethod Ebody Eaudio Etruthy Ewav).
  rewrite try_catch_bind.
  destruct (callAzureSpeechToText W wav) as [ev1 [recognizedText|e]] eqn:Estt.
  2:{ rewrite Hcatch. unfold after. cbn [fst snd].
      apply served_speech_failed. exact Estt. }
  pose proof (pocket_stt_fetched _ _ _ Estt) as ->.
  rewrite try_catch_bind.
  destruct (callAzureOpenAIChat W recognizedText) as [ev2 [replyValue|e]]
    eqn:Echat.
  2:{ rewrite Hcatch. unfold after. cbn [fst snd app].
      apply (served_chat_failed _ _ _ _ _ _ Estt Echat). }
  pose proof Echat as Hreply.
  apply pocket_chat_cases in Hreply
    as [[[? Hr] _] | [-> (replyText & Hr & Hne & _)]];
    [discriminate Hr|].
  injection Hr as ->.
  rewrite try_catch_pure_bind, try_catch_bind.
  destruct (callAzureSpeechTTS W replyText) as [ev3 [spoken_audio|e]]
    eqn:Etts.
  2:{ rewrite Hcatch. unfold after. cbn [fst snd app].
      apply (served_synthesis_failed _ _ _ _ _ _ _ Estt Echat Etts). }
  pose proof Etts as Haudio.
  apply pocket_tts_cases in Haudio
    as [[[? Hr] _] | [-> _]]; [discriminate Hr|].
  rewrite try_catch_bind. cbn [emit].
  rewrite try_catch_bind. cbn [emit].
  rewrite try_catch_pure_bind.
  destruct (ToString P recognizedText ≫= _) as [recognizedHeader|e]
    eqn:Erh.
  2:{ rewrite Hcatch. unfold after. cbn [fst snd app].
      apply (served_header_failed _ _ _ _ _ _ [] _ Estt Echat Etts).
      left. split; [exact Erh | reflexivity]. }
  rewrite try_catch_bind. cbn [emit].
  rewrite try_catch_pure_bind.
  destruct (encodeURIComponent P replyText) as [replyHeader|e] eqn:Eph.
  2:{ rewrite Hcatch. unfold after. cbn [fst snd app].
      apply (served_header_failed _ _ _ _ _ _ [_] _ Estt Echat Etts).
      right. exists recognizedHeader.
      split; [exact Erh|]. split; [exact Eph | reflexivity]. }
  rewrite try_catch_bind. cbn [emit]. unfold after. cbn [fst snd app].
  apply (served_audio _ _ _ _ _ _ _ _ Estt Echat Etts Erh Eph).
Qed.

End PocketCalls.

Section PocketAnswers.
Import JS Eff PocketAi Incoming PocketOutcome.

Variable P : Platform.
Variable W : World.

Lemma pocket_stt_truthy wav events v :
  callAzureSpeechToText W wav = (events, Ok v) -> truthy v = true.
Proof.
  unfold callAzureSpeechToText.
  destruct (missing _ || missing _); [discriminate|].
  rewrite fetch_bind. destruct (fetch W _) as [res|e]; [|discriminate].
  intros H. apply after_inv in H as (t' & H & _). revert H.
  destruct (negb (ok res)); [discriminate|].
  rewrite pure_bind. destruct (json res); [|discriminate].
  rewrite pure_bind. destruct (JS.or _ _) as [x|]; [|discriminate].
  destruct (truthy x) eqn:Ex; cbn [negb]; intros [= _ <-];
    [exact Ex | reflexivity].
Qed.

Lemma pocket_chat_fetched promptText events v :
  callAzureOpenAIChat W promptText = (events, Ok v) ->
  events = [Fetch (chatRequest W promptText)]
  /\ exists s, v = JSStr s /\ s <> [] /\ trim s = s.
Proof.
  intros H. apply pocket_chat_cases in H as [[[? H] _] | [-> (s & H & Hs)]];
    [discriminate H|].
  injection H as ->. split; [reflexivity|]. exists s. auto.
Qed.

Lemma pocket_served_answers wav m :
  served P W wav m ->
  exists before response,
    m = (before ++ [Respond response], Ok tt)
    /\ quiet before
    /\ ((exists body, response = JsonResponse 500 body)
        \/ exists audio, response = SendResponse 200 audio).
Proof.
  intros [ events err Hstt
         | recognizedText events err Hstt Hchat
         | recognizedText replyText events err Hstt Hchat Htts
         | recognizedText replyText audio sent err Hstt Hchat Htts Hsent
         | recognizedText replyText audio rh ph Hstt Hchat Htts Hrh Hph ].
  - exists (events ++ [ConsoleError (js "[pocket-ai] Error:")]).
    eexists. split; [rewrite <- app_assoc; reflexivity|].
    split; [|left; eauto].
    apply pocket_stt_quiet in Hstt. auto with quiet.
  - exists (Fetch (speechToTextRequest W wav)
            :: events ++ [ConsoleError (js "[pocket-ai] Error:")]).
    eexists. split; [cbn [app]; rewrite <- app_assoc; reflexivity|].
    split; [|left; eauto].
    apply pocket_chat_quiet in Hchat. apply (quiet_app [_]); auto with quiet.
  - exists (Fetch (speechToTextRequest W wav)
            :: Fetch (chatRequest W recognizedText)
            :: events ++ [ConsoleError (js "[pocket-ai] Error:")]).
    eexists. split; [cbn [app]; rewrite <- app_assoc; reflexivity|].
    split; [|left; eauto].
    apply pocket_tts_quiet in Htts.
    apply (quiet_app [_]); [auto with quiet|].
    apply (quiet_app [_]); auto with quiet.
  - exists (Fetch (speechToTextRequest W wav)
            :: Fetch (chatRequest W recognizedText)
            :: Fetch (textToSpeechRequest W replyText)
            :: SetHeader (js "Content-Type") (js "audio/wav")
            :: SetHeader (js "Content-Length")
                 (decimal (Z.of_nat (length audio)))
            :: sent ++ [ConsoleError (js "[pocket-ai] Error:")]).
    eexists. split; [cbn [app]; rewrite <- app_assoc; reflexivity|].
    split; [|left; eauto].
    repeat (apply (quiet_app [_]); [auto with quiet|]).
    destruct Hsent as [[_ ->] | (? & _ & _ & ->)]; auto with quiet.
  - eexists (removelast (spoken W wav recognizedText replyText audio rh ph)).
    eexists. split; [reflexivity|]. split; [|right; eauto].
    cbn [removelast spoken].
    repeat (apply (quiet_app [_]); [auto with quiet|]). apply quiet_nil.
Qed.

End PocketAnswers.

(** X19. The spoken-reply handler never fails and answers every request
    exactly once: it returns normally, a response is the last thing it does,
    and no response is sent before that one. The response is a JSON object
    with status 400, 405 or 500, or the audio with status 200. *)
Theorem pocket_handler_answers_once
  (P : Platform) (W : World) (req : HttpRequest) :
  exists before response,
    PocketAi.handler P W req = (before ++ [Respond response], Ok tt)
    /\ quiet before
    /\ ((exists status body,
            response = JsonResponse status body
            /\ (status = 400 \/ status = 405 \/ status = 500))
        \/ exists audio, response = SendResponse 200 audio).
Proof.
  pose proof (pocket_handler_outcome P W req) as Hrun.
  destruct Hrun as
    [ Hm | err Hm Herr
    | body audio Hm Hbody Haudio Hempty
    | body audio err Hm Hbody Haudio Hne Hwav
    | body audio wav m Hm Hbody Haudio Hne Hwav Hserved ].
  - exists []. eexists. split; [reflexivity|]. split; [apply quiet_nil|].
    left. do 2 eexists. split; [reflexivity | auto].
  - exists [ConsoleError (js "[pocket-ai] Error:")]. eexists.
    split; [reflexivity|]. split; [apply quiet_error|].
    left. do 2 eexists. split; [reflexivity | auto].
  - exists []. eexists. split; [reflexivity|]. split; [apply quiet_nil|].
    left. do 2 eexists. split; [reflexivity | auto].
  - exists [ConsoleError (js "[pocket-ai] Error:")]. eexists.
    split; [reflexivity|]. split; [apply quiet_error|].
    left. do 2 eexists. split; [reflexivity | auto].
  - destruct (pocket_served_answers _ _ _ _ Hserved)
      as (before & response & -> & Hq & [[b ->] | [a ->]]).
    + exists before. eexists. split; [reflexivity|]. split; [exact Hq|].
      left. do 2 eexists. split; [reflexivity | auto].
    + exists before. eexists. split; [reflexivity|]. split; [exact Hq|].
      right. eauto.
Qed.

(** X20. The audio the handler sends is the speech synthesized for the reply
    to what was heard in the caller's audio. Whenever a response with a
    binary body is sent, its status is 200 and the whole run is: the request
    to the speech service with the WAV made of the decoded audioBase64, the
    request to the chat service with the recognized text, the request to the
    synthesis service with the (non-empty) reply, the four headers, and the
    bytes the synthesis service answered with. *)
Theorem pocket_audio_is_the_synthesized_reply
  (P : Platform) (W : World) (req : HttpRequest)
  (status : Z) (audio : list byte) :
  Respond (SendResponse status audio) ∈ (PocketAi.handler P W req).1 ->
  status = 200
  /\ exists body audioBase64 recognizedText replyText res
            recognizedHeader replyHeader,
       let pcm := Buffer_from_base64 P audioBase64 in
       let wav := wavHeader (Z.of_nat (length pcm)) 16000 1 ++ pcm in
       Incoming.requestBody P req = Ok body
       /\ Incoming.requestedAudio body = Ok (JSStr audioBase64)
       /\ PocketAi.callAzureSpeechToText W wav
          = ([Fetch (PocketAi.speechToTextRequest W wav)], Ok recognizedText)
       /\ PocketAi.callAzureOpenAIChat W recognizedText
          = ([Fetch (PocketAi.chatRequest W recognizedText)],
             Ok (JSStr replyText))
       /\ replyText <> []
       /\ fetch W (PocketAi.textToSpeechRequest W replyText) = Ok res
       /\ ok res = true
       /\ arrayBuffer res = Ok audio
       /\ (PocketAi.handler P W req).1
          = PocketOutcome.spoken W wav recognizedText replyText audio
              recognizedHeader replyHeader.
Proof.
  pose proof (pocket_handler_outcome P W req) as Hrun.
  destruct Hrun as
    [ Hm | err Hm Herr
    | body b64 Hm Hbody Haudio Hempty
    | body b64 err Hm Hbody Haudio Hne Hwav
    | body b64 wav m Hm Hbody Haudio Hne Hwav Hserved ];
    cbn [fst]; intros Hin.
  1-4: unfold PocketOutcome.failure in Hin; members; discriminate Hin.
  destruct (pcm16ToWavBuffer_output _ _ _ _ Hwav) as [_ ->].
  destruct Hserved as
    [ events err Hstt
    | recognizedText events err Hstt Hchat
    | recognizedText replyText events err Hstt Hchat Htts
    | recognizedText replyText spoken_audio sent err Hstt Hchat Htts Hsent
    | recognizedText replyText spoken_audio rh ph Hstt Hchat Htts Hrh Hph ];
    cbn [fst] in Hin.
  - apply pocket_stt_quiet in Hstt.
    apply elem_of_app in Hin as [Hin|Hin]; [destruct (Hstt _ Hin)|].
    unfold PocketOutcome.failure in Hin. members; discriminate Hin.
  - apply pocket_chat_quiet in Hchat.
    apply elem_of_cons in Hin as [Hin|Hin]; [discriminate Hin|].
    apply elem_of_app in Hin as [Hin|Hin]; [destruct (Hchat _ Hin)|].
    unfold PocketOutcome.failure in Hin. members; discriminate Hin.
  - apply pocket_tts_quiet in Htts.
    do 2 (apply elem_of_cons in Hin as [Hin|Hin]; [discriminate Hin|]).
    apply elem_of_app in Hin as [Hin|Hin]; [destruct (Htts _ Hin)|].
    unfold PocketOutcome.failure in Hin. members; discriminate Hin.
  - do 5 (apply elem_of_cons in Hin as [Hin|Hin]; [discriminate Hin|]).
    apply elem_of_app in Hin as [Hin|Hin].
    + destruct Hsent as [[_ ->] | (? & _ & _ & ->)]; members;
        discriminate Hin.
    + unfold PocketOutcome.failure in Hin. members; discriminate Hin.
  - unfold PocketOutcome.spoken in Hin. members; try discriminate Hin.
    injection Hin as -> ->. split; [reflexivity|].
    destruct (pocket_chat_fetched W _ _ _ Hchat) as (_ & s & Hs & Hne' & _).
    injection Hs as <-.
    pose proof Htts as Hres.
    apply pocket_tts_cases in Hres
      as [[[? Hr] _] | [_ (res & a & Hf & Hok & Ha & Hr)]];
      [discriminate Hr|].
    injection Hr as <-.
    exists body, b64, recognizedText, replyText, res, rh, ph. cbn zeta.
    repeat split; assumption || reflexivity.
Qed.

Lemma pocket_audio_is_the_synthesized_reply_witness :
  (200 = 200)%Z
  /\ exists body audioBase64 recognizedText replyText res
            recognizedHeader replyHeader,
       let pcm := Buffer_from_base64 Example.platform audioBase64 in
       let wav := wavHeader (Z.of_nat (length pcm)) 16000 1 ++ pcm in
       Incoming.requestBody Example.platform Example.audio_request = Ok body
       /\ Incoming.requestedAudio body = Ok (JSStr audioBase64)
       /\ PocketAi.callAzureSpeechToText Scenario.conversation wav
          = ([Fetch (PocketAi.speechToTextRequest Scenario.conversation wav)],
             Ok recognizedText)
       /\ PocketAi.callAzureOpenAIChat Scenario.conversation recognizedText
          = ([Fetch (PocketAi.chatRequest Scenario.conversation
                       recognizedText)],
             Ok (JSStr replyText))
       /\ replyText <> []
       /\ fetch Scenario.conversation
            (PocketAi.textToSpeechRequest Scenario.conversation replyText)
          = Ok res
       /\ ok res = true
       /\ arrayBuffer res = Ok (Example.utf8 (js "RIFF"))
       /\ (PocketAi.handler Example.platform Scenario.conversation
             Example.audio_request).1
          = PocketOutcome.spoken Scenario.conversation wav recognizedText
              replyText (Example.utf8 (js "RIFF")) recognizedHeader
              replyHeader.
Proof.
  apply (pocket_audio_is_the_synthesized_reply Example.platform
           Scenario.conversation Example.audio_request 200
           (Example.utf8 (js "RIFF"))).
  apply (list_elem_of_lookup_2 _ 7). vm_compute. reflexivity.
Defined.

(** X21. The chat call of the spoken-reply handler returns nothing but a
    string that is not empty and has no white space at its ends, and it
    returns only after its one request. A completion without a usable
    content is an error, never an empty reply to be spoken: when the service
    answers with a success status and a body in which no content is found,
    the call throws. *)
Theorem pocket_chat_reply_is_not_empty
  (W : World) (promptText : JSValue) :
  (forall events v,
      PocketAi.callAzureOpenAIChat W promptText = (events, Ok v) ->
      events = [Fetch (PocketAi.chatRequest W promptText)]
      /\ exists s, v = JSStr s /\ s <> [] /\ JS.trim s = s)
  /\ (forall res data,
         Eff.missing (AZURE_OPENAI_KEY (env W)) = false ->
         Eff.missing (AZURE_OPENAI_ENDPOINT (env W)) = false ->
         Eff.missing (AZURE_OPENAI_DEPLOYMENT (env W)) = false ->
         fetch W (PocketAi.chatRequest W promptText) = Ok res ->
         ok res = true ->
         json res = Ok data ->
         TodoFromSpeech.reply_content data = Ok (JSStr []) ->
         PocketAi.callAzureOpenAIChat W promptText
         = ([Fetch (PocketAi.chatRequest W promptText)],
            Throw (Error (js "Azure OpenAI からの返答が取得できませんでした。")))).
Proof.
  split.
  - intros events v H. exact (pocket_chat_fetched W _ _ _ H).
  - intros res data Hk He Hd Hf Hok Hj Hr.
    unfold PocketAi.callAzureOpenAIChat.
    rewrite Hk, He, Hd. cbn [orb].
    rewrite fetch_bind, Hf, Hok. cbn [negb].
    rewrite pure_bind, Hj, pure_bind, Hr. reflexivity.
Qed.

Lemma pocket_chat_reply_is_not_empty_witness :
  PocketAi.callAzureOpenAIChat Example.mute_model (JSStr (js "こんにちは"))
  = ([Fetch (PocketAi.chatRequest Example.mute_model (JSStr (js "こんにちは")))],
     Throw (Error (js "Azure OpenAI からの返答が取得できませんでした。"))).
Proof.
  apply (proj2 (pocket_chat_reply_is_not_empty Example.mute_model
                  (JSStr (js "こんにちは")))
           (Example.chat_reply [])
           (JSObject
              [(js "choices",
                JSArray
                  [JSObject
                     [(js "message",
                       JSObject [(js "role", JSStr (js "assistant"));
                                 (js "content", JSStr [])])]])]));
    vm_compute; reflexivity.
Defined.

(** ** The earlier revision of the spoken-reply handler *)

Section EarlierCalls.
Import JS Eff Earlier EarlierOutcome.

Variable P : Platform.
Variable W : World.
Variable Buffer_from_value : JSValue -> result (list byte).

(** The token the speech service issued. *)
Lemma token_cases events r :
  getSpeechToken W = (events, r) ->
  events = [Fetch (tokenRequest W)]
  /\ ((exists e, r = Throw e)
      \/ exists res token,
           fetch W (tokenRequest W) = Ok res /\ ok res = true
           /\ text res = Ok token /\ r = Ok token).
Proof.
  unfold getSpeechToken. rewrite fetch_bind.
  destruct (fetch W (tokenRequest W)) as [res|e] eqn:Ef.
  2:{ intros [= <- <-]. split; [reflexivity|]. left. eauto. }
  intros H. apply after_inv in H as (t' & H & ->). revert H.
  destruct (ok res) eqn:Eok; cbn [negb].
  - unfold pure, body_text. intros [= <- <-]. split; [reflexivity|].
    destruct (text res) as [token|e] eqn:Et; [|left; eauto].
    right. exists res, token. auto.
  - rewrite pure_bind. destruct (body_text res); intros [= <- <-];
      (split; [reflexivity|]); left; eauto.
Qed.

Lemma speech_cases wav events r :
  speechToText W wav = (events, r) ->
  events = [Fetch (tokenRequest W)] /\ (exists e, r = Throw e)
  \/ exists res token,
       fetch W (tokenRequest W) = Ok res /\ ok res = true
       /\ text res = Ok token
       /\ events = [Fetch (tokenRequest W); Fetch (speechRequest W token wav)].
Proof.
  unfold speechToText.
  destruct (getSpeechToken W) as [ev [token|e]] eqn:Etoken.
  2:{ apply token_cases in Etoken as [-> _]. intros [= <- <-]. left. eauto. }
  apply token_cases in Etoken
    as [-> [[e He] | (res & token' & Hf & Hok & Ht & [= ->])]];
    [discriminate He|].
  rewrite ok_bind, fetch_bind. intros H. right. exists res, token'.
  do 3 (split; [assumption|]).
  apply after_inv in H as (t' & H & ->). revert H.
  destruct (fetch W (speechRequest W token' wav)) as [resp|e].
  2:{ intros [= <- _]. reflexivity. }
  intros H. apply after_inv in H as (t'' & H & ->). revert H.
  destruct (negb (ok resp)).
  - rewrite pure_bind. destruct (body_text resp); intros [= <- _]; reflexivity.
  - rewrite pure_bind. destruct (json resp); intros [= <- _]; reflexivity.
Qed.

Lemma chat_cases userText events r :
  callChatGPT W userText = (events, r) ->
  events = [Fetch (chatRequest W userText)]
  /\ forall v, r = Ok v -> exists s, v = JSStr s /\ trim s = s.
Proof.
  unfold callChatGPT. rewrite fetch_bind.
  destruct (fetch W (chatRequest W userText)) as [resp|e].
  2:{ intros [= <- <-]. split; [reflexivity | discriminate]. }
  intros H. apply after_inv in H as (t' & H & ->). revert H.
  destruct (negb (ok resp)).
  { rewrite pure_bind. destruct (body_text resp); intros [= <- <-];
      (split; [reflexivity | discriminate]). }
  rewrite pure_bind. destruct (json resp) as [data|e].
  2:{ intros [= <- <-]. split; [reflexivity | discriminate]. }
  unfold pure. intros [= <- <-]. split; [reflexivity|].
  intros v Hv. unfold coalesce in Hv.
  apply bind_ok in Hv as (x & Hx & Hv).
  repeat (apply bind_ok in Hx as (? & _ & Hx)).
  apply optTrim_value in Hx as [-> | [s ->]]; cbn in Hv; injection Hv as <-.
  - exists []. split; reflexivity.
  - exists (trim s). split; [reflexivity | apply trim_idem].
Qed.

Lemma synthesis_cases reply events r :
  textToSpeech W reply = (events, r) ->
  events = [Fetch (tokenRequest W)] /\ (exists e, r = Throw e)
  \/ exists res token s,
       fetch W (tokenRequest W) = Ok res /\ ok res = true
       /\ text res = Ok token
       /\ reply = JSStr s
       /\ events = [Fetch (tokenRequest W);
                    Fetch (synthesisRequest W token s)]
       /\ forall audio, r = Ok audio ->
            exists resp, fetch W (synthesisRequest W token s) = Ok resp
                         /\ ok resp = true /\ arrayBuffer resp = Ok audio.
Proof.
  unfold textToSpeech.
  destruct (getSpeechToken W) as [ev [token|e]] eqn:Etoken.
  2:{ apply token_cases in Etoken as [-> _]. intros [= <- <-]. left. eauto. }
  apply token_cases in Etoken
    as [-> [[e He] | (res & token' & Hf & Hok & Ht & [= ->])]];
    [discriminate He|].
  rewrite ok_bind, pure_bind.
  destruct reply as [| |?|?|s|?|?];
    try solve [intros [= <- <-]; left; eauto].
  rewrite fetch_bind. intros H. right. exists res, token', s.
  do 4 (split; [assumption || reflexivity|]).
  apply after_inv in H as (t' & H & ->). revert H.
  destruct (fetch W (synthesisRequest W token' s)) as [resp|e] eqn:Ef.
  2:{ intros [= <- <-]. split; [reflexivity | discriminate]. }
  intros H. apply after_inv in H as (t'' & H & ->). revert H.
  destruct (ok resp) eqn:Eok; cbn [negb].
  - unfold pure. intros [= <- <-]. split; [reflexivity|].
    intros audio Ha. exists resp. auto.
  - rewrite pure_bind. destruct (body_text resp); intros [= <- <-];
      (split; [reflexivity | discriminate]).
Qed.




(** Every request has one of the outcomes of [outcome]. *)
Lemma earlier_handler_outcome req :
  outcome P W Buffer_from_value req (handler P W Buffer_from_value req).
Proof.
  unfold handler.
  match goal with |- context [try_catch _ ?h] => set (catch := h) end.
  assert (Hcatch : forall e, catch e = (failure P e, Ok tt)) by reflexivity.
  case_bool_decide as Hmethod; cbn [negb].
  2:{ apply wrong_method. exact Hmethod. }
  cbn zeta. rewrite try_catch_pure_bind.
  fold (requestedAudio req).
  destruct (requestedAudio req) as [audioBase64|e] eqn:Eaudio.
  2:{ exfalso. revert Eaudio. unfold requestedAudio.
      destruct (truthy (req_body req)) eqn:E; [|discriminate].
      destruct (req_body req); try discriminate E; discriminate. }
  destruct (truthy audioBase64) eqn:Etruthy; cbn [negb].
  2:{ apply (no_audio _ _ _ _ audioBase64 Hmethod Eaudio Etruthy). }
  rewrite try_catch_pure_bind. fold (decoded P Buffer_from_value audioBase64).
  destruct (decoded P Buffer_from_value audioBase64) as [pcm|e] eqn:Epcm.
  2:{ rewrite Hcatch.
      apply (audio_unusable _ _ _ _ audioBase64 e Hmethod Eaudio Etruthy).
      rewrite Epcm. reflexivity. }
  rewrite try_catch_pure_bind.
  destruct (pcm16ToWav (kMaxLength P) pcm 16000) as [wav|e] eqn:Ewav.
  2:{ rewrite Hcatch.
      apply (audio_unusable _ _ _ _ audioBase64 e Hmethod Eaudio Etruthy).
      rewrite Epcm. exact Ewav. }
  apply (audio_served _ _ _ _ audioBase64 pcm wav _
           Hmethod Eaudio Etruthy Epcm Ewav).
  rewrite try_catch_bind.
  destruct (speechToText W wav) as [ev1 [text|e]] eqn:Estt.
  2:{ rewrite Hcatch. unfold after. cbn [fst snd].
      apply served_speech_failed. exact Estt. }
  rewrite try_catch_bind. fold (question text).
  destruct (callChatGPT W (question text)) as [ev2 [reply|e]] eqn:Echat.
  2:{ rewrite Hcatch. unfold after. cbn [fst snd].
      apply (served_chat_failed _ _ _ _ _ _ _ Estt Echat). }
  rewrite try_catch_bind.
  destruct (textToSpeech W reply) as [ev3 [audio|e]] eqn:Etts.
  2:{ rewrite Hcatch. unfold after. cbn [fst snd].
      apply (served_synthesis_failed _ _ _ _ _ _ _ _ _ Estt Echat Etts). }
  rewrite try_catch_bind. cbn [emit]. unfold after. cbn [fst snd app].
  apply (served_audio _ _ _ _ _ _ _ _ _ Estt Echat Etts).
Qed.

End EarlierCalls.

Section EarlierEscape.
Import JS Earlier.

Lemma escapeXml_app a b : escapeXml (a ++ b) = escapeXml a ++ escapeXml b.
Proof. unfold escapeXml. rewrite !replaceAll_app. reflexivity. Qed.

Lemma escapeXml_unit u :
  escapeXml [u]
  = (if u =? 38 then js "&amp;"
     else if u =? 60 then js "&lt;"
     else if u =? 62 then js "&gt;"
     else [u])%N.
Proof.
  unfold escapeXml.
  destruct (N.eqb_spec u 38) as [->|E38]; [vm_compute; reflexivity|].
  destruct (N.eqb_spec u 60) as [->|E60]; [vm_compute; reflexivity|].
  destruct (N.eqb_spec u 62) as [->|E62]; [vm_compute; reflexivity|].
  assert (Hother : forall c by_, u <> c -> replaceAll [u] c by_ = [u]).
  { intros c by_ Hc. apply replaceAll_other. intros H.
    apply list_elem_of_singleton in H. congruence. }
  rewrite !Hother by assumption. reflexivity.
Qed.

Lemma escapeXml_cons u text :
  escapeXml (u :: text) = escapeXml [u] ++ escapeXml text.
Proof. apply (escapeXml_app [u] text). Qed.

Lemma escapeXml_keeps_out u text :
  u ∈ escapeXml text -> u <> 60%N /\ u <> 62%N.
Proof.
  induction text as [|v text IH]; intros Hu.
  { apply elem_of_nil in Hu. contradiction. }
  rewrite escapeXml_cons, escapeXml_unit in Hu.
  apply elem_of_app in Hu as [Hu|Hu]; [|exact (IH Hu)].
  destruct (N.eqb_spec v 38);
    [|destruct (N.eqb_spec v 60); [|destruct (N.eqb_spec v 62)]].
  1-3: vm_compute in Hu;
    repeat (apply elem_of_cons in Hu as [->|Hu]; [split; discriminate|]);
    apply elem_of_nil in Hu; contradiction.
  apply list_elem_of_singleton in Hu. subst u. split; assumption.
Qed.

End EarlierEscape.

(** X22. The earlier [escapeXml] makes its three replacements as one pass
    that puts [&amp;], [&lt;] and [&gt;] for [&], [<] and [>] and keeps
    every other code unit, quotes included: what it returns holds no [<] and
    no [>], so that it can stand inside an SSML element, and every quote of
    the text is still there, so that it cannot stand in an attribute. *)
Theorem escapeXml_is_one_pass (text : JSString) :
  Earlier.escapeXml text
  = flat_map
      (fun u =>
         (if u =? 38 then js "&amp;"
          else if u =? 60 then js "&lt;"
          else if u =? 62 then js "&gt;"
          else [u])%N)
      text
  /\ (forall u, u ∈ Earlier.escapeXml text -> u <> 60%N /\ u <> 62%N)
  /\ (forall u, u ∈ text -> u = 34%N \/ u = 39%N ->
                u ∈ Earlier.escapeXml text).
Proof.
  split; [|split].
  - induction text as [|u text IH]; [reflexivity|].
    rewrite escapeXml_cons, escapeXml_unit, IH. reflexivity.
  - intros u. apply escapeXml_keeps_out.
  - induction text as [|u text IH]; intros v Hv Hq.
    { apply elem_of_nil in Hv. contradiction. }
    rewrite escapeXml_cons. apply elem_of_app.
    apply elem_of_cons in Hv as [->|Hv]; [left | right; exact (IH v Hv Hq)].
    rewrite escapeXml_unit. destruct Hq as [-> | ->]; left.
Qed.

Lemma escapeXml_is_one_pass_witness :
  34%N ∈ Earlier.escapeXml (js "a<b" ++ [34%N]).
Proof.
  apply (proj2 (proj2 (escapeXml_is_one_pass (js "a<b" ++ [34%N])))).
  - apply (list_elem_of_lookup_2 _ 3). vm_compute. reflexivity.
  - left. reflexivity.
Defined.

Section EarlierAnswers.
Import JS Eff Earlier EarlierOutcome.

Variable P : Platform.
Variable W : World.
Variable Buffer_from_value : JSValue -> result (list byte).


End EarlierAnswers.




(** ** What the language model is asked *)

Section Questions.
Import JS Eff.

Variable P : Platform.
Variable W : World.

Lemma earlier_speech_question wav events x r v :
  Earlier.speechToText W wav = (events, x) -> Fetch r ∈ events ->
  Wire.user_message r = Some v -> False.
Proof.
  intros H Hr Hv.
  apply speech_cases in H as [[-> _] | (res & token & _ & _ & _ & ->)];
    members; apply Fetch_inj in Hr; subst r; discriminate Hv.
Qed.

Lemma earlier_synthesis_question reply events x r v :
  Earlier.textToSpeech W reply = (events, x) -> Fetch r ∈ events ->
  Wire.user_message r = Some v -> False.
Proof.
  intros H Hr Hv.
  apply synthesis_cases in H
    as [[-> _] | (res & token & s & _ & _ & _ & _ & -> & _)];
    members; apply Fetch_inj in Hr; subst r; discriminate Hv.
Qed.

Lemma earlier_chat_question userText events x r v :
  Earlier.callChatGPT W userText = (events, x) -> Fetch r ∈ events ->
  Wire.user_message r = Some v -> v = userText.
Proof.
  intros H Hr Hv. apply chat_cases in H as [-> _].
  members. apply Fetch_inj in Hr. subst r. injection Hv as <-. reflexivity.
Qed.

Lemma question_truthy text : truthy (EarlierOutcome.question text) = true.
Proof.
  unfold EarlierOutcome.question. destruct (truthy text) eqn:E;
    [exact E | reflexivity].
Qed.

End Questions.

(** X25. No handler asks the language model an empty question. The user
    message of every chat request a handler makes is: in the TODO-extraction
    handler the recognized text, a string that is not empty; in the
    spoken-reply handler the recognized text or, in its place, the
    placeholder, and in the earlier revision the recognized text or the
    words for "could not hear": a truthy value in both. *)
Theorem no_handler_asks_an_empty_question
  (P : Platform) (W : World)
  (Buffer_from_value : JSValue -> result (list byte))
  (req : HttpRequest) (r : Request) (v : JSValue) :
  Wire.user_message r = Some v ->
  (Fetch r ∈ (TodoFromSpeech.handler P W req).1 ->
   exists text, v = JSStr text /\ text <> [])
  /\ (Fetch r ∈ (PocketAi.handler P W req).1 -> JS.truthy v = true)
  /\ (Fetch r ∈ (Earlier.handler P W Buffer_from_value req).1 ->
      JS.truthy v = true).
Proof.
  intros Hv. split; [|split].
  - pose proof (handler_outcome P W req) as Hrun.
    destruct Hrun as
      [ Hm | err Hm Herr | body mode Hm Hbody Hmode Hne
      | body audio Hm Hbody Hmode Haudio Hempty
      | body audio sessionId err Hm Hbody Hmode Haudio Hne Hsession Hwav
      | body audio sessionId wav m Hm Hbody Hmode Haudio Hne Hsession Hwav
          Hserved ];
      cbn [fst]; intros Hin.
    1-5: members; discriminate Hin.
    destruct Hserved as
      [ events err Hstt
      | events Hstt
      | events text events' err Hstt Htext Htodo
      | events text events' title when notes Hstt Htext Htodo
      | events text events' title when notes events'' err
          Hstt Htext Htodo Hnotion
      | events text events' title when notes events'' b
          Hstt Htext Htodo Hnotion ];
      cbn [fst] in Hin.
    all: apply stt_events in Hstt as [[-> _] | ->].
    all: try (apply analyzer_events in Htodo as [-> | ->]).
    all: try (apply notion_cases in Hnotion
                as [[-> Hr]|[[-> [? Hr]]|(ch & Hr & [-> | [label ->]])]]).
    all: members; try discriminate Hin.
    all: apply Fetch_inj in Hin; subst r; try discriminate Hv.
    all: injection Hv as <-; exists text; split; [reflexivity | assumption].
  - pose proof (pocket_handler_outcome P W req) as Hrun.
    destruct Hrun as
      [ Hm | err Hm Herr
      | body b64 Hm Hbody Haudio Hempty
      | body b64 err Hm Hbody Haudio Hne Hwav
      | body b64 wav m Hm Hbody Haudio Hne Hwav Hserved ];
      cbn [fst]; intros Hin.
    1-4: unfold PocketOutcome.failure in Hin; members; discriminate Hin.
    destruct Hserved as
      [ events err Hstt
      | recognizedText events err Hstt Hchat
      | recognizedText replyText events err Hstt Hchat Htts
      | recognizedText replyText spoken_audio sent err Hstt Hchat Htts Hsent
      | recognizedText replyText spoken_audio rh ph Hstt Hchat Htts Hrh Hph ];
      cbn [fst] in Hin.
    all: try pose proof (pocket_stt_truthy W _ _ _ Hstt) as Htruthy.
    all: try (apply pocket_stt_events in Hstt as [[-> _] | ->]).
    all: try (apply pocket_chat_cases in Hchat
                as [[_ [-> | ->]] | [-> _]]).
    all: try (apply pocket_tts_cases in Htts as [[_ [-> | ->]] | [-> _]]).
    all: try (destruct Hsent as [[_ ->] | (? & _ & _ & ->)]).
    all: unfold PocketOutcome.failure, PocketOutcome.spoken in Hin.
    all: members; try discriminate Hin.
    all: apply Fetch_inj in Hin; subst r; try discriminate Hv.
    all: injection Hv as <-; exact Htruthy.
  - pose proof (earlier_handler_outcome P W Buffer_from_value req) as Hrun.
    destruct Hrun as
      [ Hm
      | audioBase64 Hm Haudio Hfalsy
      | audioBase64 err Hm Haudio Htruthy Hwav
      | audioBase64 pcm wav m Hm Haudio Htruthy Hpcm Hwav Hserved ];
      cbn [fst]; intros Hin.
    1-3: unfold Earlier.failure in Hin; members; discriminate Hin.
    destruct Hserved as
      [ events err Hstt
      | events text events' err Hstt Hchat
      | events text events' reply events'' err Hstt Hchat Htts
      | events text events' reply events'' audio Hstt Hchat Htts ];
      cbn [fst] in Hin.
    all: apply elem_of_app in Hin as [Hin|Hin];
      [destruct (earlier_speech_question W _ _ _ _ _ Hstt Hin Hv)|].
    all: try (apply elem_of_app in Hin as [Hin|Hin];
              [rewrite (earlier_chat_question W _ _ _ _ _ Hchat Hin Hv);
               apply question_truthy|]).
    all: try (apply elem_of_app in Hin as [Hin|Hin];
              [destruct (earlier_synthesis_question W _ _ _ _ _ Htts Hin Hv)
              |]).
    all: unfold Earlier.failure in Hin; members; discriminate Hin.
Qed.

Lemma no_handler_asks_an_empty_question_witness :
  JS.truthy (JSStr PocketAi.placeholder) = true.
Proof.
  apply (proj1 (proj2 (no_handler_asks_an_empty_question Example.platform
                         Example.silence Scenario.no_other_audio
                         Example.audio_request
                         (PocketAi.chatRequest Example.silence
                            (JSStr PocketAi.placeholder))
                         (JSStr PocketAi.placeholder) eq_refl))).
  apply (list_elem_of_lookup_2 _ 1). vm_compute. reflexivity.
Defined.



(** ** The SSML that is sent *)

Section SsmlFacts.
Import JS.

Lemma occurrences_app u a b :
  occurrences u (a ++ b) = (occurrences u a + occurrences u b)%nat.
Proof. apply count_occ_app. Qed.

Lemma occurrences_none u s : u ∉ s -> occurrences u s = 0%nat.
Proof.
  intros H. apply count_occ_not_In. intros Hin. apply H.
  apply list_elem_of_In. exact Hin.
Qed.

Lemma trimStart_app_blank sp s : blank sp -> trimStart (sp ++ s) = trimStart s.
Proof.
  induction 1 as [|u sp Hu _ IH]; [reflexivity|].
  cbn [app trimStart]. rewrite Hu. exact IH.
Qed.

Lemma trim_app_blank sp s : blank sp -> trim (sp ++ s) = trim s.
Proof. intros H. unfold trim. rewrite trimStart_app_blank by exact H. reflexivity. Qed.

Lemma escaped_reply_has_no_markup text :
  occurrences 60 (PocketAi.escapeForXml text) = 0%nat
  /\ occurrences 62 (PocketAi.escapeForXml text) = 0%nat
  /\ occurrences 34 (PocketAi.escapeForXml text) = 0%nat.
Proof.
  repeat split; apply occurrences_none, escapeForXml_keeps_out; auto.
Qed.

Lemma escaped_text_has_no_tags text :
  occurrences 60 (Earlier.escapeXml text) = 0%nat
  /\ occurrences 62 (Earlier.escapeXml text) = 0%nat.
Proof.
  split; apply occurrences_none; intros H;
    apply escapeXml_keeps_out in H; destruct H; congruence.
Qed.

End SsmlFacts.

(** X27. Whatever the reply is, it cannot break out of the SSML it is put
    in. The document the spoken-reply handler sends has exactly four [<] and
    four [>], those of the [speak] and [voice] tags of the template, and ten
    double quotes, those of the five attributes; the document of the earlier
    revision, which trims the template and leaves quotes alone, has exactly
    its four [<] and four [>] and begins with the [speak] tag. *)
Theorem ssml_is_not_broken_by_the_reply
  (W : World) (token text : JSString) :
  (exists ssml,
      body (PocketAi.textToSpeechRequest W text) = BodyText ssml
      /\ occurrences 60 ssml = 4%nat
      /\ occurrences 62 ssml = 4%nat
      /\ occurrences 34 ssml = 10%nat)
  /\ (exists ssml,
         body (Earlier.synthesisRequest W token text) = BodyText ssml
         /\ occurrences 60 ssml = 4%nat
         /\ occurrences 62 ssml = 4%nat
         /\ JS.startsWith ssml (js "<speak ") = true).
Proof.
  split.
  - destruct (escaped_reply_has_no_markup text) as (H60 & H62 & H34).
    eexists. split; [reflexivity|].
    rewrite !occurrences_app, H60, H62, H34.
    repeat split; vm_compute; reflexivity.
  - destruct (escaped_text_has_no_tags text) as (H60 & H62).
    eexists. split; [reflexivity|].
    match goal with |- context [JS.trim ?raw] =>
      assert (Htrim : exists core,
        JS.trim raw
        = js "<speak version=" ++ core
        /\ core
           = Earlier.dq ++ js "1.0" ++ Earlier.dq
             ++ js " xml:lang=" ++ Earlier.dq ++ js "ja-JP" ++ Earlier.dq
             ++ js ">" ++ [10%N]
             ++ js "      <voice xml:lang=" ++ Earlier.dq ++ js "ja-JP"
             ++ Earlier.dq
             ++ js " name=" ++ Earlier.dq ++ js "ja-JP-NanamiNeural"
             ++ Earlier.dq ++ js ">"
             ++ [10%N]
             ++ js "        " ++ Earlier.escapeXml text ++ [10%N]
             ++ js "      </voice>" ++ [10%N]
             ++ js "    </speak>")
    end.
    { eexists. split; [|reflexivity].
      change (js "    <speak version=")
        with (js "    " ++ js "<speak version=").
      rewrite <- (app_assoc (js "    ")).
      rewrite (app_assoc [10%N] (js "    ")).
      rewrite trim_app_blank
        by (repeat constructor).
      apply trim_fixed.
      - intros u [= <-]. reflexivity.
      - intros u Hu. rewrite !app_assoc in Hu.
        rewrite last_app in Hu. cbn in Hu. injection Hu as <-. reflexivity. }
    destruct Htrim as (core & -> & ->).
    rewrite !occurrences_app, H60, H62.
    repeat split; vm_compute; reflexivity.
Qed.

